(** * AutoStack Manager: cross-entity consistency of the backend services

    A shallow embedding of the version checker, the stack scanner, the
    report generator and the notification data-access layer of
    [autostack-manager/backend], with the properties of the specification
    that concern them. A second part holds further properties of the same
    code and of the code around it: the authentication middleware and
    service, the error handler, the configuration entries, the gateway,
    and the notification state and the route guard of the web client.

    Conventions of the embedding:
    - a JavaScript string is carried by its UTF-8 encoding: a [string] is
      the sequence of its bytes, so a character outside ASCII takes two to
      four of them, and a byte outside a well-formed sequence stands for
      the character of its own code (a string with a lone surrogate has
      no encoding and is left out). White space is that of ECMAScript,
      and the length of a string is counted in UTF-16 code units;
    - JavaScript numbers are IEEE-754 binary64 values: a finite one is
      carried by the rational it denotes, and conversions from text round
      to the nearest representable value, ties to even;
    - a MongoDB collection is the list of its documents in insertion
      order; [_id]s are natural numbers drawn from a counter of the store;
    - [Date.now()] is an argument [now] of every handler;
    - an HTTP response is reduced to its status code;
    - the fields of a request body have the types of the schema, and a
      field of an enumeration holds one of its values; the role of a user
      is any string. The setters and the validators of the schemas (trim,
      lowercase, required, length, match, enum) are embedded where a
      handler writes a string that a request or the store gives it:
      notifications, reports, configuration entries, users and the latest
      version of a component. The components that a scan detects are
      given as the schema takes them, as those of the list in the code
      are;
    - the handlers are embedded without the authentication middleware,
      which is embedded on its own and composed with the scan route in
      [Auth]. *)

From Stdlib Require Import ZArith QArith Qreduction List String Ascii Bool Lia Arith.
From Stdlib Require Import DecimalString.
From Stdlib Require DecimalPos DecimalN DecimalFacts.
Import ListNotations.
Close Scope Q_scope.
Open Scope string_scope.

(** ** JavaScript numbers *)

Module JsNum.

Inductive jsnum : Type :=
| NaN
| Inf (negative : bool)
| Fin (q : Q).

Definition zero : jsnum := Fin 0%Q.

(** [scale a b u] is the fraction [(a/b) / 2^u]. *)
Definition scale (a b u : Z) : Z * Z :=
  if (0 <=? u)%Z then (a, (b * 2 ^ u)%Z) else ((a * 2 ^ (- u))%Z, b).

(** [floor (log2 (a/b))] for positive [a] and [b]. *)
Definition floor_log2 (a b : Z) : Z :=
  let e := (Z.log2 a - Z.log2 b)%Z in
  let '(a', b') := scale a b e in
  if (b' <=? a')%Z then e else (e - 1)%Z.

(** The binary64 value nearest to the positive rational [a/b]: 53
    significant bits, least exponent [-1074], ties to even, overflow to
    [Infinity]. *)
Definition round_pos (a b : Z) : jsnum :=
  let e := floor_log2 a b in
  let u := Z.max (e - 52) (-1074) in
  let '(a', b') := scale a b u in
  let m := (a' / b')%Z in
  let r := (a' mod b')%Z in
  let m' := match (2 * r ?= b')%Z with
            | Lt => m
            | Gt => (m + 1)%Z
            | Eq => if Z.even m then m else (m + 1)%Z
            end in
  if (0 <=? u)%Z then
    if (2 ^ 1024 <=? m' * 2 ^ u)%Z then Inf false
    else Fin (inject_Z (m' * 2 ^ u))
  else Fin (Qred (m' # Z.to_pos (2 ^ (- u)))%Q).

Definition neg (x : jsnum) : jsnum :=
  match x with
  | NaN => NaN
  | Inf b => Inf (negb b)
  | Fin q => Fin (Qred (- q)%Q)
  end.

(** Rounding of an arbitrary rational. *)
Definition round (q : Q) : jsnum :=
  match Qnum q with
  | Z0 => zero
  | Zpos p => round_pos (Zpos p) (Zpos (Qden q))
  | Zneg p => neg (round_pos (Zpos p) (Zpos (Qden q)))
  end.

(** The number denoted by the decimal [m * 10^e]. *)
Definition of_decimal (m : N) (e : Z) : jsnum :=
  match m with
  | N0 => zero
  | Npos p =>
      if (0 <=? e)%Z then round_pos (Zpos p * 10 ^ e) 1
      else round_pos (Zpos p) (10 ^ (- e))
  end.

(** Truthiness of a number: [NaN], [0] and [-0] are falsy. *)
Definition truthy (x : jsnum) : bool :=
  match x with
  | NaN => false
  | Inf _ => true
  | Fin q => negb (Qeq_bool q 0%Q)
  end.

(** [a < b] on numbers ([false] as soon as one side is [NaN]). *)
Definition lt (a b : jsnum) : bool :=
  match a, b with
  | NaN, _ | _, NaN => false
  | Inf true, Inf true => false
  | Inf true, _ => true
  | _, Inf true => false
  | Inf false, _ => false
  | Fin _, Inf false => true
  | Fin p, Fin q => match Qcompare p q with Lt => true | _ => false end
  end.

Definition gt (a b : jsnum) : bool := lt b a.

(** [a + 1]. *)
Definition succ (a : jsnum) : jsnum :=
  match a with
  | NaN => NaN
  | Inf b => Inf b
  | Fin q => round (q + 1)%Q
  end.

(** *** Characters *)

Definition code (c : ascii) : N := N_of_ascii c.

Definition is_digit (c : ascii) : bool :=
  ((48 <=? code c) && (code c <=? 57))%N.

(** **** Decoding

    A string is held as the bytes of its UTF-8 encoding. [decode] reads
    them into characters, each with its code point and its bytes; a byte
    that is not part of a well-formed sequence stands for the character
    of its own code. *)

Definition character : Type := (N * list ascii)%type.

(** A continuation byte, and the six bits that it carries. *)
Definition continues (c : ascii) : bool :=
  ((128 <=? code c) && (code c <? 192))%N.

Definition low (c : ascii) : N := (code c - 128)%N.

(** The code point of a well-formed sequence of two, three and four
    bytes: the shortest encoding of a code point that is no surrogate. *)
Definition two (c d : ascii) : option N :=
  if ((194 <=? code c) && (code c <=? 223))%N && continues d
  then Some ((code c - 192) * 64 + low d)%N
  else None.

Definition three (c d e : ascii) : option N :=
  let cp := ((code c - 224) * 4096 + low d * 64 + low e)%N in
  if ((224 <=? code c) && (code c <=? 239))%N && continues d && continues e
     && (2048 <=? cp)%N && negb ((55296 <=? cp) && (cp <=? 57343))%N
  then Some cp
  else None.

Definition four (c d e f : ascii) : option N :=
  let cp :=
    ((code c - 240) * 262144 + low d * 4096 + low e * 64 + low f)%N in
  if ((240 <=? code c) && (code c <=? 244))%N
     && continues d && continues e && continues f
     && (65536 <=? cp)%N && (cp <=? 1114111)%N
  then Some cp
  else None.

Fixpoint decode (l : list ascii) : list character :=
  match l with
  | [] => []
  | c :: l1 =>
      let one := (code c, [c]) :: decode l1 in
      match l1 with
      | [] => one
      | d :: l2 =>
          match two c d with
          | Some cp => (cp, [c; d]) :: decode l2
          | None =>
              match l2 with
              | [] => one
              | e :: l3 =>
                  match three c d e with
                  | Some cp => (cp, [c; d; e]) :: decode l3
                  | None =>
                      match l3 with
                      | [] => one
                      | f :: l4 =>
                          match four c d e f with
                          | Some cp => (cp, [c; d; e; f]) :: decode l4
                          | None => one
                          end
                      end
                  end
              end
          end
      end
  end.

Definition encode (l : list character) : list ascii := flat_map snd l.

(** White space and line terminators, which [Number], [parseInt] and
    [trim] strip: TAB, LF, VT, FF, CR, SP, U+00A0, U+1680, U+2000 to
    U+200A, U+2028, U+2029, U+202F, U+205F, U+3000 and U+FEFF. *)
Definition is_ws (cp : N) : bool :=
  ((9 <=? cp) && (cp <=? 13) || (cp =? 32) || (cp =? 160) || (cp =? 5760)
   || (8192 <=? cp) && (cp <=? 8202) || (cp =? 8232) || (cp =? 8233)
   || (cp =? 8239) || (cp =? 8287) || (cp =? 12288) || (cp =? 65279))%N.

(** Value of a character as a digit of the radix, if it is one. *)
Definition digit_of (radix : N) (c : ascii) : option N :=
  let n := code c in
  let v := if ((48 <=? n) && (n <=? 57))%N then Some (n - 48)%N
           else if ((97 <=? n) && (n <=? 122))%N then Some (n - 87)%N
           else if ((65 <=? n) && (n <=? 90))%N then Some (n - 55)%N
           else None in
  match v with
  | Some d => if (d <? radix)%N then Some d else None
  | None => None
  end.

Definition is_radix_digit (radix : N) (c : ascii) : bool :=
  match digit_of radix c with Some _ => true | None => false end.

Definition digits_value (radix : N) (l : list ascii) : N :=
  fold_left
    (fun acc c => (acc * radix + match digit_of radix c with
                                  | Some d => d
                                  | None => 0
                                  end)%N)
    l 0%N.

Fixpoint span (p : ascii -> bool) (l : list ascii) : list ascii * list ascii :=
  match l with
  | [] => ([], [])
  | c :: l' =>
      if p c then let '(a, b) := span p l' in (c :: a, b) else ([], l)
  end.

(** The characters without the white space at their head. *)
Fixpoint drop (l : list character) : list character :=
  match l with
  | [] => []
  | x :: l' => if is_ws (fst x) then drop l' else l
  end.

Definition drop_ws (l : list ascii) : list ascii := encode (drop (decode l)).

Definition trim (l : list ascii) : list ascii :=
  encode (rev (drop (rev (drop (decode l))))).

Definition nonempty_all (p : ascii -> bool) (l : list ascii) : bool :=
  match l with
  | [] => false
  | _ => forallb p l
  end.

Definition chars (s : string) : list ascii := list_ascii_of_string s.

Definition chars_eqb (l : list ascii) (s : string) : bool :=
  String.eqb (string_of_list_ascii l) s.

(** *** [Number(string)] *)

Definition is_char (c : ascii) (s : string) : bool :=
  match s with
  | String d EmptyString => Ascii.eqb c d
  | _ => false
  end.

Definition one_of (c : ascii) (a b : string) : bool := is_char c a || is_char c b.

(** An optional sign: whether it is a minus, and the rest. *)
Definition signed (l : list ascii) : bool * list ascii :=
  match l with
  | [] => (false, [])
  | c :: r =>
      if is_char c "-" then (true, r)
      else if is_char c "+" then (false, r)
      else (false, l)
  end.

(** The optional exponent part that ends a decimal literal. *)
Definition exponent_part (l : list ascii) : option Z :=
  match l with
  | [] => Some 0%Z
  | c :: r =>
      if one_of c "e" "E" then
        let '(negative, ds) := signed r in
        if nonempty_all is_digit ds then
          let v := Z.of_N (digits_value 10 ds) in
          Some (if negative then (- v)%Z else v)
        else None
      else None
  end.

(** An unsigned decimal literal: [Infinity], or digits with an optional
    fraction and an optional exponent, at least one digit before the
    exponent. *)
Definition unsigned_decimal (l : list ascii) : option jsnum :=
  if chars_eqb l "Infinity" then Some (Inf false)
  else
    let '(ip, r1) := span is_digit l in
    let '(fp, r2) :=
      match r1 with
      | [] => ([], [])
      | c :: r => if is_char c "." then span is_digit r else ([], r1)
      end in
    match (ip ++ fp)%list with
    | [] => None
    | ds =>
        match exponent_part r2 with
        | Some e =>
            Some (of_decimal (digits_value 10 ds)
                             (e - Z.of_nat (List.length fp)))
        | None => None
        end
    end.

(** A hexadecimal, octal or binary integer literal. *)
Definition non_decimal (l : list ascii) : option jsnum :=
  match l with
  | c :: x :: ds =>
      let radix :=
        if negb (is_char c "0") then None
        else if one_of x "x" "X" then Some 16%N
        else if one_of x "o" "O" then Some 8%N
        else if one_of x "b" "B" then Some 2%N
        else None in
      match radix with
      | Some r =>
          if nonempty_all (is_radix_digit r) ds
          then Some (of_decimal (digits_value r ds) 0)
          else None
      | None => None
      end
  | _ => None
  end.

Definition or_NaN (x : option jsnum) : jsnum :=
  match x with Some v => v | None => NaN end.

Definition Number (s : string) : jsnum :=
  match trim (chars s) with
  | [] => zero
  | c :: r =>
      match non_decimal (c :: r) with
      | Some v => v
      | None =>
          if is_char c "+" then or_NaN (unsigned_decimal r)
          else if is_char c "-" then neg (or_NaN (unsigned_decimal r))
          else or_NaN (unsigned_decimal (c :: r))
      end
  end.

(** *** [parseInt(string)] *)

Definition parseInt (s : string) : jsnum :=
  let '(negative, t1) := signed (drop_ws (chars s)) in
  let '(radix, t2) :=
    match t1 with
    | c :: x :: r =>
        if is_char c "0" && one_of x "x" "X" then (16%N, r) else (10%N, t1)
    | _ => (10%N, t1)
    end in
  match fst (span (is_radix_digit radix) t2) with
  | [] => NaN
  | ds =>
      let v := of_decimal (digits_value radix ds) 0 in
      if negative then neg v else v
  end.

End JsNum.

(** ** Strings *)

Module JsString.

Import JsNum.

(** [s.split('.')] *)
Fixpoint split (s : string) : list string :=
  match s with
  | EmptyString => [EmptyString]
  | String c s' =>
      if is_char c "." then EmptyString :: split s'
      else match split s' with
           | hd :: tl => String c hd :: tl
           | [] => [String c EmptyString]
           end
  end.

(** [parts.join('.')] *)
Fixpoint join (parts : list string) : string :=
  match parts with
  | [] => EmptyString
  | [p] => p
  | p :: rest => p ++ "." ++ join rest
  end.

(** [s.trim()] *)
Definition trim (s : string) : string :=
  string_of_list_ascii (JsNum.trim (chars s)).

(** The UTF-16 code units of a character: two from U+10000 on. *)
Definition units (x : character) : nat :=
  if (65536 <=? fst x)%N then 2 else 1.

(** [s.length] *)
Definition utf16_length (s : string) : nat :=
  list_sum (map units (decode (chars s))).

(** Decimal digits of a natural number. *)
Definition decimal (n : N) : string := NilZero.string_of_uint (N.to_uint n).

Definition of_nat (n : nat) : string := decimal (N.of_nat n).

Definition same (a b : jsnum) : bool :=
  match a, b with
  | NaN, NaN => true
  | Inf x, Inf y => Bool.eqb x y
  | Fin p, Fin q => Qeq_bool p q
  | _, _ => false
  end.

(** The integer with the fewest significant digits that still denotes the
    binary64 value [x] (a positive integer of [d] digits); of two
    candidates the nearer one, and on a tie the one whose significand is
    even. [k] is the number of significant digits tried. *)
Fixpoint shortest (fuel k d : nat) (x : Z) : Z :=
  match fuel with
  | O => x
  | S fuel' =>
      if (d <=? k)%nat then x
      else
        let p := (10 ^ Z.of_nat (d - k))%Z in
        let lo := (x / p * p)%Z in
        let hi := (lo + p)%Z in
        let ok v := same (round_pos v 1) (Fin (inject_Z x)) in
        match ok lo, ok hi with
        | true, true =>
            match (x - lo ?= hi - x)%Z with
            | Lt => lo
            | Gt => hi
            | Eq => if Z.even (x / p) then lo else hi
            end
        | true, false => lo
        | false, true => hi
        | false, false => shortest fuel' (S k) d x
        end
  end.

Fixpoint strip_zeros (l : list ascii) : list ascii :=
  match l with
  | c :: l' => if is_char c "0" then strip_zeros l' else l
  | [] => []
  end.

(** [x.toString()] for a positive integer value [x]. *)
Definition positive_to_string (x : Z) : string :=
  let d := String.length (decimal (Z.to_N x)) in
  let v := shortest 17 1 d x in
  let digits := decimal (Z.to_N v) in
  let n := String.length digits in
  if (n <=? 21)%nat then digits
  else
    let s := rev (strip_zeros (rev (list_ascii_of_string digits))) in
    let e := "e+" ++ of_nat (n - 1) in
    match s with
    | [] => digits
    | [c] => String c e
    | c :: rest => String c ("." ++ string_of_list_ascii rest ++ e)
    end.

(** [x.toString()] for [NaN], the infinities and the integer values, which
    are the values that [parseInt(..) + 1] takes. *)
Definition to_string (x : jsnum) : string :=
  match x with
  | NaN => "NaN"
  | Inf false => "Infinity"
  | Inf true => "-Infinity"
  | Fin q =>
      match Qnum q with
      | Z0 => "0"
      | Zpos p => positive_to_string (Zpos p)
      | Zneg p => "-" ++ positive_to_string (Zpos p)
      end
  end.

End JsString.

(** ** Regular expressions

    The expressions of the schemas have no look-around and no reference
    to a group, so [re.test(s)] is membership of [s] in the language of
    the expression; it is decided with derivatives. The expressions are
    anchored at both ends, and their classes hold ASCII characters
    only, so a byte of a character outside ASCII is in no class. *)

Module JsRegExp.

Import JsNum.

(** A class is a list of ranges of character codes. *)
Inductive regex : Type :=
| Never
| Empty
| Class (ranges : list (N * N))
| Seq (r s : regex)
| Alt (r s : regex)
| Star (r : regex).

Definition in_class (c : ascii) (ranges : list (N * N)) : bool :=
  existsb (fun range => (fst range <=? code c) && (code c <=? snd range))%N
          ranges.

(** The language of an expression. *)
Inductive matches : regex -> list ascii -> Prop :=
| matches_empty : matches Empty []
| matches_class (c : ascii) (ranges : list (N * N)) :
    in_class c ranges = true -> matches (Class ranges) [c]
| matches_seq (r s : regex) (u v : list ascii) :
    matches r u -> matches s v -> matches (Seq r s) (u ++ v)
| matches_left (r s : regex) (u : list ascii) :
    matches r u -> matches (Alt r s) u
| matches_right (r s : regex) (u : list ascii) :
    matches s u -> matches (Alt r s) u
| matches_none (r : regex) : matches (Star r) []
| matches_more (r : regex) (u v : list ascii) :
    matches r u -> matches (Star r) v -> matches (Star r) (u ++ v).

Fixpoint ranges_eqb (a b : list (N * N)) : bool :=
  match a, b with
  | [], [] => true
  | x :: a', y :: b' =>
      (fst x =? fst y)%N && (snd x =? snd y)%N && ranges_eqb a' b'
  | _, _ => false
  end.

Fixpoint regex_eqb (r s : regex) : bool :=
  match r, s with
  | Never, Never | Empty, Empty => true
  | Class a, Class b => ranges_eqb a b
  | Seq r1 r2, Seq s1 s2 | Alt r1 r2, Alt s1 s2 =>
      regex_eqb r1 s1 && regex_eqb r2 s2
  | Star r1, Star s1 => regex_eqb r1 s1
  | _, _ => false
  end.

Fixpoint nullable (r : regex) : bool :=
  match r with
  | Never | Class _ => false
  | Empty | Star _ => true
  | Seq r s => nullable r && nullable s
  | Alt r s => nullable r || nullable s
  end.

(** [Seq] without an operand that matches nothing. *)
Definition seq (r s : regex) : regex :=
  match r, s with
  | Never, _ | _, Never => Never
  | Empty, _ => s
  | _, _ => Seq r s
  end.

(** Whether [r] is one of the alternatives of [s]. *)
Fixpoint among (r s : regex) : bool :=
  regex_eqb r s
  || match s with
     | Alt a b => among r a || among r b
     | _ => false
     end.

(** [Alt] without an operand that matches nothing, and without an
    alternative that is there already. *)
Fixpoint alt (r s : regex) : regex :=
  match r with
  | Never => s
  | Alt a b => alt a (alt b s)
  | _ =>
      match s with
      | Never => r
      | _ => if among r s then s else Alt r s
      end
  end.

(** What is left to match once the character is read. *)
Fixpoint derive (c : ascii) (r : regex) : regex :=
  match r with
  | Never | Empty => Never
  | Class ranges => if in_class c ranges then Empty else Never
  | Seq r s =>
      alt (seq (derive c r) s) (if nullable r then derive c s else Never)
  | Alt r s => alt (derive c r) (derive c s)
  | Star r => seq (derive c r) (Star r)
  end.

(** [re.test(s)] for the expression [r] between [^] and [$]. *)
Definition test (r : regex) (s : string) : bool :=
  nullable (fold_left (fun r c => derive c r) (chars s) r).

(** [r+] and [r?] *)
Definition plus (r : regex) : regex := Seq r (Star r).

Definition opt (r : regex) : regex := Alt Empty r.

(** The class of the word characters: digits, letters and the
    underscore. *)
Definition word : regex := Class [(48, 57); (65, 90); (95, 95); (97, 122)]%N.

(** The class of one character. *)
Definition char (c : ascii) : regex := Class [(code c, code c)].

End JsRegExp.

(** ** Documents (common/models/index.js) *)

Module Model.

(** Object identifiers and times are natural numbers. *)
Abbreviation ObjectId := nat (only parsing).
Abbreviation Time := nat (only parsing).

Inductive Status : Type := secure | vulnerable | outdated | unknown.

Inductive Severity : Type := critical | high | medium | low | info.

Inductive VulnerabilityStatus : Type :=
| vs_open | vs_fixed | vs_mitigated | vs_false_positive | vs_wont_fix.

Inductive NotificationType : Type :=
| nt_vulnerability | nt_update | nt_report | nt_system | nt_user.

Inductive Format : Type := pdf | html | json | csv.

Record Component : Type := mkComponent {
  c_id : ObjectId;
  c_name : string;
  c_version : string;
  c_type : string;
  c_latestVersion : option string;
  c_updateAvailable : bool;
  c_lastChecked : Time
}.

Record Vulnerability : Type := mkVulnerability {
  v_id : ObjectId;
  v_title : string;
  v_severity : Severity;
  v_status : VulnerabilityStatus
}.

(** An entry of [Service.vulnerabilities]: two references. *)
Record VulnerabilityRef : Type := mkVulnerabilityRef {
  vr_component : option ObjectId;
  vr_details : option ObjectId
}.

Record Service : Type := mkService {
  s_id : ObjectId;
  s_name : string;
  s_components : list ObjectId;
  s_vulnerabilities : list VulnerabilityRef;
  s_lastScan : option Time;
  s_status : Status
}.

Record Notification : Type := mkNotification {
  n_id : ObjectId;
  n_createdAt : Time;
  n_updatedAt : Time;
  n_title : string;
  n_message : string;
  n_type : NotificationType;
  n_severity : Severity;
  n_service : option ObjectId;
  n_read : bool;
  n_recipients : list ObjectId
}.

Record Summary : Type := mkSummary {
  totalServices : nat;
  secureServices : nat;
  vulnerableServices : nat;
  outdatedServices : nat;
  criticalVulnerabilities : nat;
  highVulnerabilities : nat;
  mediumVulnerabilities : nat;
  lowVulnerabilities : nat
}.

Record Report : Type := mkReport {
  r_id : ObjectId;
  r_title : string;
  r_services : list ObjectId;
  r_summary : Summary;
  r_format : Format;
  r_filePath : string;
  r_recommendations : list string;
  r_generatedBy : ObjectId
}.

(** The database: one list of documents per collection, and the source of
    fresh [_id]s. *)
Record Store : Type := mkStore {
  components : list Component;
  services : list Service;
  vulnerabilities : list Vulnerability;
  notifications : list Notification;
  reports : list Report;
  next_id : ObjectId
}.

Definition Status_eqb (a b : Status) : bool :=
  match a, b with
  | secure, secure | vulnerable, vulnerable
  | outdated, outdated | unknown, unknown => true
  | _, _ => false
  end.

Definition Severity_eqb (a b : Severity) : bool :=
  match a, b with
  | critical, critical | high, high | medium, medium
  | low, low | info, info => true
  | _, _ => false
  end.

Definition with_components (l : list Component) (st : Store) : Store :=
  mkStore l (services st) (vulnerabilities st) (notifications st)
          (reports st) (next_id st).

Definition with_services (l : list Service) (st : Store) : Store :=
  mkStore (components st) l (vulnerabilities st) (notifications st)
          (reports st) (next_id st).

Definition with_notifications (l : list Notification) (st : Store) : Store :=
  mkStore (components st) (services st) (vulnerabilities st) l
          (reports st) (next_id st).

End Model.

(** ** Data access objects (common/utils/dataAccessObjects.js) *)

Module DAO.

Import JsString Model.

(** The [required] validator of a string path: the value, once the
    setters of the path are applied, is not empty. *)
Definition required (s : string) : bool := negb (String.eqb s "").

Section Collection.
Context {A : Type} (id_of : A -> ObjectId).

(** [Model.findById(id)] *)
Definition findById (id : ObjectId) (docs : list A) : option A :=
  find (fun d => Nat.eqb (id_of d) id) docs.

(** [Model.findByIdAndUpdate(id, change)]: the document that carries the
    [_id] is rewritten; nothing happens when there is none. *)
Fixpoint findByIdAndUpdate (id : ObjectId) (change : A -> A) (docs : list A)
  : list A :=
  match docs with
  | [] => []
  | d :: rest =>
      if Nat.eqb (id_of d) id then change d :: rest
      else d :: findByIdAndUpdate id change rest
  end.
End Collection.

Module ComponentDAO.

(** [create({name, version, type})]: the schema defaults fill the rest. *)
Definition create (name version type : string) (now : Time) (st : Store)
  : Store * Component :=
  let c := mkComponent (next_id st) name version type None false now in
  (mkStore (components st ++ [c]) (services st) (vulnerabilities st)
           (notifications st) (reports st) (S (next_id st)),
   c).

(** [findOne({name, version})] *)
Definition findOne (name version : string) (st : Store) : option Component :=
  find (fun c => String.eqb (c_name c) name && String.eqb (c_version c) version)
       (components st).

Definition findById (id : ObjectId) (st : Store) : option Component :=
  DAO.findById c_id id (components st).

(** [update(id, {latestVersion, updateAvailable, lastChecked})]; the
    schema trims the latest version. *)
Definition update (id : ObjectId) (latestVersion : string)
           (updateAvailable : bool) (lastChecked : Time) (st : Store) : Store :=
  with_components
    (findByIdAndUpdate c_id id
       (fun c => mkComponent (c_id c) (c_name c) (c_version c) (c_type c)
                             (Some (trim latestVersion)) updateAvailable
                             lastChecked)
       (components st))
    st.

End ComponentDAO.

Module ServiceDAO.

Definition findById (id : ObjectId) (st : Store) : option Service :=
  DAO.findById s_id id (services st).

(** [$addToSet]: appended unless already present. *)
Definition addToSet (x : ObjectId) (l : list ObjectId) : list ObjectId :=
  if existsb (Nat.eqb x) l then l else (l ++ [x])%list.

Definition addComponent (serviceId componentId : ObjectId) (st : Store) : Store :=
  with_services
    (findByIdAndUpdate s_id serviceId
       (fun s => mkService (s_id s) (s_name s)
                           (addToSet componentId (s_components s))
                           (s_vulnerabilities s) (s_lastScan s) (s_status s))
       (services st))
    st.

(** [$push] *)
Definition addVulnerability (serviceId : ObjectId) (v : VulnerabilityRef)
           (st : Store) : Store :=
  with_services
    (findByIdAndUpdate s_id serviceId
       (fun s => mkService (s_id s) (s_name s) (s_components s)
                           (s_vulnerabilities s ++ [v])
                           (s_lastScan s) (s_status s))
       (services st))
    st.

(** [update(id, {status})] *)
Definition updateStatus (id : ObjectId) (status : Status) (st : Store) : Store :=
  with_services
    (findByIdAndUpdate s_id id
       (fun s => mkService (s_id s) (s_name s) (s_components s)
                           (s_vulnerabilities s) (s_lastScan s) status)
       (services st))
    st.

(** [update(id, {lastScan, status})] *)
Definition updateScan (id : ObjectId) (lastScan : Time) (status : Status)
           (st : Store) : Store :=
  with_services
    (findByIdAndUpdate s_id id
       (fun s => mkService (s_id s) (s_name s) (s_components s)
                           (s_vulnerabilities s) (Some lastScan) status)
       (services st))
    st.

(** [findAll({components: componentId})]: the services whose component
    list holds the reference. *)
Definition findAllByComponent (componentId : ObjectId) (st : Store)
  : list Service :=
  filter (fun s => existsb (Nat.eqb componentId) (s_components s))
         (services st).

End ServiceDAO.

Module NotificationDAO.

(** The document that [save] stores once it is validated: [read] defaults
    to [false], both timestamps to the current time. *)
Definition insert (title message : string) (type : NotificationType)
           (severity : Severity) (service : option ObjectId)
           (recipients : list ObjectId) (now : Time) (st : Store)
  : Store * Notification :=
  let n := mkNotification (next_id st) now now title message type severity
                          service false recipients in
  (mkStore (components st) (services st) (vulnerabilities st)
           (notifications st ++ [n]) (reports st) (S (next_id st)),
   n).

(** [create({title, message, type, severity, service, recipients})]: the
    schema trims the title and the message and requires both. [None] when
    the validation fails: [create] throws, and nothing is stored. *)
Definition create (title message : string) (type : NotificationType)
           (severity : Severity) (service : option ObjectId)
           (recipients : list ObjectId) (now : Time) (st : Store)
  : option (Store * Notification) :=
  let title := trim title in
  let message := trim message in
  if required title && required message
  then Some (insert title message type severity service recipients now st)
  else None.

(** The filter [{ recipients: userId, read: false }]. *)
Definition unread_for (userId : ObjectId) (n : Notification) : bool :=
  existsb (Nat.eqb userId) (n_recipients n) && negb (n_read n).

Definition mark_read (n : Notification) : Notification :=
  mkNotification (n_id n) (n_createdAt n) (n_updatedAt n) (n_title n)
                 (n_message n) (n_type n) (n_severity n) (n_service n)
                 true (n_recipients n).

(** [updateMany({ recipients: userId, read: false }, { read: true })]; the
    result carries [modifiedCount]. *)
Definition markAllAsRead (userId : ObjectId) (st : Store) : Store * nat :=
  (with_notifications
     (map (fun n => if unread_for userId n then mark_read n else n)
          (notifications st))
     st,
   List.length (filter (unread_for userId) (notifications st))).

(** [findUnreadByUser(userId)] *)
Definition findUnreadByUser (userId : ObjectId) (st : Store)
  : list Notification :=
  filter (unread_for userId) (notifications st).

End NotificationDAO.

Module ReportDAO.

(** The document that [save] stores once it is validated. *)
Definition insert (title : string) (services : list ObjectId)
           (summary : Summary) (format : Format) (recommendations : list string)
           (generatedBy : ObjectId) (filePath : string) (st : Store)
  : Store * Report :=
  let r := mkReport (next_id st) title services summary format filePath
                    recommendations generatedBy in
  (mkStore (components st) (Model.services st) (vulnerabilities st)
           (notifications st) (reports st ++ [r]) (S (next_id st)),
   r).

(** [create({title, services, summary, format, recommendations,
    generatedBy, filePath})]: the schema trims the title and the file path
    and requires the title. [None] when the validation fails: [create]
    throws, and nothing is stored. *)
Definition create (title : string) (services : list ObjectId)
           (summary : Summary) (format : Format) (recommendations : list string)
           (generatedBy : ObjectId) (filePath : string) (st : Store)
  : option (Store * Report) :=
  let title := trim title in
  let filePath := trim filePath in
  if required title
  then Some (insert title services summary format recommendations
                    generatedBy filePath st)
  else None.

End ReportDAO.

End DAO.

(** ** The version checker
    (services/notifier/notificationService.js, second module) *)

Module VersionChecker.

Import JsNum JsString Model DAO.

(** [a[i] || 0]: an index out of range yields [undefined], which like
    [NaN] and [0] is replaced by [0]. *)
Definition part (a : list jsnum) (i : nat) : jsnum :=
  match nth_error a i with
  | Some x => if truthy x then x else zero
  | None => zero
  end.

(** The loop of [isNewerVersion], from index [i], with [n] iterations
    left. *)
Fixpoint compare_from (n i : nat) (current latest : list jsnum) : bool :=
  match n with
  | O => false
  | S n' =>
      let currentPart := part current i in
      let latestPart := part latest i in
      if gt latestPart currentPart then true
      else if lt latestPart currentPart then false
      else compare_from n' (S i) current latest
  end.

Definition isNewerVersion (currentVersion latestVersion : string) : bool :=
  let current := map Number (split currentVersion) in
  let latest := map Number (split latestVersion) in
  compare_from (Nat.max (List.length current) (List.length latest)) 0
               current latest.

Definition incrementVersion (version : string) : string :=
  match split version with
  | major :: minor :: patch :: rest =>
      join (major :: minor :: to_string (succ (parseInt patch)) :: rest)
  | _ => version
  end.

(** The table of [simulateVersionCheck]. *)
Definition versions : list (string * string) :=
  [ ("Node.js", "18.15.0"); ("Express", "4.18.2"); ("MongoDB", "6.0.5");
    ("React", "18.2.0"); ("Angular", "15.2.0"); ("Vue.js", "3.2.47");
    ("PostgreSQL", "15.2"); ("MySQL", "8.0.32"); ("Redis", "7.0.10");
    ("Docker", "23.0.1"); ("Kubernetes", "1.26.3") ].

(** Property names that every object literal inherits from
    [Object.prototype]; looking one up yields a function or an object. *)
Definition inherited : list string :=
  [ "constructor"; "hasOwnProperty"; "isPrototypeOf"; "propertyIsEnumerable";
    "toLocaleString"; "toString"; "valueOf"; "__proto__";
    "__defineGetter__"; "__defineSetter__"; "__lookupGetter__";
    "__lookupSetter__" ].

Fixpoint lookup (name : string) (table : list (string * string)) : option string :=
  match table with
  | [] => None
  | (k, v) :: rest => if String.eqb k name then Some v else lookup name rest
  end.

(** What [simulateVersionCheck] returns: a version string, or an inherited
    property that is not a string. *)
Inductive looked_up : Type :=
| Str (s : string)
| NotAString.

Definition simulateVersionCheck (name : string) (type : string) : looked_up :=
  match lookup name versions with
  | Some v => Str v
  | None =>
      if existsb (String.eqb name) inherited then NotAString
      else Str (incrementVersion name)
  end.

(** *** POST /api/check-updates *)

Definition update_message (latestVersion name version : string) : string :=
  "Une nouvelle version (" ++ latestVersion ++ ") est disponible pour "
    ++ name ++ ". Version actuelle: " ++ version.

(** The body of the loop over the services that use the component;
    [service] is the document as [findAll] returned it. [None] when
    [create] throws. *)
Definition notify_service (component : Component) (latestVersion : string)
           (now : Time) (st : Store) (service : Service) : option Store :=
  match NotificationDAO.create
          "Mise à jour disponible"
          (update_message latestVersion (c_name component) (c_version component))
          nt_update info (Some (s_id service)) [] now st with
  | None => None
  | Some (st1, _) =>
      Some (if Status_eqb (s_status service) secure
            then ServiceDAO.updateStatus (s_id service) outdated st1
            else st1)
  end.

(** The loop: the store that it leaves, and whether it came to its end;
    an iteration that throws leaves the earlier ones in place. *)
Fixpoint notify_services (component : Component) (latestVersion : string)
         (now : Time) (services : list Service) (st : Store) : Store * bool :=
  match services with
  | [] => (st, true)
  | service :: rest =>
      match notify_service component latestVersion now st service with
      | None => (st, false)
      | Some st1 => notify_services component latestVersion now rest st1
      end
  end.

Definition check_updates (componentId : option ObjectId) (now : Time)
           (st : Store) : Store * nat :=
  match componentId with
  | None => (st, 400)
  | Some id =>
      match ComponentDAO.findById id st with
      | None => (st, 404)
      | Some component =>
          match simulateVersionCheck (c_name component) (c_type component) with
          | NotAString => (st, 500)
          | Str latestVersion =>
              let updateAvailable :=
                isNewerVersion (c_version component) latestVersion in
              let st1 :=
                ComponentDAO.update id latestVersion updateAvailable now st in
              let '(st2, done) :=
                if updateAvailable then
                  notify_services component latestVersion now
                                  (ServiceDAO.findAllByComponent id st1) st1
                else (st1, true) in
              (st2, if done then 200 else 500)
          end
      end
  end.

(** *** POST /api/check-all-updates *)

Record Results : Type := mkResults {
  total : nat;
  updated : nat;
  withUpdates : nat
}.

(** The loop over the components read at the start; [None] when an
    iteration throws, which leaves the earlier updates in place. *)
Fixpoint check_each (cs : list Component) (now : Time) (st : Store)
         (results : Results) : Store * option Results :=
  match cs with
  | [] => (st, Some results)
  | component :: rest =>
      match simulateVersionCheck (c_name component) (c_type component) with
      | NotAString => (st, None)
      | Str latestVersion =>
          let updateAvailable :=
            isNewerVersion (c_version component) latestVersion in
          let st1 :=
            ComponentDAO.update (c_id component) latestVersion
                                updateAvailable now st in
          check_each rest now st1
            (mkResults (total results) (S (updated results))
                       (if updateAvailable then S (withUpdates results)
                        else withUpdates results))
      end
  end.

Definition check_all_updates (now : Time) (st : Store)
  : Store * nat * option Results :=
  let cs := components st in
  match check_each cs now st (mkResults (List.length cs) 0 0) with
  | (st', Some results) => (st', 200, Some results)
  | (st', None) => (st', 500, None)
  end.

End VersionChecker.

(** ** The stack scanner (services/stack-scanner/stackScannerService.js) *)

Module StackScanner.

Import Model DAO.

(** A detected component: name, version, type. *)
Definition Detected : Type := (string * string * string)%type.

Definition detectedComponents : list Detected :=
  [ ("Node.js", "16.14.0", "language");
    ("Express", "4.17.3", "framework");
    ("MongoDB", "5.0.6", "database") ].

(** The body of the loop over the detected components. *)
Definition save_component (serviceId : ObjectId) (now : Time) (st : Store)
           (comp : Detected) : Store :=
  let '(name, version, type) := comp in
  let '(st1, component) :=
    match ComponentDAO.findOne name version st with
    | Some c => (st, c)
    | None => ComponentDAO.create name version type now st
    end in
  ServiceDAO.addComponent serviceId (c_id component) st1.

(** POST /api/scan, for a given result of the detection. *)
Definition scan_with (detected : list Detected) (serviceId : option ObjectId)
           (now : Time) (st : Store) : Store * nat :=
  match serviceId with
  | None => (st, 400)
  | Some id =>
      match ServiceDAO.findById id st with
      | None => (st, 404)
      | Some _ =>
          let st1 := fold_left (save_component id now) detected st in
          (ServiceDAO.updateScan id now secure st1, 200)
      end
  end.

(** POST /api/scan: the detection is simulated by a fixed list. *)
Definition scan : option ObjectId -> Time -> Store -> Store * nat :=
  scan_with detectedComponents.

End StackScanner.

(** ** The report generator
    (services/report-generator/reportGeneratorService.js) *)

Module ReportGenerator.

Import JsString Model DAO.

(** A populated entry of [service.vulnerabilities]: a reference that does
    not resolve is populated with [null]. *)
Record PopulatedRef : Type := mkPopulatedRef {
  component : option Component;
  details : option Vulnerability
}.

(** A service as [findById(id, ['components', 'vulnerabilities.component',
    'vulnerabilities.details'])] returns it. *)
Record PopulatedService : Type := mkPopulatedService {
  _id : ObjectId;
  status : Status;
  vulnerabilities : list PopulatedRef
}.

Definition populate_ref (st : Store) (r : VulnerabilityRef) : PopulatedRef :=
  mkPopulatedRef
    (match vr_component r with
     | Some id => findById c_id id (Model.components st)
     | None => None
     end)
    (match vr_details r with
     | Some id => findById v_id id (Model.vulnerabilities st)
     | None => None
     end).

Definition populate (st : Store) (s : Service) : PopulatedService :=
  mkPopulatedService (s_id s) (s_status s)
                     (map (populate_ref st) (s_vulnerabilities s)).

Definition findPopulated (st : Store) (id : ObjectId) : option PopulatedService :=
  option_map (populate st) (ServiceDAO.findById id st).

(** One severity test of the inner loop. *)
Definition bump (test : bool) (field : Summary -> nat)
           (set : nat -> Summary -> Summary) (summary : Summary) : Summary :=
  if test then set (S (field summary)) summary else summary.

Definition set_secure (n : nat) (s : Summary) : Summary :=
  mkSummary (totalServices s) n (vulnerableServices s) (outdatedServices s)
            (criticalVulnerabilities s) (highVulnerabilities s)
            (mediumVulnerabilities s) (lowVulnerabilities s).
Definition set_vulnerable (n : nat) (s : Summary) : Summary :=
  mkSummary (totalServices s) (secureServices s) n (outdatedServices s)
            (criticalVulnerabilities s) (highVulnerabilities s)
            (mediumVulnerabilities s) (lowVulnerabilities s).
Definition set_outdated (n : nat) (s : Summary) : Summary :=
  mkSummary (totalServices s) (secureServices s) (vulnerableServices s) n
            (criticalVulnerabilities s) (highVulnerabilities s)
            (mediumVulnerabilities s) (lowVulnerabilities s).
Definition set_critical (n : nat) (s : Summary) : Summary :=
  mkSummary (totalServices s) (secureServices s) (vulnerableServices s)
            (outdatedServices s) n (highVulnerabilities s)
            (mediumVulnerabilities s) (lowVulnerabilities s).
Definition set_high (n : nat) (s : Summary) : Summary :=
  mkSummary (totalServices s) (secureServices s) (vulnerableServices s)
            (outdatedServices s) (criticalVulnerabilities s) n
            (mediumVulnerabilities s) (lowVulnerabilities s).
Definition set_medium (n : nat) (s : Summary) : Summary :=
  mkSummary (totalServices s) (secureServices s) (vulnerableServices s)
            (outdatedServices s) (criticalVulnerabilities s)
            (highVulnerabilities s) n (lowVulnerabilities s).
Definition set_low (n : nat) (s : Summary) : Summary :=
  mkSummary (totalServices s) (secureServices s) (vulnerableServices s)
            (outdatedServices s) (criticalVulnerabilities s)
            (highVulnerabilities s) (mediumVulnerabilities s) n.

(** The body of [service.vulnerabilities.forEach]. *)
Definition count_vulnerability (summary : Summary) (vuln : PopulatedRef)
  : Summary :=
  match details vuln with
  | None => summary
  | Some d =>
      let severity := v_severity d in
      let s1 := bump (Severity_eqb severity critical)
                     criticalVulnerabilities set_critical summary in
      let s2 := bump (Severity_eqb severity high)
                     highVulnerabilities set_high s1 in
      let s3 := bump (Severity_eqb severity medium)
                     mediumVulnerabilities set_medium s2 in
      bump (Severity_eqb severity low) lowVulnerabilities set_low s3
  end.

(** The body of [validServices.forEach]. *)
Definition count_service (summary : Summary) (service : PopulatedService)
  : Summary :=
  let s1 := bump (Status_eqb (status service) secure)
                 secureServices set_secure summary in
  let s2 := bump (Status_eqb (status service) vulnerable)
                 vulnerableServices set_vulnerable s1 in
  let s3 := bump (Status_eqb (status service) outdated)
                 outdatedServices set_outdated s2 in
  match vulnerabilities service with
  | [] => s3
  | vulns => fold_left count_vulnerability vulns s3
  end.

Definition summarize (validServices : list PopulatedService) : Summary :=
  fold_left count_service validServices
            (mkSummary (List.length validServices) 0 0 0 0 0 0 0).

Definition fix_immediately : string :=
  "Corriger immédiatement les vulnérabilités critiques en mettant à jour les composants concernés.".
Definition plan_high : string :=
  "Planifier la correction des vulnérabilités à risque élevé dans les plus brefs délais.".
Definition prioritize (n : nat) : string :=
  "Prioriser la mise à jour des " ++ of_nat n ++ " services vulnérables identifiés.".
Definition update_outdated (n : nat) : string :=
  "Mettre à jour les " ++ of_nat n
    ++ " services obsolètes pour bénéficier des dernières fonctionnalités et corrections de sécurité.".
Definition monitor : string :=
  "Mettre en place une surveillance continue des vulnérabilités et des mises à jour disponibles.".
Definition security_tests : string :=
  "Effectuer des tests de sécurité approfondis après la correction des vulnérabilités.".

Definition push_if (test : bool) (text : string) (l : list string) : list string :=
  if test then (l ++ [text])%list else l.

Definition generateRecommendations (summary : Summary)
           (services : list PopulatedService) : list string :=
  let r1 := push_if (0 <? criticalVulnerabilities summary)%nat fix_immediately [] in
  let r2 := push_if (0 <? highVulnerabilities summary)%nat plan_high r1 in
  let r3 := push_if (0 <? vulnerableServices summary)%nat
                    (prioritize (vulnerableServices summary)) r2 in
  let r4 := push_if (0 <? outdatedServices summary)%nat
                    (update_outdated (outdatedServices summary)) r3 in
  let r5 := (r4 ++ [monitor])%list in
  push_if ((0 <? vulnerableServices summary)%nat
           || (0 <? criticalVulnerabilities summary)%nat
           || (0 <? highVulnerabilities summary)%nat)
          security_tests r5.

(** The [serviceIds] field of the request body. *)
Inductive ServiceIds : Type :=
| Missing
| NotAnArray
| Ids (ids : list ObjectId).

Definition format_name (f : Format) : string :=
  match f with pdf => "pdf" | html => "html" | json => "json" | csv => "csv" end.

Definition falsy (s : option string) : bool :=
  match s with
  | None | Some EmptyString => true
  | Some _ => false
  end.

Fixpoint non_null {A : Type} (l : list (option A)) : list A :=
  match l with
  | [] => []
  | Some x :: rest => x :: non_null rest
  | None :: rest => non_null rest
  end.

(** POST /api/generate; a [create] that throws is answered by the error
    handler, with status 500. *)
Definition generate (title : option string) (serviceIds : ServiceIds)
           (format : option Format) (user : ObjectId) (now : Time)
           (st : Store) : Store * nat :=
  match title with
  | None | Some EmptyString => (st, 400)
  | Some title =>
      match serviceIds with
      | Missing | NotAnArray | Ids [] => (st, 400)
      | Ids ids =>
          let services := map (findPopulated st) ids in
          match non_null services with
          | [] => (st, 404)
          | validServices =>
              let summary := summarize validServices in
              let recommendations :=
                generateRecommendations summary validServices in
              let format := match format with Some f => f | None => html end in
              let filePath :=
                "/reports/" ++ of_nat now ++ "_report." ++ format_name format in
              match ReportDAO.create title ids summary format recommendations
                                     user filePath st with
              | Some (st1, _) => (st1, 201)
              | None => (st, 500)
              end
          end
      end
  end.

End ReportGenerator.

(** ** The notifier (services/notifier/notificationService.js, first module) *)

Module Notifier.

Import Model DAO.

(** POST /api/notifications; a [create] that throws is answered by the
    error handler, with status 500. *)
Definition post_notification (title message : option string)
           (type : option NotificationType) (severity : option Severity)
           (service : option ObjectId) (recipients : option (list ObjectId))
           (now : Time) (st : Store) : Store * nat :=
  match title, message, type with
  | Some (String a t), Some (String b m), Some type =>
      match NotificationDAO.create
              (String a t) (String b m) type
              (match severity with Some s => s | None => info end)
              service
              (match recipients with Some r => r | None => [] end)
              now st with
      | Some (st1, _) => (st1, 201)
      | None => (st, 500)
      end
  | _, _, _ => (st, 400)
  end.

(** PUT /api/notifications/read-all *)
Definition read_all (userId : ObjectId) (st : Store) : Store * nat :=
  (fst (NotificationDAO.markAllAsRead userId st), 200).

End Notifier.

(** ** Sequences of scan and version-check requests *)

Module Events.

Import Model VersionChecker StackScanner.

Inductive Event : Type :=
| Scan (serviceId : option ObjectId) (now : Time)
| CheckUpdates (componentId : option ObjectId) (now : Time)
| CheckAllUpdates (now : Time).

Definition step (st : Store) (e : Event) : Store :=
  match e with
  | Scan serviceId now => fst (scan serviceId now st)
  | CheckUpdates componentId now => fst (check_updates componentId now st)
  | CheckAllUpdates now => fst (fst (check_all_updates now st))
  end.

Definition run (events : list Event) (st : Store) : Store :=
  fold_left step events st.

(** A database that holds the single service "orders-api", never scanned. *)
Definition orders_api : Store :=
  mkStore [] [mkService 1 "orders-api" [] [] None unknown] [] [] [] 2.

End Events.

(** ** Reference definitions: what the specification prescribes, and the
    predicates in which the properties are stated *)

Module Spec.

Import JsNum JsString Model DAO ReportGenerator VersionChecker StackScanner.

(** *** Report summary: counting *)

Definition count_status (st : Status) (l : list PopulatedService) : nat :=
  List.length (filter (fun s => Status_eqb (status s) st) l).

(** An association whose vulnerability resolves and has the severity. *)
Definition has_severity (sev : Severity) (r : PopulatedRef) : bool :=
  match details r with
  | Some d => Severity_eqb (v_severity d) sev
  | None => false
  end.

(** Associations of that severity, summed service by service. *)
Definition count_severity (sev : Severity) (l : list PopulatedService) : nat :=
  list_sum
    (map (fun s => List.length (filter (has_severity sev) (vulnerabilities s))) l).

Definition flag (b : bool) : nat := if b then 1 else 0.

(** The eight counters of a summary after adding [d1 .. d7] to the seven
    tallies. *)
Definition shifted (s s' : Summary) (d1 d2 d3 d4 d5 d6 d7 : nat) : Prop :=
  totalServices s' = totalServices s
  /\ secureServices s' = secureServices s + d1
  /\ vulnerableServices s' = vulnerableServices s + d2
  /\ outdatedServices s' = outdatedServices s + d3
  /\ criticalVulnerabilities s' = criticalVulnerabilities s + d4
  /\ highVulnerabilities s' = highVulnerabilities s + d5
  /\ mediumVulnerabilities s' = mediumVulnerabilities s + d6
  /\ lowVulnerabilities s' = lowVulnerabilities s + d7.

(** *** Recommendations: the rule table, in priority order *)

Definition rule_table (s : Summary) : list (bool * string) :=
  [ ((0 <? criticalVulnerabilities s)%nat, fix_immediately);
    ((0 <? highVulnerabilities s)%nat, plan_high);
    ((0 <? vulnerableServices s)%nat, prioritize (vulnerableServices s));
    ((0 <? outdatedServices s)%nat, update_outdated (outdatedServices s));
    (true, monitor);
    (((0 <? vulnerableServices s) || (0 <? criticalVulnerabilities s)
      || (0 <? highVulnerabilities s))%nat, security_tests) ].

Definition fire (table : list (bool * string)) : list string :=
  map snd (filter fst table).

(** *** Characters *)

(** A character of one byte that is not white space. *)
Definition plain (c : ascii) : bool :=
  (code c <? 128)%N && negb (is_ws (code c)).

(** *** Versions *)

(** A segment that is a non-negative integer: decimal digits, at least
    one. *)
Definition is_decimal (s : string) : bool := nonempty_all is_digit (chars s).

(** A version string made of dot-separated non-negative integers. *)
Definition well_formed (v : string) : bool := forallb is_decimal (split v).

Definition segment_value (s : string) : N := digits_value 10 (chars s).

(** The integer tuple of a version. *)
Definition tuple (v : string) : list N := map segment_value (split v).

(** Padding of a tuple with trailing zeros up to [n] entries. *)
Definition pad (n : nat) (t : list N) : list N :=
  (t ++ repeat 0%N (n - List.length t))%list.

(** Strict lexicographic order on tuples of the same length. *)
Fixpoint lex_lt (a b : list N) : bool :=
  match a, b with
  | x :: a', y :: b' =>
      if (x <? y)%N then true
      else if (y <? x)%N then false
      else lex_lt a' b'
  | _, _ => false
  end.

(** [latest > current], missing trailing segments counting as zero. *)
Definition newer (current latest : list N) : bool :=
  let n := Nat.max (List.length current) (List.length latest) in
  lex_lt (pad n current) (pad n latest).

(** The integers up to [2^53] are binary64 values. *)
Definition max_exact : N := (2 ^ 53)%N.

(** A version whose segments are all at most [2^53]. *)
Definition exact (v : string) : bool :=
  forallb (fun s => (segment_value s <=? max_exact)%N) (split v).

(** A segment that [Number] does not read as a number. *)
Definition non_numeric (s : string) : bool :=
  match Number s with NaN => true | _ => false end.

Definition has_non_numeric_segment (v : string) : bool :=
  existsb non_numeric (split v).

(** The value of a segment, a segment that is not a number counting as
    zero. *)
Definition numeric_or_zero (s : string) : jsnum :=
  match Number s with NaN => zero | x => x end.

(** A segment that is either not a number or an integer that is
    represented exactly. *)
Definition readable (s : string) : bool :=
  non_numeric s || (is_decimal s && (segment_value s <=? max_exact)%N).

(** The integer of a segment, zero for a segment that is not a number. *)
Definition value_or_zero (s : string) : N :=
  if non_numeric s then 0%N else segment_value s.

Definition tuple_or_zero (v : string) : list N := map value_or_zero (split v).

(** The binary64 value of an integer that is represented exactly. *)
Definition embed (v : N) : jsnum := Fin (inject_Z (Z.of_N v)).

(** *** Service status: invariants I1 to I3 *)

Definition at_least_medium (sev : Severity) : bool :=
  match sev with
  | critical | high | medium => true
  | low | info => false
  end.

Definition is_open (vs : VulnerabilityStatus) : bool :=
  match vs with vs_open => true | _ => false end.

(** An association to an open vulnerability of severity medium or more. *)
Definition blocking (st : Store) (r : VulnerabilityRef) : bool :=
  match vr_details r with
  | Some id =>
      match findById v_id id (Model.vulnerabilities st) with
      | Some v => is_open (v_status v) && at_least_medium (v_severity v)
      | None => false
      end
  | None => false
  end.

(** A reference to a component for which an update is available. *)
Definition update_pending (st : Store) (id : ObjectId) : bool :=
  match findById c_id id (components st) with
  | Some c => c_updateAvailable c
  | None => false
  end.

(** The status that I1 to I3 prescribe for the stored associations of a
    service: vulnerable first, then outdated, then secure, and unknown
    only for a service that was never scanned. *)
Definition prescribed_status (st : Store) (s : Service) : Status :=
  if existsb (blocking st) (s_vulnerabilities s) then vulnerable
  else if existsb (update_pending st) (s_components s) then outdated
  else match s_lastScan s with
       | Some _ => secure
       | None => unknown
       end.

(** Some stored component of the service has an update available. *)
Definition has_update (st : Store) (s : Service) : Prop :=
  exists c, In c (components st)
            /\ In (c_id c) (s_components s)
            /\ c_updateAvailable c = true.

(** Documents have distinct [_id]s, all below the next fresh one. *)
Definition distinct_ids (st : Store) : Prop :=
  NoDup (map s_id (services st))
  /\ NoDup (map c_id (components st))
  /\ (forall c, In c (components st) -> c_id c < next_id st).

(** No service was scanned yet. *)
Definition unscanned (st : Store) : Prop :=
  forall s, In s (services st) -> s_status s = unknown /\ s_lastScan s = None.

(** What a version check computes for a component: it depends on its
    name, type and version only. *)
Definition newer_available (c : Component) : bool :=
  match simulateVersionCheck (c_name c) (c_type c) with
  | Str latestVersion => isNewerVersion (c_version c) latestVersion
  | NotAString => false
  end.

(** What the scan and version-check requests maintain for a service: it is
    unknown exactly as long as it was not scanned, it is never made
    vulnerable, and when it is outdated one of its components has an
    update available, which a new check would find again. *)
Definition status_justified (st : Store) (s : Service) : Prop :=
  (s_status s = unknown <-> s_lastScan s = None)
  /\ s_status s <> vulnerable
  /\ (s_status s = outdated ->
      exists c, In c (components st)
                /\ In (c_id c) (s_components s)
                /\ c_updateAvailable c = true
                /\ newer_available c = true).

Definition consistent (st : Store) : Prop :=
  distinct_ids st /\ forall s, In s (services st) -> status_justified st s.

(** The fields of a service that a version check leaves alone. *)
Definition scanned_state (s : Service)
  : ObjectId * list ObjectId * option Time :=
  (s_id s, s_components s, s_lastScan s).

(** *** Notifications: the deduplication key

    A notification records its service and its type; the fact it reports
    (the component and the versions) is carried by its message. *)
Definition dedup_key (n : Notification)
  : option ObjectId * NotificationType * string :=
  (n_service n, n_type n, n_message n).

Definition dedup_key_eqb (k k' : option ObjectId * NotificationType * string)
  : bool :=
  let '(s, t, m) := k in
  let '(s', t', m') := k' in
  match s, s' with
  | Some a, Some b => Nat.eqb a b
  | None, None => true
  | _, _ => false
  end
  && match t, t' with
     | nt_vulnerability, nt_vulnerability | nt_update, nt_update
     | nt_report, nt_report | nt_system, nt_system | nt_user, nt_user => true
     | _, _ => false
     end
  && String.eqb m m'.

(** The key of the notification that the version check creates for a
    service; the message is stored trimmed. *)
Definition update_key (component : Component) (latestVersion : string)
           (s : Service) : option ObjectId * NotificationType * string :=
  (Some (s_id s), nt_update,
   trim (update_message latestVersion (c_name component)
                        (c_version component))).

(** The store after one iteration of the loop of the version check, for
    a notification that passes the validation. *)
Definition notified (component : Component) (latestVersion : string)
           (now : Time) (st : Store) (service : Service) : Store :=
  let st1 :=
    fst (NotificationDAO.insert
           "Mise à jour disponible"
           (trim (update_message latestVersion (c_name component)
                                 (c_version component)))
           nt_update info (Some (s_id service)) [] now st) in
  if Status_eqb (s_status service) secure
  then ServiceDAO.updateStatus (s_id service) outdated st1
  else st1.

(** A detected component is recorded: a component of its name and version
    is stored, and the one that [findOne] returns is referenced by the
    service, if the service exists. *)
Definition recorded (serviceId : ObjectId) (st : Store) (comp : Detected)
  : Prop :=
  exists c,
    ComponentDAO.findOne (fst (fst comp)) (snd (fst comp)) st = Some c
    /\ forall s, ServiceDAO.findById serviceId st = Some s ->
                 existsb (Nat.eqb (c_id c)) (s_components s) = true.

(** The service of that [_id] is stored and outdated. *)
Definition outdated_in (st : Store) (id : ObjectId) : Prop :=
  exists d, ServiceDAO.findById id st = Some d /\ s_status d = outdated.

(** What identifies a service and what it references. *)
Definition references (s : Service) : ObjectId * list ObjectId :=
  (s_id s, s_components s).

(** The fields of a component that no request changes. *)
Definition identity (c : Component) : ObjectId * string * string * string :=
  (c_id c, c_name c, c_version c, c_type c).

(** *** Stack scan: counting records *)

Definition key_eqb (name version : string) (c : Component) : bool :=
  String.eqb (c_name c) name && String.eqb (c_version c) version.

(** Number of component records of a (name, version) identity. *)
Definition count_key (name version : string) (l : list Component) : nat :=
  List.length (filter (key_eqb name version) l).

(** [n] is [m], or one when [m] is zero: what "created only if absent"
    allows. *)
Definition at_most_one_more (n m : nat) : Prop := n = m \/ (m = 0 /\ n = 1).

(** The second service holds every reference as often as the first,
    or once when the first did not hold it. *)
Definition no_new_duplicate (s s1 : Service) : Prop :=
  forall id,
    at_most_one_more (count_occ Nat.eq_dec (s_components s1) id)
                     (count_occ Nat.eq_dec (s_components s) id).

(** *** Request failures

    The error middleware answers a [ValidationError] with status 400; a
    missing entity is answered with 404. *)

Definition is_validation_failure (status : nat) : bool := Nat.eqb status 400.

(** *** Notifications *)

(** Whether a notification is addressed to the user. *)
Definition addressed_to (userId : ObjectId) (n : Notification) : bool :=
  existsb (Nat.eqb userId) (n_recipients n).

(** Agreement of two notifications on every field but [read]. *)
Definition same_but_read (n n' : Notification) : Prop :=
  n_id n' = n_id n
  /\ n_createdAt n' = n_createdAt n
  /\ n_updatedAt n' = n_updatedAt n
  /\ n_title n' = n_title n
  /\ n_message n' = n_message n
  /\ n_type n' = n_type n
  /\ n_severity n' = n_severity n
  /\ n_service n' = n_service n
  /\ n_recipients n' = n_recipients n.

End Spec.

(** ** Further data access (common/utils/dataAccessObjects.js) *)

Module Queries.

Import Model DAO.

Section Deleting.
Context {A : Type} (id_of : A -> ObjectId).

(** [Model.findByIdAndDelete(id)]: the document that carries the [_id] is
    removed; nothing happens when there is none. *)
Fixpoint findByIdAndDelete (id : ObjectId) (docs : list A) : list A :=
  match docs with
  | [] => []
  | d :: rest =>
      if Nat.eqb (id_of d) id then rest
      else d :: findByIdAndDelete id rest
  end.
End Deleting.

(** [ComponentDAO.findWithUpdates()] *)
Definition findWithUpdates (st : Store) : list Component :=
  filter c_updateAvailable (components st).

(** [ServiceDAO.findByStatus(status)] *)
Definition findByStatus (status : Status) (st : Store) : list Service :=
  filter (fun s => Status_eqb (s_status s) status) (services st).

(** [ServiceDAO.findVulnerable()] *)
Definition findVulnerable (st : Store) : list Service :=
  findByStatus vulnerable st.

(** [NotificationDAO.findByUser(userId)]: the filter
    [{ recipients: userId }]; the documents are given as they are stored,
    with the reference to the service in place of the populated
    service. *)
Definition findByUser (userId : ObjectId) (st : Store) : list Notification :=
  filter (fun n => existsb (Nat.eqb userId) (n_recipients n))
         (notifications st).

(** [NotificationDAO.markAsRead(id)], that is [update(id, { read: true })]:
    the updated document, or [null]. *)
Definition markAsRead (id : ObjectId) (st : Store)
  : Store * option Notification :=
  (with_notifications
     (findByIdAndUpdate n_id id NotificationDAO.mark_read (notifications st))
     st,
   option_map NotificationDAO.mark_read (findById n_id id (notifications st))).

(** [NotificationDAO.delete(id)]: the deleted document, or [null]. *)
Definition deleteNotification (id : ObjectId) (st : Store)
  : Store * option Notification :=
  (with_notifications (findByIdAndDelete n_id id (notifications st)) st,
   findById n_id id (notifications st)).

(** [ReportDAO.delete(id)] *)
Definition deleteReport (id : ObjectId) (st : Store) : Store * option Report :=
  (mkStore (components st) (services st) (vulnerabilities st)
           (notifications st) (findByIdAndDelete r_id id (reports st))
           (next_id st),
   findById r_id id (reports st)).

End Queries.

(** ** Further routes of the notifier, the report generator and the
    version checker *)

Module Routes.

Import Model DAO Queries.

(** PUT /api/notifications/:notificationId/read *)
Definition put_read (notificationId : ObjectId) (st : Store) : Store * nat :=
  match markAsRead notificationId st with
  | (st', Some _) => (st', 200)
  | (st', None) => (st', 404)
  end.

(** DELETE /api/notifications/:notificationId *)
Definition delete_notification (notificationId : ObjectId) (st : Store)
  : Store * nat :=
  match deleteNotification notificationId st with
  | (st', Some _) => (st', 200)
  | (st', None) => (st', 404)
  end.

(** DELETE /api/reports/:reportId *)
Definition delete_report (reportId : ObjectId) (st : Store) : Store * nat :=
  match deleteReport reportId st with
  | (st', Some _) => (st', 200)
  | (st', None) => (st', 404)
  end.

(** GET /api/notifications: the notifications and their count. *)
Definition get_notifications (userId : ObjectId) (st : Store)
  : nat * list Notification :=
  let notifications := findByUser userId st in
  (List.length notifications, notifications).

(** GET /api/notifications/unread *)
Definition get_unread (userId : ObjectId) (st : Store)
  : nat * list Notification :=
  let notifications := NotificationDAO.findUnreadByUser userId st in
  (List.length notifications, notifications).

(** GET /api/updates-available *)
Definition get_updates_available (st : Store) : nat * list Component :=
  let components := findWithUpdates st in
  (List.length components, components).

End Routes.

(** ** Closed forms in which the further properties are stated *)

Module Predicates.

Import JsNum JsString Model DAO VersionChecker Spec.

(** The service with status outdated. *)
Definition outdate (s : Service) : Service :=
  mkService (s_id s) (s_name s) (s_components s) (s_vulnerabilities s)
            (s_lastScan s) outdated.

(** A secure service that references the component. *)
Definition affected (componentId : ObjectId) (s : Service) : bool :=
  existsb (Nat.eqb componentId) (s_components s)
  && Status_eqb (s_status s) secure.

(** Whether the version source yields a string for the component. *)
Definition checkable (c : Component) : bool :=
  match simulateVersionCheck (c_name c) (c_type c) with
  | Str _ => true
  | NotAString => false
  end.

(** The component after a check at time [now]. *)
Definition checked (now : Time) (c : Component) : Component :=
  match simulateVersionCheck (c_name c) (c_type c) with
  | Str latestVersion =>
      mkComponent (c_id c) (c_name c) (c_version c) (c_type c)
                  (Some (trim latestVersion))
                  (isNewerVersion (c_version c) latestVersion) now
  | NotAString => c
  end.

(** The components checked one after the other up to the first one that
    cannot be. *)
Fixpoint checked_prefix (now : Time) (cs : list Component) : list Component :=
  match cs with
  | [] => []
  | c :: rest =>
      if checkable c then checked now c :: checked_prefix now rest
      else c :: rest
  end.


(** A component as the scan creates it for one of the detected ones. *)
Definition created_by (detected : list StackScanner.Detected) (now : Time)
           (c : Component) : Prop :=
  In (c_name c, c_version c, c_type c) detected
  /\ c_latestVersion c = None
  /\ c_updateAvailable c = false
  /\ c_lastChecked c = now.

(** What a scan request may do to a service: nothing at all unless it is
    the service of the request, whose name and vulnerability associations
    stay and whose component references are only added to. *)
Definition grown (serviceId : option ObjectId) (s s' : Service) : Prop :=
  (Some (s_id s) <> serviceId -> s' = s)
  /\ s_id s' = s_id s
  /\ s_name s' = s_name s
  /\ s_vulnerabilities s' = s_vulnerabilities s
  /\ exists more, s_components s' = app (s_components s) more.

(** What one iteration of the loop over the detected components leaves
    alone. *)
Definition scan_framed (detected : list StackScanner.Detected) (sid : ObjectId)
           (now : Time) (st st' : Store) : Prop :=
  (exists new, components st' = app (components st) new
               /\ Forall (created_by detected now) new)
  /\ Forall2 (grown (Some sid)) (services st) (services st')
  /\ Model.vulnerabilities st' = Model.vulnerabilities st
  /\ notifications st' = notifications st
  /\ reports st' = reports st.

(** Whether a service of that [_id] is stored. *)
Definition resolves (st : Store) (id : ObjectId) : bool :=
  match ServiceDAO.findById id st with
  | Some _ => true
  | None => false
  end.

(** Every stored report has an [_id] that was drawn from the counter. *)
Definition reports_drawn (st : Store) : Prop :=
  Forall (fun r => r_id r < next_id st) (reports st).

(** A segment: a string without a dot. *)
Definition no_dot (s : string) : bool :=
  forallb (fun c => negb (is_char c ".")) (chars s).

(** [b] has the greater part at the first index where the parts of [a]
    and [b] differ. *)
Definition first_greater (a b : list jsnum) : Prop :=
  exists k, lt (part a k) (part b k) = true
            /\ forall j, j < k -> lt (part a j) (part b j) = false
                                  /\ lt (part b j) (part a j) = false.

End Predicates.

(** ** Authentication middleware
    (common/middleware/authenticationMiddleware.js)

    [jwt.verify(token, JWT_SECRET)] is a parameter: it yields the payload
    [{ id, role }] that the authentication service signs, or throws. *)

Module Auth.

Import JsNum JsString Model DAO.

(** The fields of a user document that the middleware and the
    authentication service read. *)
Record User : Type := mkUser {
  u_id : ObjectId;
  u_username : string;
  u_email : string;
  u_password : string;
  u_role : string;
  u_isActive : bool;
  u_lastLogin : option Time
}.

(** [req.user] *)
Record ReqUser : Type := mkReqUser {
  ru_id : ObjectId;
  ru_role : string;
  ru_email : option string
}.

Inductive Verified : Type :=
| Decoded (id : ObjectId) (role : string)
| Throws (name : string).

(** What a middleware does: it calls [next()], or it answers. *)
Inductive Outcome (A : Type) : Type :=
| Next (a : A)
| Reply (status : nat).

Arguments Next {A} a.
Arguments Reply {A} status.

(** [s.split(' ')] *)
Fixpoint split_spaces (s : string) : list string :=
  match s with
  | EmptyString => [EmptyString]
  | String c s' =>
      if is_char c " " then EmptyString :: split_spaces s'
      else match split_spaces s' with
           | hd :: tl => String c hd :: tl
           | [] => [String c EmptyString]
           end
  end.

(** The token of the [Authorization] header: the second of its
    space-separated pieces, for a header that starts with [Bearer]. *)
Definition bearer (authorization : option string) : option string :=
  match authorization with
  | Some header =>
      if String.prefix "Bearer" header then nth_error (split_spaces header) 1
      else None
  | None => None
  end.

Section Middleware.
Variable verify : string -> Verified.

(** [verifyToken]; [models] is [req.app.locals.models.User] when it is
    available. *)
Definition verifyToken (models : option (list User))
           (authorization : option string) : Outcome ReqUser :=
  match bearer authorization with
  | None | Some EmptyString => Reply 401
  | Some token =>
      match verify token with
      | Throws _ => Reply 401
      | Decoded id role =>
          match models with
          | None => Next (mkReqUser id role None)
          | Some users =>
              match findById u_id id users with
              | None => Reply 401
              | Some user =>
                  if u_isActive user
                  then Next (mkReqUser (u_id user) (u_role user)
                                       (Some (u_email user)))
                  else Reply 401
              end
          end
      end
  end.

(** [checkRole(...roles)] *)
Definition checkRole (roles : list string) (user : option ReqUser)
  : Outcome unit :=
  match user with
  | None => Reply 401
  | Some u =>
      if existsb (String.eqb (ru_role u)) roles then Next tt else Reply 403
  end.

(** POST /api/scan of the stack scanner behind its middleware:
    [app.use('/api', verifyToken)], then
    [checkRole('admin', 'developer')], then the handler. *)
Definition post_scan (models : option (list User))
           (authorization : option string) (serviceId : option ObjectId)
           (now : Time) (st : Store) : Store * nat :=
  match verifyToken models authorization with
  | Reply status => (st, status)
  | Next user =>
      match checkRole ["admin"; "developer"] (Some user) with
      | Reply status => (st, status)
      | Next _ => StackScanner.scan serviceId now st
      end
  end.

End Middleware.

End Auth.

(** ** Error handling (common/middleware/errorHandlingMiddleware.js) *)

Module Errors.

Import JsString.

(** [err.code]: a number (MongoDB) or a string (custom). *)
Inductive Code : Type :=
| Num (n : N)
| Text (s : string).

(** The properties of a thrown error that the handler reads; [e_errors]
    holds the messages of the values of [err.errors]. *)
Record Err : Type := mkErr {
  e_name : string;
  e_message : string;
  e_code : option Code;
  e_statusCode : option nat;
  e_errors : option (list string);
  e_keyValue : option (list (string * string));
  e_value : option string;
  e_path : option string
}.

(** The answer: the status that [res.status] is given and the body that
    [res.json] is given. *)
Record Response : Type := mkResponse {
  status : nat;
  message : string;
  code : Code;
  errors : list string;
  field : option string;
  value : option string
}.

(** [new Error(message)] *)
Definition Error (message : string) : Err :=
  mkErr "Error" message None None None None None None.

(** A value inside a template literal. *)
Definition interpolate (s : option string) : string :=
  match s with
  | Some s => s
  | None => "undefined"
  end.

Definition truthy_code (c : option Code) : bool :=
  match c with
  | None | Some (Num N0) | Some (Text EmptyString) => false
  | Some _ => true
  end.

Definition is_duplicate_key (c : option Code) : bool :=
  match c with
  | Some (Num n) => N.eqb n 11000
  | _ => false
  end.

(** [errorHandler]; [None] when the handler itself throws: on
    [Object.values] or [Object.keys] of [undefined], and on a status code
    of the error that is not from 100 to 999, which the response refuses
    with a [RangeError]. *)
Definition errorHandler (err : Err) : option Response :=
  let message :=
    match e_message err with
    | EmptyString => "Erreur serveur"
    | m => m
    end in
  if String.eqb (e_name err) "ValidationError" then
    match e_errors err with
    | Some errors =>
        Some (mkResponse 400 "Erreur de validation" (Text "VALIDATION_ERROR")
                         errors None None)
    | None => None
    end
  else if is_duplicate_key (e_code err) then
    match e_keyValue err with
    | Some keyValue =>
        let field := option_map fst (hd_error keyValue) in
        let value := option_map snd (hd_error keyValue) in
        Some (mkResponse 400
                ("La valeur '" ++ interpolate value ++ "' pour le champ '"
                   ++ interpolate field ++ "' est déjà utilisée")
                (Text "DUPLICATE_KEY") [] field value)
    | None => None
    end
  else if String.eqb (e_name err) "CastError" then
    Some (mkResponse 400 ("ID invalide: " ++ interpolate (e_value err))
                     (Text "INVALID_ID") [] (e_path err) (e_value err))
  else if String.eqb (e_name err) "JsonWebTokenError" then
    Some (mkResponse 401 "Token invalide" (Text "INVALID_TOKEN") [] None None)
  else if String.eqb (e_name err) "TokenExpiredError" then
    Some (mkResponse 401 "Token expiré" (Text "TOKEN_EXPIRED") [] None None)
  else
    match e_statusCode err with
    | Some (S n) =>
        if (100 <=? S n)%nat && (S n <=? 999)%nat then
          Some (mkResponse (S n) message
                  (match e_code err with
                   | Some c => if truthy_code (Some c) then c
                               else Text ("HTTP_" ++ of_nat (S n))
                   | None => Text ("HTTP_" ++ of_nat (S n))
                   end)
                  [] None None)
        else None
    | _ =>
        Some (mkResponse 500 message (Text "INTERNAL_SERVER_ERROR")
                         [] None None)
    end.

(** [createHttpError(message, statusCode = 500, code = null)] *)
Definition createHttpError (message : string) (statusCode : option nat)
           (code : option string) : Err :=
  mkErr "Error" message
        (match code with
         | None | Some EmptyString => None
         | Some c => Some (Text c)
         end)
        (Some (match statusCode with Some n => n | None => 500 end))
        None None None None.

(** [notFoundHandler]: the error that it passes on. *)
Definition notFoundHandler (originalUrl : string) : Err :=
  createHttpError ("Route non trouvée: " ++ originalUrl) (Some 404)
                  (Some "NOT_FOUND").

(** The [catch] of every method of [BaseDAO] and of the other DAOs:
    [throw new Error(`<context>: ${error.message}`)]. *)
Definition rethrow (context : string) (error : Err) : Err :=
  Error (context ++ ": " ++ e_message error).

End Errors.

(** ** Configuration entries (common/utils/dataAccessObjects.js, ConfigDAO)

    A configuration document is carried by the fields that the DAO
    writes. The schema trims the key and the description, also in the
    filter and in the update of a query; no validator runs on
    [findOneAndUpdate]. *)

Module ConfigDAO.

Import JsString Model.

Record Config : Type := mkConfig {
  cfg_id : ObjectId;
  cfg_key : string;
  cfg_value : string;
  cfg_description : string;
  cfg_updatedAt : Time
}.

(** The collection and its source of fresh [_id]s. *)
Record Configs : Type := mkConfigs {
  configs : list Config;
  next_config_id : ObjectId
}.

(** The first document whose stored key is the string. *)
Definition findOne (key : string) (cs : Configs) : option Config :=
  find (fun c => String.eqb (cfg_key c) key) (configs cs).

(** [findByKey(key)], that is [findOne({ key })] *)
Definition findByKey (key : string) (cs : Configs) : option Config :=
  findOne (trim key) cs.

(** [findOneAndUpdate({ key }, change)] on the documents: the first one
    of that key is rewritten. *)
Fixpoint findOneAndUpdate (key : string) (change : Config -> Config)
         (docs : list Config) : list Config :=
  match docs with
  | [] => []
  | d :: rest =>
      if String.eqb (cfg_key d) key then change d :: rest
      else d :: findOneAndUpdate key change rest
  end.

(** [upsert(key, value, description = '')]: with [{ upsert: true,
    new: true }] the document is created when no document has the key, and
    the document as written is returned. *)
Definition upsert (key value : string) (description : option string)
           (now : Time) (cs : Configs) : Configs * Config :=
  let key := trim key in
  let description :=
    trim (match description with Some d => d | None => "" end) in
  match findOne key cs with
  | Some c =>
      let c' := mkConfig (cfg_id c) key value description now in
      (mkConfigs (findOneAndUpdate key
                    (fun d => mkConfig (cfg_id d) key value description now)
                    (configs cs))
                 (next_config_id cs),
       c')
  | None =>
      let c' := mkConfig (next_config_id cs) key value description now in
      (mkConfigs (configs cs ++ [c'])%list (S (next_config_id cs)), c')
  end.

End ConfigDAO.

(** ** The notifications of the web client
    (frontend/src/contexts/NotificationsContext.js)

    The state of the provider is the list of notifications and the
    counter of unread ones; each function below is the state update that
    a request makes once it is answered with success, on the state that
    the update before it left. *)

Module NotificationsContext.

Import Model DAO.

Record State : Type := mkState {
  notifications : list Notification;
  unreadCount : nat
}.

Definition unread (n : Notification) : bool := negb (n_read n).

(** [fetchNotifications], for the notifications of the answer. *)
Definition fetchNotifications (answer : list Notification) (s : State)
  : State :=
  mkState answer (List.length (filter unread answer)).

(** [markAsRead(notificationId)] *)
Definition markAsRead (notificationId : ObjectId) (s : State) : State :=
  mkState
    (map (fun n => if Nat.eqb (n_id n) notificationId
                   then NotificationDAO.mark_read n else n)
         (notifications s))
    (Nat.max 0 (unreadCount s - 1)).

(** [markAllAsRead()] *)
Definition markAllAsRead (s : State) : State :=
  mkState (map NotificationDAO.mark_read (notifications s)) 0.

(** [deleteNotification(notificationId)] *)
Definition deleteNotification (notificationId : ObjectId) (s : State)
  : State :=
  let notif :=
    find (fun n => Nat.eqb (n_id n) notificationId) (notifications s) in
  mkState
    (filter (fun n => negb (Nat.eqb (n_id n) notificationId))
            (notifications s))
    (match notif with
     | Some n =>
         if negb (n_read n) then Nat.max 0 (unreadCount s - 1)
         else unreadCount s
     | None => unreadCount s
     end).

(** The counter is the number of unread notifications of the list. *)
Definition counted (s : State) : Prop :=
  unreadCount s = List.length (filter unread (notifications s)).

End NotificationsContext.

(** ** The authentication service (auth-service)

    [bcrypt.hash] and [jwt.sign] are parameters; the salt that
    [bcrypt.genSalt] draws is an argument of the handler.
    [String.prototype.toLowerCase], the case mapping of Unicode, is a
    parameter as well. *)

Module AuthService.

Import JsNum JsString JsRegExp Model DAO Auth.

(** The [match] of [User.email]:
    [/^\w+([.-]?\w+)*@\w+([.-]?\w+)*(\.\w{2,3})+$/] *)
Definition email_pattern : regex :=
  let name :=
    Seq (plus word) (Star (Seq (opt (Class [(45, 46)]%N)) (plus word))) in
  Seq name
      (Seq (char "@")
           (Seq name
                (plus (Seq (char ".") (Seq word (Seq word (opt word))))))).

(** The [enum] of [User.role]. *)
Definition roles : list string := ["admin"; "developer"; "viewer"].

(** The validators of the user schema, on the values that the setters
    left: [username] is required and has from 3 to 50 code units, [email]
    is required and matches the pattern, [password] is required and has
    at least 8 code units, [role] is one of the three. *)
Definition valid (username email password role : string) : bool :=
  required username
  && (3 <=? utf16_length username)%nat
  && (utf16_length username <=? 50)%nat
  && required email
  && test email_pattern email
  && required password
  && (8 <=? utf16_length password)%nat
  && existsb (String.eqb role) roles.

(** The user collection and its source of fresh [_id]s. *)
Record Accounts : Type := mkAccounts {
  users : list User;
  next_user_id : ObjectId
}.

(** The token and the user of a successful answer. *)
Definition Session : Type := (string * User)%type.

Section Service.
Variable toLowerCase : string -> string.
Variable hash : string -> string -> string.
Variable sign : ObjectId -> string -> Time -> string.

(** The setters of [User.username] and of [User.email], which run on the
    values of a new document and on those of a query filter; of the
    setters of a path the last declared runs first. *)
Definition set_username (username : string) : string := trim username.

Definition set_email (email : string) : string := trim (toLowerCase email).

(** [userDAO.findOne({ $or: [{ username }, { email }] })] *)
Definition findOne (username email : string) (a : Accounts) : option User :=
  find (fun u => String.eqb (u_username u) (set_username username)
                 || String.eqb (u_email u) (set_email email))
       (users a).

(** [userDAO.create({ username, email, password, role })]: the user is
    active by default. [None] when the validation fails: [create] throws,
    and nothing is stored. *)
Definition create (username email password role : string) (a : Accounts)
  : option (Accounts * User) :=
  let username := set_username username in
  let email := set_email email in
  if valid username email password role then
    let user := mkUser (next_user_id a) username email password role true
                       None in
    Some (mkAccounts (users a ++ [user])%list (S (next_user_id a)), user)
  else None.

(** POST /api/auth/register; a [create] that throws is answered by the
    error handler, with status 500. *)
Definition register (username email password : string) (role : option string)
           (salt : string) (now : Time) (a : Accounts)
  : Accounts * nat * option Session :=
  let role := match role with Some r => r | None => "viewer" end in
  match findOne username email a with
  | Some _ => (a, 400, None)
  | None =>
      match create username email (hash password salt) role a with
      | Some (a1, user) =>
          (a1, 201, Some (sign (u_id user) (u_role user) now, user))
      | None => (a, 500, None)
      end
  end.

End Service.

(** Users have distinct [_id]s drawn from the counter, distinct names
    and distinct emails. *)
Definition well_kept (a : Accounts) : Prop :=
  NoDup (map u_id (users a))
  /\ NoDup (map u_username (users a))
  /\ NoDup (map u_email (users a))
  /\ Forall (fun u => u_id u < next_user_id a) (users a).

End AuthService.

(** ** The web client: protected routes
    (frontend ProtectedRoute, AuthenticationContext) *)

Module Client.

(** What [ProtectedRoute] renders. *)
Inductive View : Type :=
| Loading
| ToLogin
| ToDashboard
| Children.

(** [isAdmin: user?.role === 'admin']; the user is given by its role. *)
Definition isAdmin (user : option string) : bool :=
  match user with
  | Some role => String.eqb role "admin"
  | None => false
  end.

(** [isDeveloper] *)
Definition isDeveloper (user : option string) : bool :=
  match user with
  | Some role => String.eqb role "developer" || String.eqb role "admin"
  | None => false
  end.

Definition ProtectedRoute (requiredRole : option string) (loading : bool)
           (user : option string) : View :=
  if loading then Loading
  else
    match user with
    | None => ToLogin
    | Some role =>
        match requiredRole with
        | None | Some EmptyString => Children
        | Some required =>
            if String.eqb required "admin" && negb (isAdmin user)
            then ToDashboard
            else if String.eqb required "developer"
                    && negb (String.eqb role "developer")
                    && negb (isAdmin user)
                 then ToDashboard
                 else Children
        end
    end.

End Client.

(** ** The gateway (gateway-service)

    Express matches the path of [app.use(mount, ...)] without regard to
    case and up to a segment boundary, and a middleware that is mounted
    sees [req.path] without the mount path. *)

Module Gateway.

Import JsNum JsString Auth.

Definition lower (c : ascii) : ascii :=
  let n := code c in
  if ((65 <=? n) && (n <=? 90))%N then ascii_of_N (n + 32) else c.

(** What follows the prefix [p] in [s], letters compared without case. *)
Fixpoint after (p s : string) : option string :=
  match p, s with
  | EmptyString, _ => Some s
  | String a p', String c s' =>
      if Ascii.eqb (lower a) (lower c) then after p' s' else None
  | String _ _, EmptyString => None
  end.

(** [app.use(mount, ...)] for a mount path without trailing slash:
    whether the layer takes a request of that path, and the [req.path]
    that the middleware sees. The layer matches [mount], then a slash if
    a slash or the end follows it, and must stop in front of a slash or
    at the end; what is left is the path, with a leading slash. *)
Definition mounted (mount path : string) : option string :=
  match after mount path with
  | None => None
  | Some EmptyString => Some "/"
  | Some (String c rest) =>
      if is_char c "/" then
        match rest with
        | EmptyString => Some "/"
        | String d _ => if is_char d "/" then Some rest
                        else Some (String c rest)
        end
      else None
  end.

(** The mount paths of the proxies, in the order of their mounting. *)
Definition proxies : list string :=
  [ "/api/auth"; "/api/stack-scanner"; "/api/version-checker";
    "/api/vuln-scanner"; "/api/reports"; "/api/notifications" ].

(** The proxy that takes a request of that path, if any. *)
Definition proxy (originalPath : string) : option string :=
  find (fun mount => match mounted mount originalPath with
                     | Some _ => true
                     | None => false
                     end)
       proxies.

Section AuthMiddleware.
Variable verify : string -> Verified.

(** [authMiddleware]; the gateway has no user model. It passes on with
    the user that [verifyToken] sets, or with none. *)
Definition authMiddleware (path : string) (authorization : option string)
  : Outcome (option ReqUser) :=
  if String.prefix "/api/auth" path then Next None
  else match verifyToken verify None authorization with
       | Next user => Next (Some user)
       | Reply status => Reply status
       end.

(** [app.use('/api', authMiddleware)] on a request. *)
Definition guard (originalPath : string) (authorization : option string)
  : Outcome (option ReqUser) :=
  match mounted "/api" originalPath with
  | Some path => authMiddleware path authorization
  | None => Next None
  end.

End AuthMiddleware.

End Gateway.

(** * Properties *)

Local Open Scope list_scope.

(** ** Report generator *)

Section Recommendations.

Import Model ReportGenerator Spec.

(** C9: the recommendations are the rules of the table that fire, in the
    order of the table; they depend on the summary only, so two generations
    with the same summary give the same list; and when there is a critical
    vulnerability the list starts with the fix-immediately recommendation. *)
Theorem generateRecommendations_reproducible :
  forall (summary : Summary) (services services' : list PopulatedService),
    generateRecommendations summary services = fire (rule_table summary)
    /\ generateRecommendations summary services
       = generateRecommendations summary services'
    /\ (0 < criticalVulnerabilities summary ->
        hd_error (generateRecommendations summary services)
        = Some fix_immediately).
Proof.
  intros summary services services'.
  split; [| split].
  - unfold generateRecommendations, fire, rule_table, push_if.
    destruct (0 <? criticalVulnerabilities summary)%nat,
             (0 <? highVulnerabilities summary)%nat,
             (0 <? vulnerableServices summary)%nat,
             (0 <? outdatedServices summary)%nat; reflexivity.
  - reflexivity.
  - intros Hcrit.
    apply Nat.ltb_lt in Hcrit.
    unfold generateRecommendations, push_if.
    rewrite Hcrit.
    destruct (0 <? highVulnerabilities summary)%nat,
             (0 <? vulnerableServices summary)%nat,
             (0 <? outdatedServices summary)%nat; reflexivity.
Qed.

Lemma generateRecommendations_reproducible_witness :
  0 < criticalVulnerabilities (mkSummary 2 1 1 0 2 0 0 0)
  /\ hd_error (generateRecommendations (mkSummary 2 1 1 0 2 0 0 0) [])
     = Some fix_immediately.
Proof.
  split.
  - simpl. lia.
  - apply (generateRecommendations_reproducible (mkSummary 2 1 1 0 2 0 0 0) [] []).
    simpl. lia.
Defined.

End Recommendations.

Section SummaryTally.

Import Model ReportGenerator Spec.

Lemma count_vulnerability_shift (s : Summary) (v : PopulatedRef) :
  shifted s (count_vulnerability s v) 0 0 0
          (flag (has_severity critical v)) (flag (has_severity high v))
          (flag (has_severity medium v)) (flag (has_severity low v)).
Proof.
  unfold shifted, count_vulnerability, has_severity, bump.
  destruct (details v) as [d|]; [destruct (v_severity d)|];
    cbn; repeat split; lia.
Qed.

Lemma filter_length_cons {A : Type} (p : A -> bool) (x : A) (l : list A) :
  List.length (filter p (x :: l)) = flag (p x) + List.length (filter p l).
Proof. cbn. destruct (p x); reflexivity. Qed.

Lemma list_sum_cons (a : nat) (l : list nat) :
  list_sum (a :: l) = a + list_sum l.
Proof. reflexivity. Qed.

Lemma count_vulnerabilities_shift (vulns : list PopulatedRef) :
  forall s : Summary,
    shifted s (fold_left count_vulnerability vulns s) 0 0 0
            (List.length (filter (has_severity critical) vulns))
            (List.length (filter (has_severity high) vulns))
            (List.length (filter (has_severity medium) vulns))
            (List.length (filter (has_severity low) vulns)).
Proof.
  induction vulns as [|v vulns IH]; intros s.
  - cbn. unfold shifted. repeat split; lia.
  - cbn [fold_left].
    rewrite !filter_length_cons.
    specialize (IH (count_vulnerability s v)).
    pose proof (count_vulnerability_shift s v) as Hv.
    unfold shifted in *. intuition lia.
Qed.

Lemma count_service_shift (s : Summary) (service : PopulatedService) :
  shifted s (count_service s service)
          (flag (Status_eqb (status service) secure))
          (flag (Status_eqb (status service) vulnerable))
          (flag (Status_eqb (status service) outdated))
          (List.length (filter (has_severity critical) (vulnerabilities service)))
          (List.length (filter (has_severity high) (vulnerabilities service)))
          (List.length (filter (has_severity medium) (vulnerabilities service)))
          (List.length (filter (has_severity low) (vulnerabilities service))).
Proof.
  unfold count_service.
  set (s3 := bump _ outdatedServices _ _).
  assert (H3 : shifted s s3
                 (flag (Status_eqb (status service) secure))
                 (flag (Status_eqb (status service) vulnerable))
                 (flag (Status_eqb (status service) outdated)) 0 0 0 0).
  { subst s3. unfold shifted, bump.
    destruct (status service); cbn; repeat split; lia. }
  clearbody s3.
  assert (Hv := count_vulnerabilities_shift (vulnerabilities service) s3).
  destruct (vulnerabilities service) as [|v vulns].
  - cbn in *. unfold shifted in *. intuition lia.
  - unfold shifted in *. intuition lia.
Qed.

Lemma count_services_shift (l : list PopulatedService) :
  forall s : Summary,
    shifted s (fold_left count_service l s)
            (count_status secure l) (count_status vulnerable l)
            (count_status outdated l)
            (count_severity critical l) (count_severity high l)
            (count_severity medium l) (count_severity low l).
Proof.
  induction l as [|x l IH]; intros s.
  - cbn. unfold shifted. repeat split; lia.
  - cbn [fold_left].
    specialize (IH (count_service s x)).
    pose proof (count_service_shift s x) as Hx.
    unfold count_status, count_severity in *.
    rewrite !filter_length_cons.
    cbn [map]. rewrite !list_sum_cons.
    unfold shifted in *. intuition lia.
Qed.

(** C7: over any list of resolved services the summary counts the list
    entries by status and the vulnerability associations by severity,
    service by service, so that a vulnerability associated with two
    services is counted twice; for a vulnerable service with two critical
    vulnerabilities and a secure one, [criticalVulnerabilities = 2] and
    [vulnerableServices = 1]. *)
Theorem summarize_counts :
  (forall validServices : list PopulatedService,
      let summary := summarize validServices in
      totalServices summary = List.length validServices
      /\ secureServices summary = count_status secure validServices
      /\ vulnerableServices summary = count_status vulnerable validServices
      /\ outdatedServices summary = count_status outdated validServices
      /\ criticalVulnerabilities summary = count_severity critical validServices
      /\ highVulnerabilities summary = count_severity high validServices
      /\ mediumVulnerabilities summary = count_severity medium validServices
      /\ lowVulnerabilities summary = count_severity low validServices)
  /\ (forall (v : Vulnerability) (a b : PopulatedService) (ca cb : option Component),
         vulnerabilities a = [mkPopulatedRef ca (Some v)] ->
         vulnerabilities b = [mkPopulatedRef cb (Some v)] ->
         v_severity v = critical ->
         criticalVulnerabilities (summarize [a; b]) = 2)
  /\ (forall (v1 v2 : Vulnerability) (c : option Component),
         v_severity v1 = critical ->
         v_severity v2 = critical ->
         let summary :=
           summarize
             [ mkPopulatedService 1 vulnerable
                 [mkPopulatedRef c (Some v1); mkPopulatedRef c (Some v2)];
               mkPopulatedService 2 secure [] ] in
         criticalVulnerabilities summary = 2 /\ vulnerableServices summary = 1).
Proof.
  assert (Hcount : forall validServices : list PopulatedService,
      let summary := summarize validServices in
      totalServices summary = List.length validServices
      /\ secureServices summary = count_status secure validServices
      /\ vulnerableServices summary = count_status vulnerable validServices
      /\ outdatedServices summary = count_status outdated validServices
      /\ criticalVulnerabilities summary = count_severity critical validServices
      /\ highVulnerabilities summary = count_severity high validServices
      /\ mediumVulnerabilities summary = count_severity medium validServices
      /\ lowVulnerabilities summary = count_severity low validServices).
  { intros l summary. subst summary. unfold summarize.
    pose proof (count_services_shift l
                  (mkSummary (List.length l) 0 0 0 0 0 0 0)) as H.
    unfold shifted in H. cbn in H. intuition lia. }
  split; [exact Hcount | split].
  - intros v a b ca cb Ha Hb Hv.
    destruct (Hcount [a; b]) as (_ & _ & _ & _ & Hc & _).
    rewrite Hc. unfold count_severity. cbn [map].
    rewrite Ha, Hb. cbn. unfold has_severity. cbn. rewrite Hv. reflexivity.
  - intros v1 v2 c H1 H2 summary. subst summary.
    match goal with |- context [summarize ?l] =>
      destruct (Hcount l) as (_ & _ & Hvs & _ & Hc & _) end.
    rewrite Hc, Hvs. unfold count_severity, count_status, has_severity.
    cbn. rewrite H1, H2. cbn. split; reflexivity.
Qed.

Lemma summarize_counts_witness :
  let v := mkVulnerability 9 "CVE-2024-0001" critical vs_open in
  criticalVulnerabilities
    (summarize [ mkPopulatedService 1 vulnerable [mkPopulatedRef None (Some v)];
                 mkPopulatedService 2 outdated [mkPopulatedRef None (Some v)] ])
  = 2.
Proof.
  intros v.
  apply (proj1 (proj2 summarize_counts) v _ _ None None);
    reflexivity.
Defined.

End SummaryTally.

Section ReportValidation.

Import Model DAO ReportGenerator Spec.

Lemma non_null_all_none {A B : Type} (f : A -> option B) (l : list A) :
  (forall x, In x l -> f x = None) -> non_null (map f l) = [].
Proof.
  induction l as [|x l IH]; intros H; cbn.
  - reflexivity.
  - rewrite (H x (or_introl eq_refl)). apply IH.
    intros y Hy. apply H. right. exact Hy.
Qed.

(** C8 (as the code has it): the request is refused and the store is left
    as it was, with no report added, both when [serviceIds] is missing, not
    an array or empty, and when none of the ids resolves; the first refusal
    is answered 400, the second, for a request with a title, 404. *)
Theorem generate_rejects_without_report :
  forall (title : option string) (format : option Format)
         (user : ObjectId) (now : Time) (st : Store),
    (forall serviceIds : ServiceIds,
        serviceIds = Missing \/ serviceIds = NotAnArray \/ serviceIds = Ids [] ->
        generate title serviceIds format user now st = (st, 400))
    /\ (forall ids : list ObjectId,
           ids <> [] ->
           (forall id, In id ids -> ServiceDAO.findById id st = None) ->
           generate title (Ids ids) format user now st
           = (st, if falsy title then 400 else 404)).
Proof.
  intros title format user now st. split.
  - intros serviceIds [H | [H | H]]; subst serviceIds;
      destruct title as [[|c t]|]; reflexivity.
  - intros ids Hne Hnone.
    destruct title as [[|c t]|]; try reflexivity.
    destruct ids as [|id ids]; [congruence|].
    unfold generate.
    rewrite (non_null_all_none (findPopulated st) (id :: ids)).
    + reflexivity.
    + intros x Hx. unfold findPopulated. rewrite (Hnone x Hx). reflexivity.
Qed.

Lemma generate_rejects_without_report_witness :
  let st := mkStore [] [mkService 1 "orders-api" [] [] None unknown] [] [] [] 2 in
  generate (Some "Audit") (Ids []) None 0 5 st = (st, 400)
  /\ generate (Some "Audit") (Ids [7; 8]) None 0 5 st = (st, 404).
Proof.
  intros st.
  destruct (generate_rejects_without_report (Some "Audit") None 0 5 st)
    as [Hempty Hnone].
  split.
  - apply Hempty. right. right. reflexivity.
  - apply (Hnone [7; 8]).
    + discriminate.
    + intros id [H | [H | []]]; subst id; reflexivity.
Defined.

(** C8, refuted as stated: a request whose only id does not resolve is
    answered 404, which is not the status of a validation failure. *)
Lemma generate_unresolved_is_not_validation_failure :
  let st := mkStore [] [mkService 1 "orders-api" [] [] None unknown] [] [] [] 2 in
  ServiceDAO.findById 7 st = None
  /\ snd (generate (Some "Audit") (Ids [7]) None 0 5 st) = 404
  /\ is_validation_failure (snd (generate (Some "Audit") (Ids [7]) None 0 5 st))
     = false.
Proof. repeat split. Qed.

End ReportValidation.

(** ** Notifications: marking as read *)

Section MarkAllAsRead.

Import Model DAO DAO.NotificationDAO Spec.

Lemma mark_read_same_but_read (n : Notification) :
  same_but_read n (mark_read n) /\ n_read (mark_read n) = true.
Proof. unfold same_but_read. cbn. repeat split. Qed.

(** C10: [markAllAsRead u] keeps the notifications in place; at every
    position the notification is left as it was unless it is addressed to
    [u] and unread, in which case only its [read] flag changes, to [true]
    (the timestamps included are untouched); no other collection changes,
    and the count returned is the number of notifications changed. *)
Theorem markAllAsRead_frame :
  forall (userId : ObjectId) (st : Store),
    let st' := fst (markAllAsRead userId st) in
    List.length (notifications st') = List.length (notifications st)
    /\ (forall (i : nat) (n : Notification),
           nth_error (notifications st) i = Some n ->
           exists n',
             nth_error (notifications st') i = Some n'
             /\ same_but_read n n'
             /\ n_read n' = (n_read n || addressed_to userId n)
             /\ (addressed_to userId n && negb (n_read n) = false -> n' = n))
    /\ components st' = components st
    /\ services st' = services st
    /\ vulnerabilities st' = vulnerabilities st
    /\ reports st' = reports st
    /\ next_id st' = next_id st
    /\ snd (markAllAsRead userId st)
       = List.length
           (filter (fun n => addressed_to userId n && negb (n_read n))
                   (notifications st)).
Proof.
  intros userId st st'. subst st'. cbn.
  split; [apply length_map | split]; [| repeat split].
  intros i n Hn.
  rewrite nth_error_map, Hn. cbn.
  eexists. split; [reflexivity|].
  unfold unread_for, addressed_to.
  destruct (existsb (Nat.eqb userId) (n_recipients n)) eqn:Hmem;
    destruct (n_read n) eqn:Hread; cbn.
  - repeat split; unfold same_but_read; auto.
  - pose proof (mark_read_same_but_read n) as [Hs Hr].
    repeat split; auto. discriminate.
  - repeat split; unfold same_but_read; auto.
  - repeat split; unfold same_but_read; auto.
Qed.

Lemma markAllAsRead_frame_witness :
  let n1 := mkNotification 5 1 1 "a" "b" nt_update info (Some 1) false [7; 8] in
  let n2 := mkNotification 6 2 2 "c" "d" nt_system low None false [8] in
  let st := mkStore [] [] [] [n1; n2] [] 9 in
  exists n',
    nth_error (notifications (fst (markAllAsRead 7 st))) 0 = Some n'
    /\ same_but_read n1 n'
    /\ n_read n' = (n_read n1 || addressed_to 7 n1)
    /\ (addressed_to 7 n1 && negb (n_read n1) = false -> n' = n1).
Proof.
  intros n1 n2 st.
  apply (proj1 (proj2 (markAllAsRead_frame 7 st)) 0 n1).
  reflexivity.
Defined.

End MarkAllAsRead.

(** ** Version comparison *)

(** ** White space *)

Section WhiteSpace.

Import JsNum JsString DAO Spec.

Lemma plain_code (c : ascii) :
  plain c = true -> (code c < 128)%N /\ is_ws (code c) = false.
Proof.
  unfold plain. intros H. apply andb_true_iff in H. destruct H as [H1 H2].
  apply N.ltb_lt in H1. apply negb_true_iff in H2. auto.
Qed.

Lemma continues_ascii (c : ascii) : (code c < 128)%N -> continues c = false.
Proof.
  intros H. unfold continues.
  destruct (N.leb_spec 128 (code c)); [lia | reflexivity].
Qed.

(** A byte of the ASCII range is in no sequence of several bytes. *)
Lemma two_ascii (c d : ascii) :
  (code c < 128 \/ code d < 128)%N -> two c d = None.
Proof.
  intros H. unfold two.
  destruct (N.leb_spec 194 (code c)); cbn [andb]; [|reflexivity].
  destruct H as [H | H]; [lia|].
  rewrite (continues_ascii d H), andb_false_r. reflexivity.
Qed.

Lemma three_ascii (c d e : ascii) :
  (code c < 128 \/ code d < 128 \/ code e < 128)%N -> three c d e = None.
Proof.
  intros H. unfold three.
  destruct (N.leb_spec 224 (code c)); cbn [andb]; [|reflexivity].
  destruct H as [H | [H | H]]; [lia | |];
    rewrite (continues_ascii _ H), ?andb_false_r; reflexivity.
Qed.

Lemma four_ascii (c d e f : ascii) :
  (code c < 128 \/ code d < 128 \/ code e < 128 \/ code f < 128)%N ->
  four c d e f = None.
Proof.
  intros H. unfold four.
  destruct (N.leb_spec 240 (code c)); cbn [andb]; [|reflexivity].
  destruct H as [H | [H | [H | H]]]; [lia | | |];
    rewrite (continues_ascii _ H), ?andb_false_r; reflexivity.
Qed.

Lemma decode_ascii (c : ascii) (l : list ascii) :
  (code c < 128)%N -> decode (c :: l) = (code c, [c]) :: decode l.
Proof.
  intros H. cbn [decode].
  destruct l as [|d [|e [|f l4]]]; try reflexivity;
    rewrite ?two_ascii, ?three_ascii, ?four_ascii by lia; reflexivity.
Qed.

Lemma decode_cons (c : ascii) (l1 : list ascii) :
  decode (c :: l1)
  = match l1 with
    | [] => (code c, [c]) :: decode l1
    | d :: l2 =>
        match two c d with
        | Some cp => (cp, [c; d]) :: decode l2
        | None =>
            match l2 with
            | [] => (code c, [c]) :: decode l1
            | e :: l3 =>
                match three c d e with
                | Some cp => (cp, [c; d; e]) :: decode l3
                | None =>
                    match l3 with
                    | [] => (code c, [c]) :: decode l1
                    | f :: l4 =>
                        match four c d e f with
                        | Some cp => (cp, [c; d; e; f]) :: decode l4
                        | None => (code c, [c]) :: decode l1
                        end
                    end
                end
            end
        end
    end.
Proof. destruct l1 as [|d [|e [|f l4]]]; reflexivity. Qed.

Lemma decode_snoc (d : ascii) :
  (code d < 128)%N ->
  forall (n : nat) (l : list ascii),
    List.length l <= n -> decode (l ++ [d]) = decode l ++ [(code d, [d])].
Proof.
  intros Hd. induction n as [|n IH]; intros l Hl.
  - destruct l; [reflexivity | cbn in Hl; lia].
  - destruct l as [|c l1]; [reflexivity|].
    cbn in Hl. cbn [app].
    rewrite (decode_cons c (l1 ++ [d])), (decode_cons c l1).
    rewrite (IH l1) by lia.
    destruct l1 as [|x l2]; cbn [app].
    { rewrite two_ascii by lia. reflexivity. }
    cbn in Hl.
    destruct (two c x) as [cp|].
    { rewrite IH by lia. reflexivity. }
    destruct l2 as [|y l3]; cbn [app].
    { rewrite three_ascii by lia. reflexivity. }
    cbn in Hl.
    destruct (three c x y) as [cp|].
    { rewrite IH by lia. reflexivity. }
    destruct l3 as [|z l4]; cbn [app].
    { rewrite four_ascii by lia. reflexivity. }
    cbn in Hl.
    destruct (four c x y z) as [cp|].
    { rewrite IH by lia. reflexivity. }
    reflexivity.
Qed.

Lemma encode_decode (l : list ascii) : encode (decode l) = l.
Proof.
  assert (H : forall n l, List.length l <= n -> encode (decode l) = l).
  { clear l. induction n as [|n IH]; intros l Hl.
    - destruct l; [reflexivity | cbn in Hl; lia].
    - destruct l as [|c l1]; [reflexivity|]. cbn in Hl.
      rewrite decode_cons.
      assert (Hone : encode ((code c, [c]) :: decode l1) = c :: l1).
      { change (encode ((code c, [c]) :: decode l1))
          with (c :: encode (decode l1)).
        rewrite IH by lia. reflexivity. }
      destruct l1 as [|d l2]; [exact Hone|]. cbn in Hl.
      destruct (two c d) as [cp|].
      { change (encode ((cp, [c; d]) :: decode l2))
          with (c :: d :: encode (decode l2)).
        rewrite IH by lia. reflexivity. }
      destruct l2 as [|e l3]; [exact Hone|]. cbn in Hl.
      destruct (three c d e) as [cp|].
      { change (encode ((cp, [c; d; e]) :: decode l3))
          with (c :: d :: e :: encode (decode l3)).
        rewrite IH by lia. reflexivity. }
      destruct l3 as [|f l4]; [exact Hone|]. cbn in Hl.
      destruct (four c d e f) as [cp|]; [|exact Hone].
      change (encode ((cp, [c; d; e; f]) :: decode l4))
        with (c :: d :: e :: f :: encode (decode l4)).
      rewrite IH by lia. reflexivity. }
  apply (H (List.length l)), le_n.
Qed.

Lemma encode_app (a b : list character) :
  encode (a ++ b) = encode a ++ encode b.
Proof. apply flat_map_app. Qed.

(** White space does not reach a character that is none. *)
Lemma drop_keeps_last (x : character) :
  is_ws (fst x) = false ->
  forall l, exists y, drop (l ++ [x]) = y ++ [x].
Proof.
  intros H. induction l as [|a l IH]; cbn [app drop].
  - rewrite H. exists []. reflexivity.
  - destruct (is_ws (fst a)); [exact IH|].
    exists (a :: l). reflexivity.
Qed.

(** White space does not start with a plain character. *)
Lemma drop_ws_plain (c : ascii) (l : list ascii) :
  plain c = true -> drop_ws (c :: l) = c :: l.
Proof.
  intros H. destruct (plain_code c H) as [Hc Hw].
  unfold drop_ws. rewrite (decode_ascii c l Hc). cbn [drop fst]. rewrite Hw.
  change (encode ((code c, [c]) :: decode l)) with (c :: encode (decode l)).
  rewrite encode_decode. reflexivity.
Qed.

(** A string that starts with a plain character is not blank. *)
Lemma trim_plain_head (c : ascii) (l : list ascii) :
  plain c = true -> JsNum.trim (c :: l) <> [].
Proof.
  intros H. destruct (plain_code c H) as [Hc Hw].
  unfold JsNum.trim. rewrite (decode_ascii c l Hc). cbn [drop fst rev].
  rewrite Hw. cbn [rev].
  destruct (drop_keeps_last (code c, [c]) Hw (rev (decode l))) as [y Hy].
  rewrite Hy, rev_app_distr. discriminate.
Qed.

(** A string between two plain characters is trimmed already. *)
Lemma trim_plain_ends (c d : ascii) (l : list ascii) :
  plain c = true -> plain d = true ->
  JsNum.trim (c :: l ++ [d]) = c :: l ++ [d].
Proof.
  intros Hc Hd.
  destruct (plain_code c Hc) as [Hc1 Hc2].
  destruct (plain_code d Hd) as [Hd1 Hd2].
  unfold JsNum.trim.
  rewrite (decode_ascii c _ Hc1), (decode_snoc d Hd1 _ l (le_n _)).
  cbn [drop fst]. rewrite Hc2.
  change ((code c, [c]) :: decode l ++ [(code d, [d])])
    with (((code c, [c]) :: decode l) ++ [(code d, [d])]).
  rewrite rev_app_distr. cbn [rev app drop fst]. rewrite Hd2.
  cbn [rev]. rewrite rev_app_distr, rev_involutive. cbn [rev app].
  change ((code c, [c]) :: decode l ++ [(code d, [d])])
    with (((code c, [c]) :: decode l) ++ [(code d, [d])]).
  rewrite encode_app.
  change (encode ((code c, [c]) :: decode l)) with (c :: encode (decode l)).
  rewrite encode_decode. reflexivity.
Qed.

(** So is a plain character. *)
Lemma trim_plain (c : ascii) : plain c = true -> JsNum.trim [c] = [c].
Proof.
  intros H. destruct (plain_code c H) as [Hc Hw].
  unfold JsNum.trim. cbn [decode drop fst rev app]. rewrite Hw.
  cbn [rev app drop fst]. rewrite Hw. reflexivity.
Qed.

Lemma required_true (s : string) : required s = true <-> s <> "".
Proof.
  unfold required. rewrite negb_true_iff. apply String.eqb_neq.
Qed.

Lemma string_of_chars_empty (l : list ascii) :
  string_of_list_ascii l = "" -> l = [].
Proof. destruct l; [reflexivity | discriminate]. Qed.

Lemma trim_not_blank (c : ascii) (s : string) :
  plain c = true -> required (trim (String c s)) = true.
Proof.
  intros H. apply required_true. unfold trim. intros E.
  apply string_of_chars_empty in E.
  exact (trim_plain_head c (chars s) H E).
Qed.

Lemma chars_app (a b : string) : chars (a ++ b) = (chars a ++ chars b)%list.
Proof.
  unfold chars. induction a as [|c a IH]; [reflexivity|].
  cbn. rewrite IH. reflexivity.
Qed.

Lemma trim_between (c d : ascii) (s : string) :
  plain c = true -> plain d = true ->
  trim (String c (s ++ String d "")) = String c (s ++ String d "").
Proof.
  intros Hc Hd. unfold trim.
  change (chars (String c (s ++ String d "")))
    with (c :: chars (s ++ String d "")).
  rewrite chars_app. change (chars (String d "")) with [d].
  rewrite (trim_plain_ends c d _ Hc Hd).
  change (c :: chars s ++ [d]) with (chars (String c s) ++ chars (String d ""))%list.
  rewrite <- chars_app. apply string_of_list_ascii_of_string.
Qed.

End WhiteSpace.

Section NumberOfDigits.

Import JsNum JsString Spec.

Lemma Qred_inject_Z (a : Z) : Qred (inject_Z a) = inject_Z a.
Proof.
  unfold Qred, inject_Z.
  pose proof (Z.ggcd_gcd a 1) as Hg.
  pose proof (Z.ggcd_correct_divisors a 1) as Hd.
  destruct (Z.ggcd a 1) as (g, (aa, bb)).
  cbn in Hg, Hd. rewrite Z.gcd_1_r in Hg. subst g.
  destruct Hd as [Ha Hb].
  rewrite Z.mul_1_l in Ha, Hb. subst aa bb. reflexivity.
Qed.

Lemma Qred_scaled (a k : Z) :
  (0 < k)%Z -> Qred ((a * 2 ^ k) # Z.to_pos (2 ^ k))%Q = inject_Z a.
Proof.
  intros Hk.
  rewrite <- (Qred_inject_Z a).
  apply Qred_complete.
  unfold Qeq, inject_Z. cbn [Qnum Qden].
  rewrite Z2Pos.id by (apply Z.pow_pos_nonneg; lia).
  lia.
Qed.

(** Integers up to [2^53] are represented exactly. *)
Lemma round_pos_exact (p : positive) :
  (Zpos p <= 2 ^ 53)%Z -> round_pos (Zpos p) 1 = Fin (inject_Z (Zpos p)).
Proof.
  intros Hle.
  set (a := Zpos p) in *.
  assert (Hpos : (0 < a)%Z) by (subst a; lia).
  pose proof (Z.log2_spec a Hpos) as [Hlo Hhi].
  pose proof (Z.log2_nonneg a) as Hnn.
  assert (H53 : (Z.log2 a <= 53)%Z).
  { change 53%Z with (Z.log2 (2 ^ 53)). apply Z.log2_le_mono. exact Hle. }
  assert (Hfl : floor_log2 a 1 = Z.log2 a).
  { unfold floor_log2, scale. change (Z.log2 1) with 0%Z.
    rewrite Z.sub_0_r.
    destruct (Z.leb_spec 0 (Z.log2 a)); [|lia].
    rewrite Z.mul_1_l.
    destruct (Z.leb_spec (2 ^ Z.log2 a) a); [reflexivity | lia]. }
  unfold round_pos. rewrite Hfl.
  rewrite Z.max_l by lia.
  unfold scale.
  destruct (Z.leb_spec 0 (Z.log2 a - 52)) as [Hu | Hu].
  - (* the two top binades: the unit in the last place is 1 or 2 *)
    rewrite Z.mul_1_l.
    assert (Hcase : (Z.log2 a = 52 \/ Z.log2 a = 53)%Z) by lia.
    destruct Hcase as [E | E]; rewrite E in *.
    + change (2 ^ (52 - 52))%Z with 1%Z.
      rewrite Z.div_1_r, Z.mod_1_r. cbn [Z.mul Z.compare].
      rewrite Z.mul_1_r.
      destruct (Z.leb_spec (2 ^ 1024) a) as [Hbig | _].
      * exfalso.
        assert ((2 ^ 53 < 2 ^ 1024)%Z) by (apply Z.pow_lt_mono_r; lia).
        lia.
      * reflexivity.
    + assert (Ea : a = (2 ^ 53)%Z).
      { change (2 ^ 53)%Z with 9007199254740992%Z in *. lia. }
      rewrite Ea. vm_compute. reflexivity.
  - rewrite Z.div_1_r, Z.mod_1_r. cbn [Z.mul Z.compare].
    replace (- (Z.log2 a - 52))%Z with (52 - Z.log2 a)%Z by lia.
    rewrite Qred_scaled by lia. reflexivity.
Qed.

Lemma of_decimal_exact (v : N) :
  (v <= max_exact)%N -> of_decimal v 0 = Fin (inject_Z (Z.of_N v)).
Proof.
  intros Hv. destruct v as [|p]; [reflexivity|].
  unfold of_decimal.
  change (0 <=? 0)%Z with true. cbn iota.
  change (10 ^ 0)%Z with 1%Z. rewrite Z.mul_1_r.
  apply round_pos_exact.
  unfold max_exact in Hv.
  change (2 ^ 53)%Z with (Z.of_N (2 ^ 53)). lia.
Qed.

End NumberOfDigits.

Section NumberOfDecimal.

Import JsNum JsString Spec.

Lemma digit_is_not (c : ascii) (s : string) :
  is_digit c = true ->
  match s with
  | String d EmptyString => is_digit d = false
  | _ => True
  end ->
  is_char c s = false.
Proof.
  intros Hc Hd. unfold is_char.
  destruct s as [|d [|? ?]]; try reflexivity.
  destruct (Ascii.eqb_spec c d) as [E | _]; [|reflexivity].
  subst d. congruence.
Qed.

Lemma digit_is_plain (c : ascii) : is_digit c = true -> plain c = true.
Proof.
  unfold is_digit, plain, is_ws. intros H.
  apply andb_true_iff in H. destruct H as [H1 H2].
  apply N.leb_le in H1. apply N.leb_le in H2.
  apply andb_true_iff. split; [apply N.ltb_lt; lia|].
  apply negb_true_iff.
  repeat match goal with
         | |- context [(?a <=? ?b)%N] => destruct (N.leb_spec a b); try lia
         | |- context [(?a =? ?b)%N] => destruct (N.eqb_spec a b); try lia
         end;
    try reflexivity.
Qed.

Lemma drop_ws_digits (l : list ascii) :
  forallb is_digit l = true -> drop_ws l = l.
Proof.
  destruct l as [|c l]; [reflexivity|]. cbn [forallb]. intros H.
  apply andb_true_iff in H. destruct H as [Hc _].
  apply drop_ws_plain, digit_is_plain, Hc.
Qed.

Lemma forallb_rev_true {A : Type} (p : A -> bool) (l : list A) :
  forallb p l = true -> forallb p (rev l) = true.
Proof.
  rewrite !forallb_forall. intros H x Hx. apply H. apply in_rev. exact Hx.
Qed.

Lemma trim_digits (l : list ascii) :
  forallb is_digit l = true -> JsNum.trim l = l.
Proof.
  intros H. destruct l as [|c l]; [reflexivity|].
  assert (Hc : plain c = true).
  { cbn in H. apply andb_true_iff in H. apply digit_is_plain. tauto. }
  destruct (rev l) as [|d r] eqn:Er.
  - apply (f_equal (@rev ascii)) in Er. rewrite rev_involutive in Er.
    subst l. apply trim_plain, Hc.
  - assert (Hl : l = rev r ++ [d]).
    { apply (f_equal (@rev ascii)) in Er. rewrite rev_involutive in Er.
      exact Er. }
    subst l. apply trim_plain_ends; [exact Hc|].
    apply digit_is_plain.
    rewrite forallb_forall in H. apply H. right.
    apply in_or_app. right. left. reflexivity.
Qed.

Lemma span_digits (l : list ascii) :
  forallb is_digit l = true -> span is_digit l = (l, []).
Proof.
  induction l as [|c l IH]; [reflexivity|]. cbn. intros H.
  apply andb_true_iff in H. destruct H as [Hc Hl].
  rewrite Hc, (IH Hl). reflexivity.
Qed.

Lemma non_decimal_digits (l : list ascii) :
  forallb is_digit l = true -> non_decimal l = None.
Proof.
  destruct l as [|c [|x ds]]; try reflexivity.
  cbn [forallb]. intros H.
  apply andb_true_iff in H. destruct H as [_ H].
  apply andb_true_iff in H. destruct H as [Hx _].
  unfold non_decimal, one_of.
  rewrite !(digit_is_not x _ Hx) by reflexivity.
  destruct (is_char c "0"); reflexivity.
Qed.

Lemma unsigned_decimal_digits (c : ascii) (l : list ascii) :
  forallb is_digit (c :: l) = true ->
  unsigned_decimal (c :: l) = Some (of_decimal (digits_value 10 (c :: l)) 0).
Proof.
  intros H. unfold unsigned_decimal.
  assert (Hc : is_digit c = true).
  { cbn in H. apply andb_true_iff in H. tauto. }
  assert (Hinf : chars_eqb (c :: l) "Infinity" = false).
  { unfold chars_eqb. cbn.
    destruct (Ascii.eqb_spec c "I"%char) as [E | _]; [|reflexivity].
    subst c. discriminate Hc. }
  rewrite Hinf, (span_digits _ H), app_nil_r.
  reflexivity.
Qed.

(** [Number] reads a string of decimal digits as the nearest binary64
    value of the integer it denotes. *)
Lemma Number_decimal (s : string) :
  is_decimal s = true -> Number s = of_decimal (segment_value s) 0.
Proof.
  unfold is_decimal, Number, segment_value, nonempty_all.
  destruct (chars s) as [|c l] eqn:E; [discriminate|].
  intros H.
  rewrite (trim_digits _ H), (non_decimal_digits _ H).
  assert (Hc : is_digit c = true).
  { cbn in H. apply andb_true_iff in H. tauto. }
  rewrite !(digit_is_not c _ Hc) by reflexivity.
  rewrite (unsigned_decimal_digits c l H). reflexivity.
Qed.

Lemma Number_exact (s : string) :
  is_decimal s = true ->
  (segment_value s <= max_exact)%N ->
  Number s = Fin (inject_Z (Z.of_N (segment_value s))).
Proof.
  intros Hd Hv. rewrite (Number_decimal s Hd). apply of_decimal_exact, Hv.
Qed.

End NumberOfDecimal.

Section IsNewerVersion.

Import JsNum JsString VersionChecker Spec.

Lemma part_embed (t : list N) (i : nat) :
  part (map embed t) i = embed (nth i t 0%N).
Proof.
  unfold part. rewrite nth_error_map.
  destruct (nth_error t i) as [v|] eqn:E; cbn.
  - rewrite (nth_error_nth t i 0%N E).
    destruct v; reflexivity.
  - apply nth_error_None in E. rewrite (nth_overflow t 0%N E). reflexivity.
Qed.

Lemma lt_embed (a b : N) : lt (embed a) (embed b) = (a <? b)%N.
Proof.
  unfold lt, embed, Qcompare, inject_Z, N.ltb. cbn [Qnum Qden].
  rewrite !Z.mul_1_r, N2Z.inj_compare. reflexivity.
Qed.

Lemma skipn_nth {A : Type} (d : A) (l : list A) :
  forall i, i < List.length l -> skipn i l = nth i l d :: skipn (S i) l.
Proof.
  induction l as [|x l IH]; intros i Hi; cbn in Hi; [lia|].
  destruct i as [|i]; [reflexivity|].
  cbn [skipn nth]. apply IH. lia.
Qed.

Lemma pad_length (n : nat) (t : list N) :
  List.length t <= n -> List.length (pad n t) = n.
Proof. intros H. unfold pad. rewrite length_app, repeat_length. lia. Qed.

Lemma nth_pad (n i : nat) (t : list N) : nth i (pad n t) 0%N = nth i t 0%N.
Proof.
  unfold pad.
  destruct (Nat.lt_ge_cases i (List.length t)) as [H | H].
  - apply app_nth1, H.
  - rewrite app_nth2 by exact H.
    rewrite nth_repeat, nth_overflow by exact H. reflexivity.
Qed.

(** The loop of [isNewerVersion] on exactly represented tuples is the
    lexicographic comparison of the padded tuples. *)
Lemma compare_from_lex (c l : list N) (n : nat) :
  List.length c <= n -> List.length l <= n ->
  forall k i, i + k = n ->
    compare_from k i (map embed c) (map embed l)
    = lex_lt (skipn i (pad n c)) (skipn i (pad n l)).
Proof.
  intros Hc Hl.
  induction k as [|k IH]; intros i Hi.
  - rewrite Nat.add_0_r in Hi. subst i.
    rewrite !skipn_all2 by (rewrite pad_length; auto). reflexivity.
  - cbn [compare_from].
    rewrite !part_embed. unfold gt. rewrite !lt_embed.
    rewrite (skipn_nth 0%N (pad n c) i) by (rewrite pad_length; auto; lia).
    rewrite (skipn_nth 0%N (pad n l) i) by (rewrite pad_length; auto; lia).
    rewrite !nth_pad. cbn [lex_lt].
    rewrite (IH (S i)) by lia. reflexivity.
Qed.

Lemma map_Number_exact (segments : list string) :
  forallb is_decimal segments = true ->
  forallb (fun s => (segment_value s <=? max_exact)%N) segments = true ->
  map Number segments = map embed (map segment_value segments).
Proof.
  induction segments as [|s l IH]; [reflexivity|]. cbn. intros Hd Hv.
  apply andb_true_iff in Hd. destruct Hd as [Hd Hdl].
  apply andb_true_iff in Hv. destruct Hv as [Hv Hvl].
  apply N.leb_le in Hv.
  rewrite (Number_exact s Hd Hv), (IH Hdl Hvl). reflexivity.
Qed.

(** C3 (as the code has it): for version strings made of dot-separated
    non-negative integers, each at most [2^53], [isNewerVersion] is the
    lexicographic comparison [latest > current] of the integer tuples,
    missing trailing segments counting as zero; and the three comparisons
    of the specification come out as stated. *)
Theorem isNewerVersion_lexicographic :
  (forall currentVersion latestVersion : string,
      well_formed currentVersion = true ->
      well_formed latestVersion = true ->
      exact currentVersion = true ->
      exact latestVersion = true ->
      isNewerVersion currentVersion latestVersion
      = newer (tuple currentVersion) (tuple latestVersion))
  /\ isNewerVersion "1.9.0" "1.10.0" = true
  /\ isNewerVersion "2.0.0" "1.9.9" = false
  /\ isNewerVersion "1.2" "1.2.0" = false.
Proof.
  split; [| repeat split; vm_compute; reflexivity].
  intros cur lat Hwc Hwl Hec Hel.
  unfold isNewerVersion, newer, tuple, well_formed, exact in *.
  rewrite (map_Number_exact _ Hwc Hec), (map_Number_exact _ Hwl Hel).
  rewrite !length_map.
  set (c := map segment_value (split cur)).
  set (l := map segment_value (split lat)).
  replace (List.length (split cur)) with (List.length c)
    by (subst c; apply length_map).
  replace (List.length (split lat)) with (List.length l)
    by (subst l; apply length_map).
  rewrite (compare_from_lex c l (Nat.max (List.length c) (List.length l)));
    try lia.
  reflexivity.
Qed.

Lemma isNewerVersion_lexicographic_witness :
  well_formed "16.14.0" = true /\ well_formed "18.15.0" = true
  /\ exact "16.14.0" = true /\ exact "18.15.0" = true
  /\ isNewerVersion "16.14.0" "18.15.0" = newer [16; 14; 0]%N [18; 15; 0]%N.
Proof.
  repeat (split; [vm_compute; reflexivity|]).
  apply (proj1 isNewerVersion_lexicographic "16.14.0" "18.15.0");
    vm_compute; reflexivity.
Defined.

(** C3, refuted as stated: [2^53 + 1] is not a binary64 value and is read
    as [2^53], so the larger version is not seen as newer. *)
Lemma isNewerVersion_misses_large_segment :
  well_formed "9007199254740992" = true
  /\ well_formed "9007199254740993" = true
  /\ newer (tuple "9007199254740992") (tuple "9007199254740993") = true
  /\ isNewerVersion "9007199254740992" "9007199254740993" = false.
Proof. repeat split; vm_compute; reflexivity. Qed.

(** Segments that are not numbers count as zero in the comparison. *)
Lemma part_numeric_or_zero (segments : list string) (i : nat) :
  part (map Number segments) i = part (map numeric_or_zero segments) i.
Proof.
  unfold part. rewrite !nth_error_map.
  destruct (nth_error segments i) as [s|]; [|reflexivity]. cbn.
  unfold numeric_or_zero. destruct (Number s); reflexivity.
Qed.

Lemma compare_from_ext (a a' b b' : list jsnum) :
  (forall i, part a i = part a' i) ->
  (forall i, part b i = part b' i) ->
  forall k i, compare_from k i a b = compare_from k i a' b'.
Proof.
  intros Ha Hb. induction k as [|k IH]; intros i; [reflexivity|].
  cbn [compare_from]. rewrite Ha, Hb, IH. reflexivity.
Qed.

Lemma map_numeric_or_zero (segments : list string) :
  forallb readable segments = true ->
  map numeric_or_zero segments = map embed (map value_or_zero segments).
Proof.
  induction segments as [|s l IH]; [reflexivity|]. cbn [forallb map].
  intros H. apply andb_true_iff in H. destruct H as [Hs Hl].
  rewrite (IH Hl). f_equal.
  unfold readable in Hs. unfold numeric_or_zero, value_or_zero.
  destruct (non_numeric s) eqn:Hn.
  - unfold non_numeric in Hn. destruct (Number s); try discriminate. reflexivity.
  - cbn in Hs. apply andb_true_iff in Hs. destruct Hs as [Hd Hv].
    apply N.leb_le in Hv. rewrite (Number_exact s Hd Hv). reflexivity.
Qed.

(** C4 (as the code has it): [isNewerVersion] is a total function of two
    strings, in which a segment that is not a number counts as zero: the
    outcome is that of the comparison of the values so read. For versions
    whose segments are integers of at most [2^53] or not numbers at all, it
    is the lexicographic comparison of the tuples with zero for the latter,
    so it need not be [false]. *)
Theorem isNewerVersion_reads_non_numeric_as_zero :
  (forall currentVersion latestVersion : string,
      isNewerVersion currentVersion latestVersion
      = compare_from
          (Nat.max (List.length (split currentVersion))
                   (List.length (split latestVersion)))
          0
          (map numeric_or_zero (split currentVersion))
          (map numeric_or_zero (split latestVersion)))
  /\ (forall s : string, non_numeric s = true -> numeric_or_zero s = zero)
  /\ (forall s : string, non_numeric s = false -> numeric_or_zero s = Number s)
  /\ (forall currentVersion latestVersion : string,
         forallb readable (split currentVersion) = true ->
         forallb readable (split latestVersion) = true ->
         isNewerVersion currentVersion latestVersion
         = newer (tuple_or_zero currentVersion) (tuple_or_zero latestVersion)).
Proof.
  assert (Hread : forall cur lat : string,
             isNewerVersion cur lat
             = compare_from
                 (Nat.max (List.length (split cur)) (List.length (split lat)))
                 0
                 (map numeric_or_zero (split cur))
                 (map numeric_or_zero (split lat))).
  { intros cur lat. unfold isNewerVersion. rewrite !length_map.
    apply compare_from_ext; intros i; apply part_numeric_or_zero. }
  split; [exact Hread | split; [| split]].
  - intros s. unfold non_numeric, numeric_or_zero.
    destruct (Number s); [reflexivity | discriminate | discriminate].
  - intros s. unfold non_numeric, numeric_or_zero.
    destruct (Number s); [discriminate | reflexivity | reflexivity].
  - intros cur lat Hc Hl. rewrite Hread.
    rewrite (map_numeric_or_zero _ Hc), (map_numeric_or_zero _ Hl).
    unfold newer, tuple_or_zero.
    set (c := map value_or_zero (split cur)).
    set (l := map value_or_zero (split lat)).
    replace (List.length (split cur)) with (List.length c)
      by (subst c; apply length_map).
    replace (List.length (split lat)) with (List.length l)
      by (subst l; apply length_map).
    rewrite (compare_from_lex c l (Nat.max (List.length c) (List.length l)));
      try lia.
    reflexivity.
Qed.

Lemma isNewerVersion_reads_non_numeric_as_zero_witness :
  forallb readable (split "1.x.0") = true
  /\ forallb readable (split "1.2.0") = true
  /\ isNewerVersion "1.x.0" "1.2.0" = newer [1; 0; 0]%N [1; 2; 0]%N.
Proof.
  repeat (split; [vm_compute; reflexivity|]).
  apply (proj2 (proj2 (proj2 isNewerVersion_reads_non_numeric_as_zero))
               "1.x.0" "1.2.0");
    vm_compute; reflexivity.
Defined.

(** C4, refuted as stated: the current version ["abc"] has a segment that
    is not a number, and an update is reported. *)
Lemma isNewerVersion_does_not_fail_closed :
  has_non_numeric_segment "abc" = true
  /\ isNewerVersion "abc" "1.0.0" = true.
Proof. split; vm_compute; reflexivity. Qed.

End IsNewerVersion.

(** ** Collections *)

Section CollectionFacts.

Import Model DAO.

Context {A : Type} (id_of : A -> ObjectId).

Lemma findById_In (id : ObjectId) (l : list A) (d : A) :
  findById id_of id l = Some d -> In d l /\ id_of d = id.
Proof.
  unfold findById. intros H. apply find_some in H.
  destruct H as [Hin Heq]. apply Nat.eqb_eq in Heq. auto.
Qed.

Lemma findById_unique (id : ObjectId) (l : list A) (d : A) :
  NoDup (map id_of l) -> In d l -> id_of d = id ->
  findById id_of id l = Some d.
Proof.
  unfold findById.
  induction l as [|x l IH]; intros Hnd Hin Hid; [contradiction|].
  cbn in Hnd. inversion Hnd as [|? ? Hx Hl]; subst.
  cbn. destruct (Nat.eqb_spec (id_of x) (id_of d)) as [E | E].
  - destruct Hin as [-> | Hin]; [reflexivity|].
    exfalso. apply Hx. rewrite E. apply in_map, Hin.
  - destruct Hin as [-> | Hin]; [congruence|]. apply IH; auto.
Qed.

Lemma update_noop (id : ObjectId) (f : A -> A) (l : list A) :
  (forall d, findById id_of id l = Some d -> f d = d) ->
  findByIdAndUpdate id_of id f l = l.
Proof.
  unfold findById.
  induction l as [|x l IH]; intros H; [reflexivity|].
  cbn in *. destruct (Nat.eqb (id_of x) id).
  - rewrite (H x eq_refl). reflexivity.
  - rewrite (IH H). reflexivity.
Qed.

Lemma map_update {B : Type} (g : A -> B) (id : ObjectId) (f : A -> A)
      (l : list A) :
  (forall d, g (f d) = g d) ->
  map g (findByIdAndUpdate id_of id f l) = map g l.
Proof.
  intros H. induction l as [|x l IH]; [reflexivity|].
  cbn. destruct (Nat.eqb (id_of x) id); cbn; [rewrite H | rewrite IH];
    reflexivity.
Qed.

Lemma findById_update (id id' : ObjectId) (f : A -> A) (l : list A) :
  (forall d, id_of (f d) = id_of d) ->
  findById id_of id' (findByIdAndUpdate id_of id f l)
  = if Nat.eqb id id' then option_map f (findById id_of id' l)
    else findById id_of id' l.
Proof.
  intros Hf. unfold findById.
  induction l as [|x l IH]; [destruct (Nat.eqb id id'); reflexivity|].
  cbn. destruct (Nat.eqb_spec (id_of x) id) as [E | E]; cbn.
  - rewrite Hf, E.
    destruct (Nat.eqb_spec id id') as [E' | E']; reflexivity.
  - destruct (Nat.eqb_spec (id_of x) id') as [E' | E'].
    + destruct (Nat.eqb_spec id id'); [congruence | reflexivity].
    + exact IH.
Qed.

Lemma In_update_other (id : ObjectId) (f : A -> A) (l : list A) (d : A) :
  In d l -> id_of d <> id -> In d (findByIdAndUpdate id_of id f l).
Proof.
  induction l as [|x l IH]; intros Hin Hne; [contradiction|].
  cbn. destruct (Nat.eqb_spec (id_of x) id) as [E | E].
  - destruct Hin as [-> | Hin]; [congruence | right; exact Hin].
  - destruct Hin as [-> | Hin]; [left; reflexivity | right; auto].
Qed.

Lemma In_update_first (id : ObjectId) (f : A -> A) (l : list A) (d : A) :
  findById id_of id l = Some d -> In (f d) (findByIdAndUpdate id_of id f l).
Proof.
  unfold findById.
  induction l as [|x l IH]; intros H; [discriminate|].
  cbn in *. destruct (Nat.eqb (id_of x) id).
  - inversion H; subst. left. reflexivity.
  - right. auto.
Qed.

Lemma In_update_inv (id : ObjectId) (f : A -> A) (l : list A) (d : A) :
  In d (findByIdAndUpdate id_of id f l) ->
  In d l \/ exists d0, findById id_of id l = Some d0 /\ d = f d0.
Proof.
  unfold findById.
  induction l as [|x l IH]; intros H; [contradiction|].
  cbn in *. destruct (Nat.eqb (id_of x) id).
  - destruct H as [<- | H]; [right; eauto | left; right; exact H].
  - destruct H as [<- | H]; [left; left; reflexivity|].
    destruct (IH H) as [Hin | Hex]; [left; right; exact Hin | right; exact Hex].
Qed.

End CollectionFacts.

Section StoreFacts.

Import Model DAO.

Lemma with_services_same (st : Store) : with_services (services st) st = st.
Proof. destruct st; reflexivity. Qed.

Lemma find_none_filter {A : Type} (p : A -> bool) (l : list A) :
  find p l = None -> filter p l = [].
Proof.
  induction l as [|x l IH]; [reflexivity|]. cbn.
  destruct (p x); [discriminate | exact IH].
Qed.

Lemma find_app_some {A : Type} (p : A -> bool) (l l' : list A) (x : A) :
  find p l = Some x -> find p (l ++ l') = Some x.
Proof.
  induction l as [|y l IH]; [discriminate|]. cbn.
  destruct (p y); [auto | exact IH].
Qed.

Lemma find_app_none {A : Type} (p : A -> bool) (l l' : list A) :
  find p l = None -> find p (l ++ l') = find p l'.
Proof.
  induction l as [|y l IH]; [reflexivity|]. cbn.
  destruct (p y); [discriminate | exact IH].
Qed.

End StoreFacts.

(** ** Version checker: what a check does to the store *)

Section VersionCheck.

Import Model DAO VersionChecker StackScanner Notifier Events Spec.

(** The notification of the version check passes the validation: its
    title is trimmed already, and its message starts with a letter. *)
Lemma create_update_notification (latest name version : string)
      (service : option ObjectId) (now : Time) (st : Store) :
  NotificationDAO.create "Mise à jour disponible"
                         (update_message latest name version)
                         nt_update info service [] now st
  = Some (NotificationDAO.insert
            "Mise à jour disponible"
            (JsString.trim (update_message latest name version))
            nt_update info service [] now st).
Proof.
  unfold NotificationDAO.create.
  replace (JsString.trim "Mise à jour disponible")
    with "Mise à jour disponible" by (vm_compute; reflexivity).
  replace (required "Mise à jour disponible") with true by reflexivity.
  unfold update_message. cbn [append].
  rewrite trim_not_blank by reflexivity.
  reflexivity.
Qed.

Lemma notify_service_notified (component : Component) (latest : string)
      (now : Time) (st : Store) (s : Service) :
  notify_service component latest now st s
  = Some (notified component latest now st s).
Proof.
  unfold notify_service, notified.
  rewrite create_update_notification. reflexivity.
Qed.

(** The loop of the version check comes to its end. *)
Lemma notify_services_fold (component : Component) (latest : string)
      (now : Time) (ss : list Service) :
  forall st : Store,
    notify_services component latest now ss st
    = (fold_left (notified component latest now) ss st, true).
Proof.
  induction ss as [|s ss IH]; intros st; [reflexivity|].
  cbn [notify_services fold_left].
  rewrite notify_service_notified. apply IH.
Qed.

(** The check of a stored component whose latest version is a string. *)
Lemma check_updates_found (cid : ObjectId) (now : Time) (st : Store)
      (component : Component) (latest : string) :
  ComponentDAO.findById cid st = Some component ->
  simulateVersionCheck (c_name component) (c_type component) = Str latest ->
  check_updates (Some cid) now st
  = let updateAvailable := isNewerVersion (c_version component) latest in
    let st1 := ComponentDAO.update cid latest updateAvailable now st in
    let st2 :=
      if updateAvailable
      then fold_left (notified component latest now)
                     (ServiceDAO.findAllByComponent cid st1) st1
      else st1 in
    (st2, 200).
Proof.
  intros Hfind Hsim. unfold check_updates. rewrite Hfind, Hsim. cbn zeta.
  destruct (isNewerVersion (c_version component) latest);
    [rewrite notify_services_fold|]; reflexivity.
Qed.

Lemma notify_service_effect (component : Component) (latest : string)
      (now : Time) (st : Store) (s : Service) :
  let st' := notified component latest now st s in
  components st' = components st
  /\ (exists n, notifications st' = notifications st ++ [n]
                /\ dedup_key n = update_key component latest s)
  /\ map references (services st') = map references (services st)
  /\ map s_lastScan (services st') = map s_lastScan (services st)
  /\ next_id st' = S (next_id st).
Proof.
  unfold notified.
  destruct (Status_eqb (s_status s) secure); cbn;
    repeat split; eauto;
    apply map_update; reflexivity.
Qed.

Lemma notify_services_effect (component : Component) (latest : string)
      (now : Time) (ss : list Service) :
  forall st : Store,
    let st' := fold_left (notified component latest now) ss st in
    components st' = components st
    /\ map dedup_key (notifications st')
       = map dedup_key (notifications st) ++ map (update_key component latest) ss
    /\ map references (services st') = map references (services st)
    /\ map s_lastScan (services st') = map s_lastScan (services st).
Proof.
  induction ss as [|s ss IH]; intros st; cbn [fold_left map].
  - rewrite app_nil_r. auto.
  - destruct (notify_service_effect component latest now st s)
      as (Hc & (n & Hn & Hk) & Hr & Hl & _).
    destruct (IH (notified component latest now st s))
      as (Hc' & Hn' & Hr' & Hl').
    cbn zeta in *.
    rewrite Hc', Hn', Hr', Hl', Hc, Hn, Hr, Hl.
    rewrite map_app, <- app_assoc. cbn [map app]. rewrite Hk. auto.
Qed.

(** The services that use a component are found through their references
    alone. *)
Lemma findAll_keys (cid : ObjectId) (component : Component) (latest : string) :
  forall l l' : list Service,
    map references l = map references l' ->
    map (update_key component latest)
        (filter (fun s => existsb (Nat.eqb cid) (s_components s)) l)
    = map (update_key component latest)
          (filter (fun s => existsb (Nat.eqb cid) (s_components s)) l').
Proof.
  induction l as [|s l IH]; intros [|s' l'] H; try discriminate; [reflexivity|].
  cbn in H. inversion H as [[Hid Hcs Hrest]].
  cbn [filter]. rewrite Hcs.
  destruct (existsb (Nat.eqb cid) (s_components s')); cbn [map].
  - unfold update_key at 1 3. rewrite Hid. f_equal. apply IH, Hrest.
  - apply IH, Hrest.
Qed.

(** One check of a component for which an update is available. *)
Lemma check_updates_effect (cid : ObjectId) (now : Time) (st : Store)
      (component : Component) (latest : string) :
  ComponentDAO.findById cid st = Some component ->
  simulateVersionCheck (c_name component) (c_type component) = Str latest ->
  isNewerVersion (c_version component) latest = true ->
  let st' := fst (check_updates (Some cid) now st) in
  map dedup_key (notifications st')
  = map dedup_key (notifications st)
    ++ map (update_key component latest) (ServiceDAO.findAllByComponent cid st)
  /\ map references (services st') = map references (services st)
  /\ exists component',
       ComponentDAO.findById cid st' = Some component'
       /\ identity component' = identity component.
Proof.
  intros Hfind Hsim Hnew.
  rewrite (check_updates_found cid now st component latest Hfind Hsim), Hnew.
  cbn [fst].
  set (st1 := ComponentDAO.update cid latest true now st).
  destruct (notify_services_effect component latest now
              (ServiceDAO.findAllByComponent cid st1) st1)
    as (Hc & Hn & Hr & _).
  cbn zeta in *.
  split; [| split].
  - rewrite Hn. reflexivity.
  - rewrite Hr. reflexivity.
  - unfold ComponentDAO.findById in *. rewrite Hc.
    subst st1. unfold ComponentDAO.update. cbn [components with_components].
    rewrite findById_update by reflexivity.
    rewrite Nat.eqb_refl, Hfind. cbn. eexists. split; reflexivity.
Qed.

(** A notification whose title or message is blank is refused by the
    schema. *)
Lemma create_valid (title message : string) (type : NotificationType)
      (severity : Severity) (service : option ObjectId)
      (recipients : list ObjectId) (now : Time) (st : Store) :
  NotificationDAO.create title message type severity service recipients
                         now st
  = if String.eqb (JsString.trim title) "" || String.eqb (JsString.trim message) ""
    then None
    else Some (NotificationDAO.insert (JsString.trim title)
                 (JsString.trim message) type severity service recipients
                 now st).
Proof.
  unfold NotificationDAO.create, required.
  destruct (String.eqb (JsString.trim title) "");
    destruct (String.eqb (JsString.trim message) ""); reflexivity.
Qed.

(** POST /api/notifications with a title, a message and a type: the
    notification is stored trimmed, unless its title or its message is
    blank. *)
Lemma post_notification_created (title message : string)
      (type : NotificationType) (severity : option Severity)
      (service : option ObjectId) (recipients : option (list ObjectId))
      (now : Time) (st : Store) :
  title <> "" -> message <> "" ->
  post_notification (Some title) (Some message) (Some type) severity service
                    recipients now st
  = if String.eqb (JsString.trim title) "" || String.eqb (JsString.trim message) ""
    then (st, 500)
    else (fst (NotificationDAO.insert
                 (JsString.trim title) (JsString.trim message) type
                 (match severity with Some s => s | None => info end)
                 service
                 (match recipients with Some r => r | None => [] end)
                 now st),
          201).
Proof.
  intros Ht Hm. unfold post_notification.
  destruct title as [|a t]; [congruence|].
  destruct message as [|b m]; [congruence|].
  rewrite create_valid.
  destruct (String.eqb (JsString.trim (String a t)) "");
    destruct (String.eqb (JsString.trim (String b m)) ""); reflexivity.
Qed.

Lemma not_blank (s : string) : JsString.trim s <> "" -> s <> "".
Proof. intros H E. subst s. apply H. reflexivity. Qed.

(** C2 (as the code has it): notifications are created without a look at
    the existing ones. Each check of a component for which an update is
    available appends one notification per service that uses it, so two
    checks leave every such key twice more in the store; and a notification
    posted twice, with a title and a message that are not blank, is stored
    twice, with its message trimmed. *)
Theorem notifications_are_not_deduplicated :
  (forall (cid : ObjectId) (now1 now2 : Time) (st : Store)
          (component : Component) (latest : string),
      ComponentDAO.findById cid st = Some component ->
      simulateVersionCheck (c_name component) (c_type component) = Str latest ->
      isNewerVersion (c_version component) latest = true ->
      let st1 := fst (check_updates (Some cid) now1 st) in
      let st2 := fst (check_updates (Some cid) now2 st1) in
      let created :=
        map (update_key component latest)
            (ServiceDAO.findAllByComponent cid st) in
      map dedup_key (notifications st1)
      = map dedup_key (notifications st) ++ created
      /\ map dedup_key (notifications st2)
         = map dedup_key (notifications st) ++ created ++ created)
  /\ (forall (title message : string) (type : NotificationType)
             (severity : option Severity) (service : option ObjectId)
             (recipients : option (list ObjectId)) (now1 now2 : Time)
             (st : Store),
         JsString.trim title <> EmptyString ->
         JsString.trim message <> EmptyString ->
         let post := post_notification (Some title) (Some message) (Some type)
                                       severity service recipients in
         exists n1 n2,
           notifications (fst (post now2 (fst (post now1 st))))
           = notifications st ++ [n1; n2]
           /\ dedup_key n1 = (service, type, JsString.trim message)
           /\ dedup_key n2 = (service, type, JsString.trim message)).
Proof.
  split.
  - intros cid now1 now2 st component latest Hfind Hsim Hnew st1 st2 created.
    destruct (check_updates_effect cid now1 st component latest Hfind Hsim Hnew)
      as (Hn1 & Hr1 & component' & Hfind' & Hid).
    fold st1 in Hn1, Hr1, Hfind'.
    unfold identity in Hid. injection Hid as Hcid Hname Hversion Htype.
    rewrite <- Hname, <- Htype in Hsim. rewrite <- Hversion in Hnew.
    destruct (check_updates_effect cid now2 st1 component' latest
                                   Hfind' Hsim Hnew)
      as (Hn2 & _ & _).
    fold st2 in Hn2.
    split; [exact Hn1|].
    rewrite Hn2, Hn1, <- app_assoc. f_equal. f_equal.
    unfold ServiceDAO.findAllByComponent.
    rewrite (findAll_keys cid component' latest _ _ Hr1).
    subst created. unfold ServiceDAO.findAllByComponent.
    apply map_ext. intros s. unfold update_key. rewrite Hname, Hversion.
    reflexivity.
  - intros title message type severity service recipients now1 now2 st
           Ht Hm post. subst post.
    rewrite !post_notification_created by (apply not_blank; assumption).
    apply String.eqb_neq in Ht, Hm. rewrite Ht, Hm.
    cbn. do 2 eexists. rewrite <- app_assoc. cbn. repeat split.
Qed.

Lemma notifications_are_not_deduplicated_witness :
  let st := fst (scan (Some 1) 10 orders_api) in
  let key := (Some 1, nt_update,
              "Une nouvelle version (18.15.0) est disponible pour Node.js. Version actuelle: 16.14.0") in
  map dedup_key
      (notifications (fst (check_updates (Some 2) 30
                             (fst (check_updates (Some 2) 20 st)))))
  = [key; key].
Proof.
  intros st key.
  exact (proj2 (proj1 notifications_are_not_deduplicated 2 20 30 st
                  (mkComponent 2 "Node.js" "16.14.0" "language" None false 10)
                  "18.15.0" eq_refl eq_refl eq_refl)).
Defined.

(** C2, refuted as stated: the same version check run twice on the scanned
    service "orders-api" leaves two notifications with the same service,
    type and message. *)
Lemma check_updates_twice_duplicates_notification :
  let st := fst (scan (Some 1) 10 orders_api) in
  let once := fst (check_updates (Some 2) 20 st) in
  let twice := fst (check_updates (Some 2) 20 once) in
  let key := (Some 1, nt_update,
              "Une nouvelle version (18.15.0) est disponible pour Node.js. Version actuelle: 16.14.0") in
  List.length (filter (fun n => dedup_key_eqb (dedup_key n) key)
                      (notifications once)) = 1
  /\ List.length (filter (fun n => dedup_key_eqb (dedup_key n) key)
                         (notifications twice)) = 2.
Proof. split; vm_compute; reflexivity. Qed.

Lemma findById_updateStatus (id id' : ObjectId) (status : Status)
      (st : Store) :
  ServiceDAO.findById id' (ServiceDAO.updateStatus id status st)
  = if Nat.eqb id id'
    then option_map
           (fun s => mkService (s_id s) (s_name s) (s_components s)
                               (s_vulnerabilities s) (s_lastScan s) status)
           (ServiceDAO.findById id' st)
    else ServiceDAO.findById id' st.
Proof.
  unfold ServiceDAO.findById, ServiceDAO.updateStatus.
  cbn [services with_services].
  apply findById_update. reflexivity.
Qed.

Lemma notify_service_sets_outdated (component : Component) (latest : string)
      (now : Time) (st : Store) (s d : Service) :
  s_status s = secure ->
  ServiceDAO.findById (s_id s) st = Some d ->
  outdated_in (notified component latest now st s) (s_id s).
Proof.
  intros Hsec Hd. unfold notified, outdated_in. rewrite Hsec. cbn [Status_eqb].
  rewrite findById_updateStatus, Nat.eqb_refl.
  change (ServiceDAO.findById (s_id s) (fst (NotificationDAO.insert _ _ _ _ _ _ _ st)))
    with (ServiceDAO.findById (s_id s) st).
  rewrite Hd. cbn. eexists. split; reflexivity.
Qed.

Lemma notify_service_keeps_outdated (component : Component) (latest : string)
      (now : Time) (st : Store) (s : Service) (id : ObjectId) :
  outdated_in st id ->
  outdated_in (notified component latest now st s) id.
Proof.
  intros (d & Hd & Hout). unfold notified, outdated_in.
  destruct (Status_eqb (s_status s) secure).
  - rewrite findById_updateStatus.
    change (ServiceDAO.findById id (fst (NotificationDAO.insert _ _ _ _ _ _ _ st)))
      with (ServiceDAO.findById id st).
    rewrite Hd. destruct (Nat.eqb (s_id s) id); cbn; eauto.
  - exists d. split; [exact Hd | exact Hout].
Qed.

Lemma notify_service_keeps_stored (component : Component) (latest : string)
      (now : Time) (st : Store) (s : Service) (id : ObjectId) :
  ServiceDAO.findById id st <> None ->
  ServiceDAO.findById id (notified component latest now st s) <> None.
Proof.
  intros H. unfold notified.
  destruct (Status_eqb (s_status s) secure).
  - rewrite findById_updateStatus.
    change (ServiceDAO.findById id (fst (NotificationDAO.insert _ _ _ _ _ _ _ st)))
      with (ServiceDAO.findById id st).
    destruct (ServiceDAO.findById id st); [|congruence].
    destruct (Nat.eqb (s_id s) id); discriminate.
  - exact H.
Qed.

Lemma notify_services_set_outdated (component : Component) (latest : string)
      (now : Time) (ss : list Service) (s : Service) :
  In s ss -> s_status s = secure ->
  forall st,
    (forall s', In s' ss -> ServiceDAO.findById (s_id s') st <> None) ->
    outdated_in (fold_left (notified component latest now) ss st) (s_id s).
Proof.
  intros Hin Hsec.
  assert (Hkeep : forall l st, outdated_in st (s_id s) ->
            outdated_in (fold_left (notified component latest now) l st)
                        (s_id s)).
  { induction l as [|x l IH]; intros st H; [exact H|].
    cbn [fold_left]. apply IH, notify_service_keeps_outdated, H. }
  induction ss as [|x ss IH]; intros st Hstored; [contradiction|].
  cbn [fold_left]. destruct Hin as [-> | Hin].
  - apply Hkeep.
    destruct (ServiceDAO.findById (s_id s) st) as [d|] eqn:Hd.
    + apply (notify_service_sets_outdated _ _ _ _ _ d Hsec Hd).
    + exfalso. apply (Hstored s (or_introl eq_refl) Hd).
  - apply IH; [exact Hin|].
    intros s' Hs'. apply notify_service_keeps_stored, Hstored. right. exact Hs'.
Qed.

(** The single-component path: every secure service that uses a component
    for which an update is found is outdated after the check. *)
Lemma check_updates_marks_outdated (cid : ObjectId) (now : Time) (st : Store)
      (component : Component) (latest : string) (s : Service) :
  ComponentDAO.findById cid st = Some component ->
  simulateVersionCheck (c_name component) (c_type component) = Str latest ->
  isNewerVersion (c_version component) latest = true ->
  NoDup (map s_id (services st)) ->
  In s (ServiceDAO.findAllByComponent cid st) ->
  s_status s = secure ->
  outdated_in (fst (check_updates (Some cid) now st)) (s_id s).
Proof.
  intros Hfind Hsim Hnew Hnd Hin Hsec.
  rewrite (check_updates_found cid now st component latest Hfind Hsim), Hnew.
  cbn [fst].
  apply notify_services_set_outdated; auto.
  intros s' Hs'. unfold ServiceDAO.findAllByComponent in Hs'.
  apply filter_In in Hs'. destruct Hs' as [Hs' _].
  unfold ServiceDAO.findById.
  change (services (ComponentDAO.update cid latest true now st))
    with (services st) in *.
  rewrite (findById_unique s_id (s_id s') _ s' Hnd Hs' eq_refl). discriminate.
Qed.

Lemma check_each_frame (cs : list Component) (now : Time) :
  forall (st : Store) (results : Results),
    let st' := fst (check_each cs now st results) in
    services st' = services st
    /\ notifications st' = notifications st
    /\ next_id st' = next_id st.
Proof.
  induction cs as [|c cs IH]; intros st results; cbn [check_each].
  - cbn. auto.
  - destruct (simulateVersionCheck (c_name c) (c_type c)) as [latest|];
      [| cbn; auto].
    match goal with
    | |- context [check_each cs now ?s ?r] =>
        destruct (IH s r) as (H1 & H2 & H3)
    end.
    cbn zeta in *. rewrite H1, H2, H3. auto.
Qed.

(** C5, the batch path: [check-all-updates] writes the components only; it
    never touches a service or creates a notification. On the scanned
    service "orders-api" it records an available update for every
    component and leaves the service secure and unnotified, where the
    check of the single component Node.js makes it outdated and creates one
    update notification. *)
Theorem check_all_updates_skips_services :
  (forall (now : Time) (st : Store),
      let st' := fst (fst (check_all_updates now st)) in
      services st' = services st /\ notifications st' = notifications st)
  /\ (let st := fst (scan (Some 1) 10 orders_api) in
      let batch := fst (fst (check_all_updates 20 st)) in
      let single := fst (check_updates (Some 2) 20 st) in
      map s_status (services st) = [secure]
      /\ map c_updateAvailable (components batch) = [true; true; true]
      /\ map s_status (services batch) = [secure]
      /\ notifications batch = []
      /\ map s_status (services single) = [outdated]
      /\ map dedup_key (notifications single)
         = [(Some 1, nt_update,
             "Une nouvelle version (18.15.0) est disponible pour Node.js. Version actuelle: 16.14.0")]).
Proof.
  split.
  - intros now st. unfold check_all_updates.
    pose proof (check_each_frame (components st) now st
                  (mkResults (List.length (components st)) 0 0)) as H.
    destruct (check_each (components st) now st _) as [st1 [r|]];
      cbn in *; tauto.
  - repeat split; vm_compute; reflexivity.
Qed.

End VersionCheck.

(** ** Stack scanner: scanning again *)

Section StackScan.

Import Model DAO StackScanner Spec.

Lemma addToSet_mem (x : ObjectId) (l : list ObjectId) :
  existsb (Nat.eqb x) (ServiceDAO.addToSet x l) = true.
Proof.
  unfold ServiceDAO.addToSet.
  destruct (existsb (Nat.eqb x) l) eqn:E; [exact E|].
  rewrite existsb_app. cbn. rewrite Nat.eqb_refl. apply orb_true_r.
Qed.

Lemma addToSet_keeps (x y : ObjectId) (l : list ObjectId) :
  existsb (Nat.eqb y) l = true ->
  existsb (Nat.eqb y) (ServiceDAO.addToSet x l) = true.
Proof.
  intros H. unfold ServiceDAO.addToSet.
  destruct (existsb (Nat.eqb x) l); [exact H|].
  rewrite existsb_app. apply orb_true_iff. left. exact H.
Qed.

Lemma addToSet_present (x : ObjectId) (l : list ObjectId) :
  existsb (Nat.eqb x) l = true -> ServiceDAO.addToSet x l = l.
Proof. intros H. unfold ServiceDAO.addToSet. rewrite H. reflexivity. Qed.

(** The service that [findById] returns after [addComponent]. *)
Lemma findById_addComponent (sid cid : ObjectId) (st : Store) :
  ServiceDAO.findById sid (ServiceDAO.addComponent sid cid st)
  = option_map
      (fun s => mkService (s_id s) (s_name s)
                          (ServiceDAO.addToSet cid (s_components s))
                          (s_vulnerabilities s) (s_lastScan s) (s_status s))
      (ServiceDAO.findById sid st).
Proof.
  unfold ServiceDAO.findById, ServiceDAO.addComponent.
  cbn [services with_services].
  rewrite findById_update by reflexivity.
  rewrite Nat.eqb_refl. reflexivity.
Qed.

Lemma addComponent_noop (sid cid : ObjectId) (st : Store) :
  (forall s, ServiceDAO.findById sid st = Some s ->
             existsb (Nat.eqb cid) (s_components s) = true) ->
  ServiceDAO.addComponent sid cid st = st.
Proof.
  intros H. unfold ServiceDAO.addComponent.
  rewrite update_noop; [apply with_services_same|].
  intros s Hs. rewrite (addToSet_present _ _ (H s Hs)).
  destruct s; reflexivity.
Qed.

(** What [save_component] does, by cases on the look-up. *)
Lemma save_component_cases (sid : ObjectId) (now : Time) (st : Store)
      (name version type : string) :
  (exists c, ComponentDAO.findOne name version st = Some c
             /\ save_component sid now st (name, version, type)
                = ServiceDAO.addComponent sid (c_id c) st)
  \/ (ComponentDAO.findOne name version st = None
      /\ save_component sid now st (name, version, type)
         = ServiceDAO.addComponent
             sid (next_id st)
             (fst (ComponentDAO.create name version type now st))).
Proof.
  unfold save_component.
  destruct (ComponentDAO.findOne name version st) as [c|] eqn:E.
  - left. exists c. split; reflexivity.
  - right. split; reflexivity.
Qed.

Lemma save_component_noop (sid : ObjectId) (now : Time) (st : Store)
      (comp : Detected) :
  recorded sid st comp -> save_component sid now st comp = st.
Proof.
  destruct comp as [[name version] type]. intros (c & Hc & Hs). cbn in Hc.
  unfold save_component. rewrite Hc.
  apply addComponent_noop, Hs.
Qed.

Lemma save_component_records (sid : ObjectId) (now : Time) (st : Store)
      (comp : Detected) :
  recorded sid (save_component sid now st comp) comp.
Proof.
  destruct comp as [[name version] type]. unfold recorded. cbn [fst snd].
  destruct (save_component_cases sid now st name version type)
    as [(c & Hc & ->) | (Hnone & ->)].
  - exists c. split; [exact Hc|].
    intros s. rewrite findById_addComponent.
    destruct (ServiceDAO.findById sid st); [|discriminate].
    cbn. intros [= <-]. cbn. apply addToSet_mem.
  - eexists. split.
    + unfold ComponentDAO.findOne in *. cbn [components ComponentDAO.create fst
        ServiceDAO.addComponent with_services].
      rewrite (find_app_none _ _ _ Hnone). cbn.
      rewrite !String.eqb_refl. reflexivity.
    + intros s. rewrite findById_addComponent.
      destruct (ServiceDAO.findById sid _); [|discriminate].
      cbn. intros [= <-]. cbn. apply addToSet_mem.
Qed.

Lemma save_component_keeps (sid : ObjectId) (now : Time) (st : Store)
      (comp comp' : Detected) :
  recorded sid st comp -> recorded sid (save_component sid now st comp') comp.
Proof.
  destruct comp as [[name version] type], comp' as [[name' version'] type'].
  unfold recorded. cbn [fst snd]. intros (c & Hc & Hs).
  exists c.
  destruct (save_component_cases sid now st name' version' type')
    as [(c' & Hc' & ->) | (Hnone & ->)].
  - split; [exact Hc|].
    intros s. rewrite findById_addComponent.
    destruct (ServiceDAO.findById sid st) as [s0|]; [|discriminate].
    cbn. intros [= <-]. cbn. apply addToSet_keeps, (Hs s0 eq_refl).
  - split.
    + unfold ComponentDAO.findOne in *. cbn [components ComponentDAO.create fst
        ServiceDAO.addComponent with_services].
      apply find_app_some, Hc.
    + intros s. rewrite findById_addComponent.
      change (ServiceDAO.findById sid
                (fst (ComponentDAO.create name' version' type' now st)))
        with (ServiceDAO.findById sid st).
      destruct (ServiceDAO.findById sid st) as [s0|]; [|discriminate].
      cbn. intros [= <-]. cbn. apply addToSet_keeps, (Hs s0 eq_refl).
Qed.

Lemma save_components_keep (sid : ObjectId) (now : Time) (comp : Detected)
      (detected : list Detected) :
  forall st, recorded sid st comp ->
             recorded sid (fold_left (save_component sid now) detected st) comp.
Proof.
  induction detected as [|d l IH]; intros st H; [exact H|].
  cbn [fold_left]. apply IH, save_component_keeps, H.
Qed.

Lemma save_components_record (sid : ObjectId) (now : Time)
      (detected : list Detected) :
  forall st comp,
    In comp detected ->
    recorded sid (fold_left (save_component sid now) detected st) comp.
Proof.
  induction detected as [|d l IH]; intros st comp Hin; [contradiction|].
  cbn [fold_left]. destruct Hin as [-> | Hin].
  - apply save_components_keep, save_component_records.
  - apply IH, Hin.
Qed.

Lemma save_components_noop (sid : ObjectId) (now : Time)
      (detected : list Detected) (st : Store) :
  (forall comp, In comp detected -> recorded sid st comp) ->
  fold_left (save_component sid now) detected st = st.
Proof.
  induction detected as [|d l IH]; intros H; [reflexivity|].
  cbn [fold_left].
  rewrite (save_component_noop sid now st d) by (apply H; left; reflexivity).
  apply IH. intros comp Hin. apply H. right. exact Hin.
Qed.

Lemma updateScan_keeps (sid : ObjectId) (now : Time) (st : Store)
      (comp : Detected) :
  recorded sid st comp ->
  recorded sid (ServiceDAO.updateScan sid now secure st) comp.
Proof.
  unfold recorded. intros (c & Hc & Hs). exists c. split; [exact Hc|].
  intros s. unfold ServiceDAO.findById, ServiceDAO.updateScan in *.
  cbn [services with_services].
  rewrite findById_update by reflexivity. rewrite Nat.eqb_refl.
  destruct (findById s_id sid (services st)) as [s0|]; [|discriminate].
  cbn. intros [= <-]. cbn. apply (Hs s0 eq_refl).
Qed.

End StackScan.

Section StackScanCounts.

Import Model DAO StackScanner Spec.

Lemma at_most_one_more_refl (n : nat) : at_most_one_more n n.
Proof. unfold at_most_one_more. lia. Qed.

Lemma at_most_one_more_trans (a b c : nat) :
  at_most_one_more a b -> at_most_one_more b c -> at_most_one_more a c.
Proof. unfold at_most_one_more. lia. Qed.

Lemma count_key_save (name version : string) (sid : ObjectId) (now : Time)
      (st : Store) (comp : Detected) :
  at_most_one_more
    (count_key name version (components (save_component sid now st comp)))
    (count_key name version (components st)).
Proof.
  destruct comp as [[name' version'] type'].
  destruct (save_component_cases sid now st name' version' type')
    as [(c & _ & ->) | (Hnone & ->)].
  - apply at_most_one_more_refl.
  - cbn [components ComponentDAO.create fst ServiceDAO.addComponent
         with_services].
    unfold count_key, at_most_one_more.
    rewrite filter_app, length_app. cbn [filter].
    destruct (key_eqb name version _) eqn:E; cbn [List.length]; [|lia].
    unfold key_eqb in E. cbn in E.
    apply andb_true_iff in E. destruct E as [En Ev].
    apply String.eqb_eq in En. apply String.eqb_eq in Ev. subst name' version'.
    unfold ComponentDAO.findOne in Hnone.
    unfold key_eqb. rewrite (find_none_filter _ _ Hnone). cbn. lia.
Qed.

Lemma count_key_fold (name version : string) (sid : ObjectId) (now : Time)
      (detected : list Detected) :
  forall st,
    at_most_one_more
      (count_key name version
         (components (fold_left (save_component sid now) detected st)))
      (count_key name version (components st)).
Proof.
  induction detected as [|d l IH]; intros st; cbn [fold_left].
  - apply at_most_one_more_refl.
  - eapply at_most_one_more_trans; [apply IH | apply count_key_save].
Qed.

Lemma no_new_duplicate_refl (s : Service) : no_new_duplicate s s.
Proof. intros id. apply at_most_one_more_refl. Qed.

Lemma no_new_duplicate_trans (a b c : Service) :
  no_new_duplicate a b -> no_new_duplicate b c -> no_new_duplicate a c.
Proof.
  intros H1 H2 id. eapply at_most_one_more_trans; [apply H2 | apply H1].
Qed.

Lemma absent_count (x : ObjectId) (l : list ObjectId) :
  existsb (Nat.eqb x) l = false -> count_occ Nat.eq_dec l x = 0.
Proof.
  intros H. apply count_occ_not_In. intros Hin.
  assert (existsb (Nat.eqb x) l = true) as Ht.
  { apply existsb_exists. exists x. split; [exact Hin | apply Nat.eqb_refl]. }
  congruence.
Qed.

Lemma no_new_duplicate_addToSet (x : ObjectId) (s : Service) :
  no_new_duplicate
    s (mkService (s_id s) (s_name s) (ServiceDAO.addToSet x (s_components s))
                 (s_vulnerabilities s) (s_lastScan s) (s_status s)).
Proof.
  intros id. cbn [s_components]. unfold ServiceDAO.addToSet, at_most_one_more.
  destruct (existsb (Nat.eqb x) (s_components s)) eqn:E; [lia|].
  rewrite count_occ_app. cbn [count_occ].
  destruct (Nat.eq_dec x id) as [<- | _]; [|lia].
  rewrite (absent_count x _ E). cbn. lia.
Qed.

Lemma Forall2_same {A : Type} (R : A -> A -> Prop) (l : list A) :
  (forall d, R d d) -> Forall2 R l l.
Proof. intros H. induction l; constructor; auto. Qed.

Lemma Forall2_update {A : Type} (id_of : A -> ObjectId) (R : A -> A -> Prop)
      (id : ObjectId) (f : A -> A) (l : list A) :
  (forall d, R d d) -> (forall d, R d (f d)) ->
  Forall2 R l (findByIdAndUpdate id_of id f l).
Proof.
  intros Hrefl Hf. induction l as [|x l IH]; cbn; [constructor|].
  destruct (Nat.eqb (id_of x) id).
  - constructor; [apply Hf | apply Forall2_same, Hrefl].
  - constructor; [apply Hrefl | exact IH].
Qed.

Lemma Forall2_compose {A : Type} (R : A -> A -> Prop) :
  (forall a b c, R a b -> R b c -> R a c) ->
  forall l1 l2 l3, Forall2 R l1 l2 -> Forall2 R l2 l3 -> Forall2 R l1 l3.
Proof.
  intros Htrans l1 l2 l3 H12. revert l3.
  induction H12 as [|a b l1 l2 Hab _ IH]; intros l3 H23.
  - inversion H23. constructor.
  - inversion H23 as [|? c ? l3' Hbc Hrest]; subst.
    constructor; [eapply Htrans; eauto | apply IH, Hrest].
Qed.

Lemma references_save (sid : ObjectId) (now : Time) (st : Store)
      (comp : Detected) :
  Forall2 no_new_duplicate (services st)
          (services (save_component sid now st comp)).
Proof.
  destruct comp as [[name version] type].
  destruct (save_component_cases sid now st name version type)
    as [(c & _ & ->) | (_ & ->)];
    cbn [services ComponentDAO.create fst ServiceDAO.addComponent with_services];
    apply Forall2_update;
    auto using no_new_duplicate_refl, no_new_duplicate_addToSet.
Qed.

Lemma references_fold (sid : ObjectId) (now : Time)
      (detected : list Detected) :
  forall st,
    Forall2 no_new_duplicate (services st)
            (services (fold_left (save_component sid now) detected st)).
Proof.
  induction detected as [|d l IH]; intros st; cbn [fold_left].
  - apply Forall2_same, no_new_duplicate_refl.
  - eapply Forall2_compose;
      [exact no_new_duplicate_trans | apply references_save | apply IH].
Qed.

End StackScanCounts.

Section StackScanTwice.

Import Model DAO StackScanner Events Spec.

Lemma scan_with_found (detected : list Detected) (sid : ObjectId) (now : Time)
      (st : Store) (s : Service) :
  ServiceDAO.findById sid st = Some s ->
  fst (scan_with detected (Some sid) now st)
  = ServiceDAO.updateScan sid now secure
      (fold_left (save_component sid now) detected st).
Proof. intros H. unfold scan_with. rewrite H. reflexivity. Qed.

Lemma scan_with_missing (detected : list Detected) (sid : ObjectId)
      (now : Time) (st : Store) :
  ServiceDAO.findById sid st = None ->
  fst (scan_with detected (Some sid) now st) = st.
Proof. intros H. unfold scan_with. rewrite H. reflexivity. Qed.

(** A scan leaves every detected component recorded for the service. *)
Lemma scan_with_records (detected : list Detected) (sid : ObjectId)
      (now : Time) (st : Store) (s : Service) (comp : Detected) :
  ServiceDAO.findById sid st = Some s ->
  In comp detected ->
  recorded sid (fst (scan_with detected (Some sid) now st)) comp.
Proof.
  intros Hs Hin. rewrite (scan_with_found _ _ _ _ _ Hs).
  apply updateScan_keeps, save_components_record, Hin.
Qed.

(** C6: scanning a service a second time with the same list of detected
    components leaves the component collection as the first scan left it
    and the component references of every service as they were; and a
    scan creates a component record only for a (name, version) identity
    that has none, and adds to a service only references that it does not
    hold. *)
Theorem scan_twice_no_duplicates :
  forall (detected : list Detected) (serviceId : option ObjectId)
         (now1 now2 : Time) (st : Store),
    let st1 := fst (scan_with detected serviceId now1 st) in
    let st2 := fst (scan_with detected serviceId now2 st1) in
    components st2 = components st1
    /\ map s_components (services st2) = map s_components (services st1)
    /\ (forall name version,
           at_most_one_more (count_key name version (components st1))
                            (count_key name version (components st)))
    /\ Forall2 no_new_duplicate (services st) (services st1).
Proof.
  intros detected [sid|] now1 now2 st; cbn zeta.
  2: { cbn. repeat split;
       auto using at_most_one_more_refl, Forall2_same, no_new_duplicate_refl. }
  destruct (ServiceDAO.findById sid st) as [s|] eqn:Hs.
  - assert (Hrec : forall comp, In comp detected ->
                     recorded sid (fst (scan_with detected (Some sid) now1 st))
                              comp)
      by (intros comp Hin; eapply scan_with_records; eauto).
    rewrite (scan_with_found _ _ _ _ _ Hs) in *.
    set (st1 := ServiceDAO.updateScan sid now1 secure _) in *.
    assert (Hst2 : fst (scan_with detected (Some sid) now2 st1)
                   = st1 \/
                   fst (scan_with detected (Some sid) now2 st1)
                   = ServiceDAO.updateScan sid now2 secure st1).
    { destruct (ServiceDAO.findById sid st1) as [s1|] eqn:Hs1.
      - right. rewrite (scan_with_found _ _ _ _ _ Hs1).
        rewrite (save_components_noop sid now2 detected st1 Hrec).
        reflexivity.
      - left. apply scan_with_missing, Hs1. }
    split; [| split; [| split]].
    + destruct Hst2 as [-> | ->]; reflexivity.
    + destruct Hst2 as [-> | ->]; [reflexivity|].
      apply map_update. reflexivity.
    + intros name version. subst st1. apply count_key_fold.
    + subst st1. eapply Forall2_compose;
        [exact no_new_duplicate_trans | apply references_fold |].
      apply Forall2_update; [apply no_new_duplicate_refl|].
      intros d id. apply at_most_one_more_refl.
  - rewrite (scan_with_missing _ _ _ _ Hs).
    rewrite (scan_with_missing _ _ _ _ Hs).
    repeat split;
      auto using at_most_one_more_refl, Forall2_same, no_new_duplicate_refl.
Qed.

(** The simulated scan of "orders-api", twice: three components, three
    references. *)
Example scan_orders_api_twice :
  let once := fst (scan (Some 1) 10 orders_api) in
  let twice := fst (scan (Some 1) 20 once) in
  map identity (components twice)
  = [ (2, "Node.js", "16.14.0", "language");
      (3, "Express", "4.17.3", "framework");
      (4, "MongoDB", "5.0.6", "database") ]
  /\ components twice = components once
  /\ map s_components (services twice) = [[2; 3; 4]].
Proof. repeat split. Qed.

End StackScanTwice.

(** ** Service status over sequences of requests *)

Section StatusInvariant.

Import Model DAO VersionChecker StackScanner Events Spec.

Lemma NoDup_map_eq {A : Type} (f : A -> nat) (l : list A) (a b : A) :
  NoDup (map f l) -> In a l -> In b l -> f a = f b -> a = b.
Proof.
  induction l as [|x l IH]; intros Hnd Ha Hb Hf; [contradiction|].
  cbn in Hnd. inversion Hnd as [|? ? Hx Hl]; subst.
  destruct Ha as [-> | Ha], Hb as [-> | Hb].
  - reflexivity.
  - exfalso. apply Hx. rewrite Hf. apply in_map, Hb.
  - exfalso. apply Hx. rewrite <- Hf. apply in_map, Ha.
  - apply IH; auto.
Qed.

(** Justification survives when components are kept and the service keeps
    its status, its scan date and its references. *)
Lemma status_justified_mono (st st' : Store) (s s' : Service) :
  status_justified st s ->
  (forall c, In c (components st) -> In c (components st')) ->
  s_status s' = s_status s ->
  s_lastScan s' = s_lastScan s ->
  (forall id, In id (s_components s) -> In id (s_components s')) ->
  status_justified st' s'.
Proof.
  intros (Hu & Hv & Ho) Hc Hst Hls Hrefs. unfold status_justified.
  rewrite Hst, Hls. repeat split; try tauto.
  intros H. destruct (Ho H) as (c & Hin & Hr & Hup & Hnew).
  exists c. auto.
Qed.

Lemma addToSet_incl (x : ObjectId) (l : list ObjectId) (id : ObjectId) :
  In id l -> In id (ServiceDAO.addToSet x l).
Proof.
  intros H. unfold ServiceDAO.addToSet.
  destruct (existsb (Nat.eqb x) l); [exact H | apply in_or_app; auto].
Qed.

(** [addComponent] keeps consistency, whatever was added to the
    components at their end. *)
Lemma addComponent_consistent (sid cid : ObjectId) (st : Store) :
  consistent st -> consistent (ServiceDAO.addComponent sid cid st).
Proof.
  intros ((Hs & Hc & Hlt) & Hj). split; [split; [| split]|].
  - unfold ServiceDAO.addComponent. cbn [services with_services].
    rewrite map_update by reflexivity. exact Hs.
  - exact Hc.
  - exact Hlt.
  - intros s' Hin. unfold ServiceDAO.addComponent in Hin.
    cbn [services with_services] in Hin.
    apply In_update_inv in Hin. destruct Hin as [Hin | (s0 & Hf & ->)].
    + apply (status_justified_mono st _ s' s'); auto.
    + apply findById_In in Hf. destruct Hf as [Hin0 _].
      apply (status_justified_mono st _ s0); auto.
      intros id. cbn. apply addToSet_incl.
Qed.

Lemma create_consistent (name version type : string) (now : Time)
      (st : Store) :
  consistent st ->
  consistent (fst (ComponentDAO.create name version type now st)).
Proof.
  intros ((Hs & Hc & Hlt) & Hj). split; [split; [| split]|]; cbn.
  - exact Hs.
  - rewrite map_app. cbn.
    apply NoDup_app; [exact Hc | repeat constructor; auto |].
    intros x Hx [<- | []].
    apply in_map_iff in Hx. destruct Hx as (c & Hid & Hin).
    specialize (Hlt c Hin). lia.
  - intros c Hin. apply in_app_or in Hin. destruct Hin as [Hin | [<- | []]].
    + specialize (Hlt c Hin). lia.
    + cbn. lia.
  - intros s Hin. apply (status_justified_mono st _ s s); auto.
    intros c Hc'. cbn. apply in_or_app. auto.
Qed.

Lemma save_component_consistent (sid : ObjectId) (now : Time) (st : Store)
      (comp : Detected) :
  consistent st -> consistent (save_component sid now st comp).
Proof.
  destruct comp as [[name version] type]. intros H.
  destruct (save_component_cases sid now st name version type)
    as [(c & _ & ->) | (_ & ->)].
  - apply addComponent_consistent, H.
  - apply addComponent_consistent, create_consistent, H.
Qed.

Lemma updateScan_consistent (sid : ObjectId) (now : Time) (st : Store) :
  consistent st -> consistent (ServiceDAO.updateScan sid now secure st).
Proof.
  intros ((Hs & Hc & Hlt) & Hj). split; [split; [| split]|].
  - unfold ServiceDAO.updateScan. cbn [services with_services].
    rewrite map_update by reflexivity. exact Hs.
  - exact Hc.
  - exact Hlt.
  - intros s' Hin. unfold ServiceDAO.updateScan in Hin.
    cbn [services with_services] in Hin.
    apply In_update_inv in Hin. destruct Hin as [Hin | (s0 & Hf & ->)].
    + apply (status_justified_mono st _ s' s'); auto.
    + unfold status_justified. cbn.
      repeat split; intros; discriminate.
Qed.

Lemma scan_consistent (serviceId : option ObjectId) (now : Time) (st : Store) :
  consistent st -> consistent (fst (scan serviceId now st)).
Proof.
  intros H. unfold scan, scan_with.
  destruct serviceId as [sid|]; [|exact H].
  destruct (ServiceDAO.findById sid st); [|exact H].
  cbn [fst]. apply updateScan_consistent.
  revert st H. induction detectedComponents as [|d l IH]; intros st H.
  - exact H.
  - cbn [fold_left]. apply IH, save_component_consistent, H.
Qed.

End StatusInvariant.

Section StatusInvariantChecks.

Import Model DAO VersionChecker StackScanner Events Spec.

Lemma newer_available_identity (c c' : Component) :
  identity c = identity c' -> newer_available c = newer_available c'.
Proof.
  unfold identity, newer_available. intros H.
  injection H as Hi Hn Hv Ht. rewrite Hn, Hv, Ht. reflexivity.
Qed.

(** Writing the outcome of a check on the component it was computed for
    keeps consistency. *)
Lemma update_consistent (cid : ObjectId) (latest : string) (upd : bool)
      (now : Time) (st : Store) :
  consistent st ->
  (forall c, In c (components st) -> c_id c = cid -> upd = newer_available c) ->
  consistent (ComponentDAO.update cid latest upd now st).
Proof.
  intros ((Hs & Hc & Hlt) & Hj) Hupd.
  unfold ComponentDAO.update.
  split; [split; [| split]|]; cbn [services components next_id with_components].
  - exact Hs.
  - rewrite map_update by reflexivity. exact Hc.
  - intros c Hin. apply In_update_inv in Hin.
    destruct Hin as [Hin | (c0 & Hf & ->)]; [auto|].
    apply findById_In in Hf. destruct Hf as [Hin0 _]. cbn. auto.
  - intros s Hin. destruct (Hj s Hin) as (Hu & Hv & Ho).
    repeat split; try tauto.
    intros Hout. destruct (Ho Hout) as (c & Hcin & Href & Hflag & Hnew).
    destruct (Nat.eq_dec (c_id c) cid) as [E | E].
    + eexists. split; [| split; [| split]].
      * apply In_update_first.
        apply (findById_unique c_id cid _ c Hc Hcin E).
      * exact Href.
      * cbn. rewrite (Hupd c Hcin E). exact Hnew.
      * rewrite <- Hnew. apply newer_available_identity. reflexivity.
    + exists c. repeat split; auto.
      apply In_update_other; auto.
Qed.

(** A service found again by its [_id] in a list with the same scanned
    states is in the same scanned state. *)
Lemma scanned_state_lookup :
  forall (l l' : list Service) (s d : Service),
    map scanned_state l = map scanned_state l' ->
    NoDup (map s_id l) ->
    In s l ->
    findById s_id (s_id s) l' = Some d ->
    scanned_state d = scanned_state s.
Proof.
  unfold findById.
  induction l as [|x l IH]; intros [|x' l'] s d Hmap Hnd Hin Hfind;
    try contradiction; try discriminate.
  cbn in Hmap. injection Hmap as Hi Hcs Hls Hrest.
  cbn in Hnd. inversion Hnd as [|? ? Hnotin Hnd']; subst.
  cbn in Hfind. destruct Hin as [-> | Hin].
  - rewrite <- Hi, Nat.eqb_refl in Hfind. injection Hfind as <-.
    unfold scanned_state. congruence.
  - destruct (Nat.eqb_spec (s_id x') (s_id s)) as [E | E].
    + exfalso. apply Hnotin. rewrite Hi, E. apply in_map, Hin.
    + eapply IH; eauto.
Qed.

Lemma create_notification_consistent (title message : string)
      (type : NotificationType) (severity : Severity)
      (service : option ObjectId) (recipients : list ObjectId) (now : Time)
      (st : Store) :
  consistent st ->
  consistent (fst (NotificationDAO.insert title message type severity service
                                          recipients now st)).
Proof.
  intros ((Hs & Hc & Hlt) & Hj). split; [split; [| split]|]; cbn; auto.
  intros c Hin. specialize (Hlt c Hin). lia.
Qed.

(** One turn of the loop over the services that use the component [c],
    for which an update has just been recorded. *)
Lemma notify_service_consistent (component : Component) (latest : string)
      (now : Time) (st0 st : Store) (s : Service) (c : Component) :
  consistent st ->
  NoDup (map s_id (services st0)) ->
  map scanned_state (services st) = map scanned_state (services st0) ->
  In s (services st0) ->
  (s_status s = secure -> s_lastScan s <> None) ->
  In c (components st) ->
  In (c_id c) (s_components s) ->
  c_updateAvailable c = true ->
  newer_available c = true ->
  consistent (notified component latest now st s).
Proof.
  intros Hcons Hnd Hmap Hin Hscan Hc Href Hflag Hnew.
  unfold notified.
  set (st1 := fst (NotificationDAO.insert _ _ _ _ _ _ _ st)).
  assert (H1 : consistent st1) by (apply create_notification_consistent, Hcons).
  destruct (Status_eqb (s_status s) secure) eqn:Hsec; [|exact H1].
  assert (Hst : s_status s = secure) by (destruct (s_status s); auto; discriminate).
  destruct H1 as ((Hs1 & Hc1 & Hlt1) & Hj1).
  unfold ServiceDAO.updateStatus.
  split; [split; [| split]|]; cbn [services components next_id with_services].
  - rewrite map_update by reflexivity. exact Hs1.
  - exact Hc1.
  - exact Hlt1.
  - intros s' Hin'. apply In_update_inv in Hin'.
    destruct Hin' as [Hin' | (d & Hf & ->)].
    + apply (status_justified_mono st1 _ s' s'); auto.
    + change (services st1) with (services st) in Hf.
      assert (Hd : scanned_state d = scanned_state s).
      { apply (scanned_state_lookup (services st0) (services st)); auto. }
      unfold scanned_state in Hd. injection Hd as Hdid Hcomps Hls.
      unfold status_justified. cbn.
      repeat split; try discriminate.
      * intros Hnone. rewrite Hls in Hnone. exfalso. apply (Hscan Hst Hnone).
      * intros _. exists c. rewrite Hcomps. auto.
Qed.

Lemma notify_services_consistent (component : Component) (latest : string)
      (now : Time) (st0 : Store) (c : Component) (ss : list Service) :
  NoDup (map s_id (services st0)) ->
  (forall s, In s ss ->
             In s (services st0)
             /\ (s_status s = secure -> s_lastScan s <> None)
             /\ In (c_id c) (s_components s)) ->
  c_updateAvailable c = true ->
  newer_available c = true ->
  forall st,
    consistent st ->
    map scanned_state (services st) = map scanned_state (services st0) ->
    In c (components st) ->
    consistent (fold_left (notified component latest now) ss st).
Proof.
  intros Hnd Hss Hflag Hnew.
  induction ss as [|s ss IH]; intros st Hcons Hmap Hc; [exact Hcons|].
  cbn [fold_left].
  destruct (Hss s (or_introl eq_refl)) as (Hin & Hscan & Href).
  apply IH.
  - intros s' Hin'. apply Hss. right. exact Hin'.
  - eapply notify_service_consistent; eauto.
  - rewrite <- Hmap.
    unfold notified.
    destruct (Status_eqb (s_status s) secure); [|reflexivity].
    unfold ServiceDAO.updateStatus. cbn [services with_services].
    apply map_update. reflexivity.
  - destruct (notify_service_effect component latest now st s) as (Hcomp & _).
    cbn zeta in Hcomp. rewrite Hcomp. exact Hc.
Qed.

Lemma check_updates_consistent (componentId : option ObjectId) (now : Time)
      (st : Store) :
  consistent st -> consistent (fst (check_updates componentId now st)).
Proof.
  intros Hcons.
  destruct componentId as [cid|]; [|exact Hcons].
  destruct (ComponentDAO.findById cid st) as [component|] eqn:Hfind;
    [| unfold check_updates; rewrite Hfind; exact Hcons].
  destruct (simulateVersionCheck (c_name component) (c_type component))
    as [latest|] eqn:Hsim;
    [| unfold check_updates; rewrite Hfind, Hsim; exact Hcons].
  rewrite (check_updates_found cid now st component latest Hfind Hsim).
  cbn [fst].
  set (upd := isNewerVersion (c_version component) latest).
  set (st1 := ComponentDAO.update cid latest upd now st).
  pose proof Hcons as ((Hs & Hc & Hlt) & Hj).
  apply findById_In in Hfind as Hcomp. destruct Hcomp as [Hcin Hcid].
  assert (Hupd : upd = newer_available component).
  { unfold newer_available. rewrite Hsim. reflexivity. }
  assert (H1 : consistent st1).
  { apply update_consistent; [exact Hcons|].
    intros c Hin Hid.
    rewrite (NoDup_map_eq c_id _ c component Hc Hin Hcin) by congruence.
    exact Hupd. }
  destruct upd eqn:Eupd; [|exact H1].
  set (c' := mkComponent (c_id component) (c_name component)
                         (c_version component) (c_type component)
                         (Some (JsString.trim latest)) true now).
  apply (notify_services_consistent component latest now st1 c').
  - apply H1.
  - intros s Hin. unfold ServiceDAO.findAllByComponent in Hin.
    apply filter_In in Hin. destruct Hin as [Hin Huses].
    split; [exact Hin | split].
    + intros Hsec Hnone.
      destruct H1 as (_ & Hj1). destruct (Hj1 s Hin) as (Hu & _).
      apply Hu in Hnone. congruence.
    + apply existsb_exists in Huses. destruct Huses as (x & Hx & Hxe).
      apply Nat.eqb_eq in Hxe. subst x. cbn. rewrite Hcid. exact Hx.
  - reflexivity.
  - rewrite Hupd. apply newer_available_identity. reflexivity.
  - exact H1.
  - reflexivity.
  - subst st1 c'. unfold ComponentDAO.update.
    cbn [components with_components].
    exact (In_update_first
             c_id cid
             (fun c => mkComponent (c_id c) (c_name c) (c_version c) (c_type c)
                                   (Some (JsString.trim latest)) true now)
             (components st) component Hfind).
Qed.

End StatusInvariantChecks.

Section StatusInvariantRuns.

Import Model DAO VersionChecker StackScanner Events Spec.

Lemma identity_lookup (l l' : list Component) (c c' : Component) :
  map identity l = map identity l' ->
  NoDup (map c_id l) ->
  In c l -> In c' l' -> c_id c = c_id c' ->
  identity c = identity c'.
Proof.
  intros Hmap Hnd Hc Hc' Hid.
  assert (Hin : In (identity c') (map identity l))
    by (rewrite Hmap; apply in_map, Hc').
  apply in_map_iff in Hin. destruct Hin as (c'' & Hident & Hc'').
  assert (c'' = c).
  { apply (NoDup_map_eq c_id l); auto.
    unfold identity in Hident. injection Hident as Hi _ _ _. congruence. }
  subst c''. exact Hident.
Qed.

Lemma check_each_consistent (cs0 : list Component) (now : Time) :
  forall (cs : list Component) (st : Store) (results : Results),
    consistent st ->
    map identity (components st) = map identity cs0 ->
    (forall c, In c cs -> In c cs0) ->
    consistent (fst (check_each cs now st results)).
Proof.
  induction cs as [|comp cs IH]; intros st results Hcons Hmap Hsub;
    cbn [check_each]; [exact Hcons|].
  destruct (simulateVersionCheck (c_name comp) (c_type comp))
    as [latest|] eqn:Hsim; [|exact Hcons].
  apply IH.
  - apply update_consistent; [exact Hcons|].
    intros c Hin Hid.
    destruct Hcons as ((_ & Hc & _) & _).
    rewrite (newer_available_identity c comp).
    + unfold newer_available. rewrite Hsim. reflexivity.
    + apply (identity_lookup (components st) cs0); auto.
      apply Hsub. left. reflexivity.
  - rewrite <- Hmap. unfold ComponentDAO.update.
    cbn [components with_components]. apply map_update. reflexivity.
  - intros c Hin. apply Hsub. right. exact Hin.
Qed.

Lemma check_all_updates_consistent (now : Time) (st : Store) :
  consistent st -> consistent (fst (fst (check_all_updates now st))).
Proof.
  intros Hcons. unfold check_all_updates.
  pose proof (check_each_consistent (components st) now (components st) st
                (mkResults (List.length (components st)) 0 0)
                Hcons eq_refl (fun c H => H)) as H.
  destruct (check_each (components st) now st _) as [st' [r|]]; exact H.
Qed.

Lemma step_consistent (st : Store) (e : Event) :
  consistent st -> consistent (step st e).
Proof.
  destruct e as [serviceId now | componentId now | now]; cbn [step].
  - apply scan_consistent.
  - apply check_updates_consistent.
  - apply check_all_updates_consistent.
Qed.

Lemma run_consistent (events : list Event) :
  forall st, consistent st -> consistent (run events st).
Proof.
  unfold run. induction events as [|e l IH]; intros st H; [exact H|].
  cbn [fold_left]. apply IH, step_consistent, H.
Qed.

Lemma unscanned_consistent (st : Store) :
  distinct_ids st -> unscanned st -> consistent st.
Proof.
  intros Hd Hu. split; [exact Hd|].
  intros s Hin. destruct (Hu s Hin) as [Hst Hls].
  unfold status_justified. rewrite Hst, Hls.
  repeat split; intros; discriminate.
Qed.

(** A scan that finds its service leaves it secure, whatever it
    references. *)
Lemma scan_sets_secure (sid : ObjectId) (now : Time) (st : Store)
      (s0 s : Service) :
  ServiceDAO.findById sid st = Some s0 ->
  ServiceDAO.findById sid (fst (scan (Some sid) now st)) = Some s ->
  s_status s = secure /\ s_lastScan s = Some now.
Proof.
  intros H0. unfold scan. rewrite (scan_with_found _ _ _ _ _ H0).
  unfold ServiceDAO.findById, ServiceDAO.updateScan.
  cbn [services with_services].
  rewrite findById_update by reflexivity. rewrite Nat.eqb_refl.
  destruct (findById s_id sid _); [|discriminate].
  cbn. intros [= <-]. cbn. auto.
Qed.

(** C1 (as the code has it): the status is set by the requests. After any
    sequence of scan and version-check requests on a store with distinct
    ids in which no service was scanned yet, a service is unknown exactly
    when it was never scanned, it is not vulnerable, and it is outdated
    only if one of the components it references has an update available.
    A scan that finds its service leaves it secure, whatever the service
    references; and the check of a single component for which an update is
    found leaves every secure service that uses it outdated. *)
Theorem status_after_scans_and_checks :
  (forall (events : list Event) (st : Store),
      distinct_ids st ->
      unscanned st ->
      forall s, In s (services (run events st)) ->
                (s_status s = unknown <-> s_lastScan s = None)
                /\ s_status s <> vulnerable
                /\ (s_status s = outdated -> has_update (run events st) s))
  /\ (forall (sid : ObjectId) (now : Time) (st : Store) (s0 s : Service),
         ServiceDAO.findById sid st = Some s0 ->
         ServiceDAO.findById sid (fst (scan (Some sid) now st)) = Some s ->
         s_status s = secure)
  /\ (forall (cid : ObjectId) (now : Time) (st : Store)
             (component : Component) (latest : string) (s : Service),
         ComponentDAO.findById cid st = Some component ->
         simulateVersionCheck (c_name component) (c_type component)
         = Str latest ->
         isNewerVersion (c_version component) latest = true ->
         NoDup (map s_id (services st)) ->
         In s (ServiceDAO.findAllByComponent cid st) ->
         s_status s = secure ->
         outdated_in (fst (check_updates (Some cid) now st)) (s_id s)).
Proof.
  split; [| split].
  3: { intros. eapply check_updates_marks_outdated; eauto. }
  - intros events st Hd Hu s Hin.
    destruct (run_consistent events st (unscanned_consistent st Hd Hu))
      as (_ & Hj).
    destruct (Hj s Hin) as (Hunk & Hvul & Hout).
    repeat split; try tauto.
    intros H. destruct (Hout H) as (c & Hc & Href & Hflag & _).
    exists c. auto.
  - intros sid now st s0 s H0 H.
    apply (scan_sets_secure sid now st s0 s H0 H).
Qed.

Lemma status_after_scans_and_checks_witness :
  let events := [Scan (Some 1) 10; CheckUpdates (Some 2) 20] in
  let s := mkService 1 "orders-api" [2; 3; 4] [] (Some 10) outdated in
  In s (services (run events orders_api))
  /\ has_update (run events orders_api) s.
Proof.
  intros events s.
  assert (Hin : In s (services (run events orders_api)))
    by (left; vm_compute; reflexivity).
  split; [exact Hin|].
  apply (proj1 status_after_scans_and_checks events orders_api).
  - repeat split; cbn; repeat constructor; cbn; intuition.
  - intros x [<- | []]. split; reflexivity.
  - exact Hin.
  - reflexivity.
Defined.

(** C1, refuted as stated: "orders-api" is scanned, an update is found for
    its component Node.js, and it is scanned again; the second scan makes
    it secure while the component still has its update available, for
    which the invariants prescribe outdated. *)
Lemma rescan_hides_available_update :
  let st := run [Scan (Some 1) 10; CheckUpdates (Some 2) 20; Scan (Some 1) 30]
                orders_api in
  map c_updateAvailable (components st) = [true; false; false]
  /\ map s_components (services st) = [[2; 3; 4]]
  /\ map s_status (services st) = [secure]
  /\ map (prescribed_status st) (services st) = [outdated].
Proof. repeat split; vm_compute; reflexivity. Qed.

End StatusInvariantRuns.

(** * Further properties *)

(** ** Notifications: reading and deleting *)

Section UpdateAndDeleteById.

Import Model DAO Queries.

Context {A : Type} (id_of : A -> ObjectId).

Lemma filter_keeps_all (p : A -> bool) (l : list A) :
  (forall d, In d l -> p d = true) -> filter p l = l.
Proof.
  induction l as [|x l IH]; intros H; [reflexivity|]. cbn.
  rewrite (H x (or_introl eq_refl)). f_equal. apply IH.
  intros d Hd. apply H. right. exact Hd.
Qed.

Lemma other_ids (id : ObjectId) (x : A) (l : list A) :
  NoDup (map id_of (x :: l)) -> id_of x = id ->
  forall d, In d l -> Nat.eqb (id_of d) id = false.
Proof.
  intros Hnd Hx d Hd. cbn in Hnd. inversion Hnd as [|? ? Hnotin _]; subst.
  apply Nat.eqb_neq. intros E. apply Hnotin. rewrite <- E. apply in_map, Hd.
Qed.

(** With distinct [_id]s, deleting by [_id] removes the documents of that
    [_id]. *)
Lemma delete_filter (id : ObjectId) (l : list A) :
  NoDup (map id_of l) ->
  findByIdAndDelete id_of id l
  = filter (fun d => negb (Nat.eqb (id_of d) id)) l.
Proof.
  induction l as [|x l IH]; intros Hnd; [reflexivity|]. cbn.
  destruct (Nat.eqb_spec (id_of x) id) as [E | E]; cbn.
  - symmetry. apply filter_keeps_all. intros d Hd.
    rewrite (other_ids id x l Hnd E d Hd). reflexivity.
  - f_equal. apply IH. cbn in Hnd. inversion Hnd; assumption.
Qed.

(** With distinct [_id]s, updating by [_id] rewrites the documents of that
    [_id]. *)
Lemma update_map (id : ObjectId) (f : A -> A) (l : list A) :
  NoDup (map id_of l) ->
  findByIdAndUpdate id_of id f l
  = map (fun d => if Nat.eqb (id_of d) id then f d else d) l.
Proof.
  induction l as [|x l IH]; intros Hnd; [reflexivity|]. cbn.
  destruct (Nat.eqb_spec (id_of x) id) as [E | E]; cbn; f_equal.
  - symmetry. rewrite <- (map_id l) at 2. apply map_ext_in. intros d Hd.
    rewrite (other_ids id x l Hnd E d Hd). reflexivity.
  - apply IH. cbn in Hnd. inversion Hnd; assumption.
Qed.

Lemma delete_length (id : ObjectId) (l : list A) (d : A) :
  findById id_of id l = Some d ->
  S (List.length (findByIdAndDelete id_of id l)) = List.length l.
Proof.
  unfold findById. induction l as [|x l IH]; intros H; [discriminate|].
  cbn in *. destruct (Nat.eqb (id_of x) id); [reflexivity|].
  cbn. f_equal. apply IH, H.
Qed.

Lemma delete_noop (id : ObjectId) (l : list A) :
  findById id_of id l = None -> findByIdAndDelete id_of id l = l.
Proof.
  unfold findById. induction l as [|x l IH]; intros H; [reflexivity|].
  cbn in *. destruct (Nat.eqb (id_of x) id); [discriminate|].
  f_equal. apply IH, H.
Qed.

Lemma In_delete (id : ObjectId) (l : list A) (d : A) :
  In d (findByIdAndDelete id_of id l) -> In d l.
Proof.
  induction l as [|x l IH]; intros H; [contradiction|].
  cbn in H. destruct (Nat.eqb (id_of x) id); [right; exact H|].
  destruct H as [-> | H]; [left; reflexivity | right; auto].
Qed.

Lemma In_delete_other (id : ObjectId) (l : list A) (d : A) :
  In d l -> id_of d <> id -> In d (findByIdAndDelete id_of id l).
Proof.
  induction l as [|x l IH]; intros Hin Hne; [contradiction|].
  cbn. destruct (Nat.eqb_spec (id_of x) id) as [E | E].
  - destruct Hin as [-> | Hin]; [congruence | exact Hin].
  - destruct Hin as [-> | Hin]; [left; reflexivity | right; auto].
Qed.

End UpdateAndDeleteById.

Section ReadingNotifications.

Import Model DAO DAO.NotificationDAO Queries Routes Spec.

Lemma filter_swap {A : Type} (p q : A -> bool) (l : list A) :
  filter p (filter q l) = filter q (filter p l).
Proof.
  induction l as [|x l IH]; [reflexivity|]. cbn.
  destruct (p x) eqn:Ep, (q x) eqn:Eq; cbn; rewrite ?Ep, ?Eq, IH; reflexivity.
Qed.

Lemma with_notifications_same (st : Store) :
  with_notifications (notifications st) st = st.
Proof. destruct st; reflexivity. Qed.

Lemma unread_after_mark_all (u v : ObjectId) (l : list Notification) :
  filter (unread_for v)
         (map (fun n => if unread_for u n then mark_read n else n) l)
  = filter (fun n => negb (addressed_to u n)) (filter (unread_for v) l).
Proof.
  induction l as [|n l IH]; [reflexivity|]. cbn [map filter].
  rewrite IH. clear IH.
  destruct (unread_for u n) eqn:Eu.
  - assert (Ha : addressed_to u n = true).
    { unfold unread_for in Eu. apply andb_true_iff in Eu. apply Eu. }
    replace (unread_for v (mark_read n)) with false
      by (unfold unread_for; cbn; rewrite andb_false_r; reflexivity).
    destruct (unread_for v n); [|reflexivity].
    cbn [filter]. rewrite Ha. reflexivity.
  - destruct (unread_for v n) eqn:Ev; [|reflexivity].
    assert (Ha : addressed_to u n = false).
    { unfold unread_for, addressed_to in *.
      apply andb_true_iff in Ev. destruct Ev as [_ Hr].
      rewrite Hr, andb_true_r in Eu. exact Eu. }
    cbn [filter]. rewrite Ha. reflexivity.
Qed.

(** X1: after [markAllAsRead u] the user [u] has no unread notification
    left, and a second call changes nothing and reports no modification.
    The [read] flag belongs to the notification, not to the recipient: the
    call also takes out of the unread list of any other user [v] the
    notifications that [v] shares with [u], and nothing else. *)
Theorem markAllAsRead_clears_unread :
  forall (u : ObjectId) (st : Store),
    let st' := fst (markAllAsRead u st) in
    findUnreadByUser u st' = []
    /\ (forall v : ObjectId,
           findUnreadByUser v st'
           = filter (fun n => negb (addressed_to u n)) (findUnreadByUser v st))
    /\ markAllAsRead u st' = (st', 0).
Proof.
  intros u st st'.
  assert (Hv : forall v, findUnreadByUser v st'
                         = filter (fun n => negb (addressed_to u n))
                                  (findUnreadByUser v st)).
  { intros v. subst st'. unfold findUnreadByUser, markAllAsRead. cbn.
    apply unread_after_mark_all. }
  assert (Hu : findUnreadByUser u st' = []).
  { rewrite Hv. unfold findUnreadByUser.
    induction (notifications st) as [|n l IH]; [reflexivity|]. cbn.
    destruct (unread_for u n) eqn:E; [|exact IH]. cbn.
    unfold unread_for in E. apply andb_true_iff in E. destruct E as [E _].
    unfold addressed_to. rewrite E. exact IH. }
  split; [exact Hu | split; [exact Hv|]].
  assert (Hnone : forall n, In n (notifications st') -> unread_for u n = false).
  { intros n Hin. destruct (unread_for u n) eqn:E; [|reflexivity].
    assert (In n (findUnreadByUser u st')) as Hin'
      by (unfold findUnreadByUser; apply filter_In; auto).
    rewrite Hu in Hin'. contradiction. }
  assert (Hmap : map (fun n => if unread_for u n then mark_read n else n)
                     (notifications st')
                 = notifications st').
  { rewrite <- (map_id (notifications st')) at 2.
    apply map_ext_in. intros n Hin. rewrite (Hnone n Hin). reflexivity. }
  unfold markAllAsRead at 1. rewrite Hmap, with_notifications_same.
  change (filter (unread_for u) (notifications st'))
    with (findUnreadByUser u st').
  rewrite Hu. reflexivity.
Qed.

Lemma unread_after_mark (id v : ObjectId) (l : list Notification) :
  filter (unread_for v)
         (map (fun n => if Nat.eqb (n_id n) id then mark_read n else n) l)
  = filter (fun n => negb (Nat.eqb (n_id n) id)) (filter (unread_for v) l).
Proof.
  induction l as [|n l IH]; [reflexivity|]. cbn [map filter]. rewrite IH.
  destruct (Nat.eqb (n_id n) id) eqn:E.
  - replace (unread_for v (mark_read n)) with false
      by (unfold unread_for; cbn; rewrite andb_false_r; reflexivity).
    destruct (unread_for v n); cbn; rewrite ?E; reflexivity.
  - destruct (unread_for v n); cbn; rewrite ?E; reflexivity.
Qed.

(** X2: PUT /api/notifications/:id/read answers 404 and leaves the store
    as it is when no notification has the [_id]. Otherwise it answers 200
    and sets the [read] flag of that notification and nothing else; with
    distinct [_id]s the notification leaves the unread list of every user,
    and these lists lose nothing else. *)
Theorem put_read_marks_one :
  forall (id : ObjectId) (st : Store),
    (findById n_id id (notifications st) = None -> put_read id st = (st, 404))
    /\ (forall n : Notification,
           findById n_id id (notifications st) = Some n ->
           NoDup (map n_id (notifications st)) ->
           let st' := fst (put_read id st) in
           snd (put_read id st) = 200
           /\ notifications st'
              = map (fun m => if Nat.eqb (n_id m) id then mark_read m else m)
                    (notifications st)
           /\ findById n_id id (notifications st') = Some (mark_read n)
           /\ (forall v : ObjectId,
                  findUnreadByUser v st'
                  = filter (fun m => negb (Nat.eqb (n_id m) id))
                           (findUnreadByUser v st))
           /\ components st' = components st
           /\ services st' = services st
           /\ reports st' = reports st).
Proof.
  intros id st. split.
  - intros Hnone. unfold put_read, markAsRead. rewrite Hnone. cbn.
    rewrite update_noop by (intros d Hd; congruence).
    rewrite with_notifications_same. reflexivity.
  - intros n Hn Hnd st'.
    assert (Hst' : st' = with_notifications
                           (map (fun m => if Nat.eqb (n_id m) id
                                          then mark_read m else m)
                                (notifications st)) st).
    { subst st'. unfold put_read, markAsRead. rewrite Hn. cbn.
      rewrite (update_map n_id id mark_read _ Hnd). reflexivity. }
    split; [unfold put_read, markAsRead; rewrite Hn; reflexivity|].
    split; [rewrite Hst'; reflexivity|].
    split; [| split; [| rewrite Hst'; repeat split]].
    + rewrite Hst'. cbn [notifications with_notifications].
      rewrite <- (update_map n_id id mark_read _ Hnd).
      rewrite findById_update by reflexivity.
      rewrite Nat.eqb_refl, Hn. reflexivity.
    + intros v. rewrite Hst'. unfold findUnreadByUser. cbn.
      apply unread_after_mark.
Qed.

Lemma put_read_marks_one_witness :
  let n1 := mkNotification 5 1 1 "a" "b" nt_update info (Some 1) false [7; 8] in
  let n2 := mkNotification 6 2 2 "c" "d" nt_system low None false [8] in
  let st := mkStore [] [] [] [n1; n2] [] 9 in
  findUnreadByUser 8 (fst (put_read 5 st))
  = filter (fun m => negb (Nat.eqb (n_id m) 5)) (findUnreadByUser 8 st).
Proof.
  intros n1 n2 st.
  apply (proj2 (put_read_marks_one 5 st) n1).
  - reflexivity.
  - cbn. repeat constructor; cbn; intuition discriminate.
Defined.

(** X3: DELETE /api/notifications/:id answers 404 and leaves the store as
    it is when no notification has the [_id]. Otherwise it answers 200 and
    removes one notification: no notification is added, and those of
    another [_id] stay; with distinct [_id]s the [_id] can no longer be
    found and every user's list loses that notification only. *)
Theorem delete_notification_removes_one :
  forall (id : ObjectId) (st : Store),
    (findById n_id id (notifications st) = None ->
     delete_notification id st = (st, 404))
    /\ (forall n : Notification,
           findById n_id id (notifications st) = Some n ->
           let st' := fst (delete_notification id st) in
           snd (delete_notification id st) = 200
           /\ S (List.length (notifications st'))
              = List.length (notifications st)
           /\ (forall m, In m (notifications st') -> In m (notifications st))
           /\ (forall m, In m (notifications st) -> n_id m <> id ->
                         In m (notifications st'))
           /\ (NoDup (map n_id (notifications st)) ->
               findById n_id id (notifications st') = None
               /\ forall v : ObjectId,
                   findByUser v st'
                   = filter (fun m => negb (Nat.eqb (n_id m) id))
                            (findByUser v st))).
Proof.
  intros id st. split.
  - intros Hnone. unfold delete_notification, deleteNotification.
    rewrite Hnone, (delete_noop n_id id _ Hnone), with_notifications_same.
    reflexivity.
  - intros n Hn st'.
    assert (Hst' : notifications st'
                   = findByIdAndDelete n_id id (notifications st)).
    { subst st'. unfold delete_notification, deleteNotification.
      rewrite Hn. reflexivity. }
    split; [unfold delete_notification, deleteNotification;
            rewrite Hn; reflexivity|].
    rewrite Hst'.
    split; [apply (delete_length n_id id _ n Hn)|].
    split; [intros m; apply In_delete|].
    split; [intros m; apply In_delete_other|].
    intros Hnd. rewrite (delete_filter n_id id _ Hnd) in Hst'. split.
    + rewrite (delete_filter n_id id _ Hnd).
      destruct (findById n_id id (filter _ (notifications st)))
        as [m|] eqn:E; [|reflexivity].
      apply findById_In in E. destruct E as [Hin Hid].
      apply filter_In in Hin. destruct Hin as [_ Hne].
      rewrite Hid, Nat.eqb_refl in Hne. discriminate.
    + intros v. unfold findByUser. rewrite Hst'. apply filter_swap.
Qed.

Lemma delete_notification_removes_one_witness :
  let n1 := mkNotification 5 1 1 "a" "b" nt_update info (Some 1) false [7; 8] in
  let n2 := mkNotification 6 2 2 "c" "d" nt_system low None false [8] in
  let st := mkStore [] [] [] [n1; n2] [] 9 in
  S (List.length (notifications (fst (delete_notification 6 st)))) = 2.
Proof.
  intros n1 n2 st.
  apply (proj1 (proj2 (proj2 (delete_notification_removes_one 6 st) n2 eq_refl))).
Defined.

End ReadingNotifications.

(** ** Version checker: further properties *)

Section VersionOrder.

Import JsNum JsString VersionChecker.

Lemma lt_irrefl (x : jsnum) : lt x x = false.
Proof.
  destruct x as [| [|] | q]; try reflexivity.
  cbn. destruct (Qcompare_spec q q) as [_ | H | H]; try reflexivity;
    exfalso; apply (Qlt_irrefl q H).
Qed.

Lemma lt_asym (x y : jsnum) : lt x y = true -> lt y x = false.
Proof.
  destruct x as [| [|] | p], y as [| [|] | q]; cbn; try congruence.
  destruct (Qcompare_spec p q) as [_ | H | _]; try discriminate. intros _.
  destruct (Qcompare_spec q p) as [_ | H' | _]; try reflexivity.
  exfalso. apply (Qlt_irrefl p). eapply Qlt_trans; eauto.
Qed.

Lemma compare_from_same (l : list jsnum) :
  forall n i, compare_from n i l l = false.
Proof.
  induction n as [|n IH]; intros i; [reflexivity|].
  cbn [compare_from]. unfold gt. rewrite lt_irrefl. apply IH.
Qed.

Lemma compare_from_asym (a b : list jsnum) :
  forall n i, compare_from n i a b = true -> compare_from n i b a = false.
Proof.
  induction n as [|n IH]; intros i; [discriminate|].
  cbn [compare_from]. unfold gt.
  destruct (lt (part a i) (part b i)) eqn:E1.
  - intros _. rewrite (lt_asym _ _ E1). reflexivity.
  - destruct (lt (part b i) (part a i)) eqn:E2; [discriminate|].
    apply IH.
Qed.

(** X4: [isNewerVersion] is a strict comparison on all strings, numeric or
    not: no version is newer than itself, and of two versions at most one
    is newer than the other. *)
Theorem isNewerVersion_strict :
  (forall v : string, isNewerVersion v v = false)
  /\ (forall a b : string,
         isNewerVersion a b = true -> isNewerVersion b a = false).
Proof.
  split.
  - intros v. unfold isNewerVersion. apply compare_from_same.
  - intros a b. unfold isNewerVersion.
    rewrite (Nat.max_comm (List.length (map Number (split b)))).
    apply compare_from_asym.
Qed.

Lemma isNewerVersion_strict_witness :
  isNewerVersion "16.14.0" "18.15.0" = true
  /\ isNewerVersion "18.15.0" "16.14.0" = false.
Proof.
  split.
  - vm_compute. reflexivity.
  - apply (proj2 isNewerVersion_strict "16.14.0" "18.15.0").
    vm_compute. reflexivity.
Defined.

End VersionOrder.

Section CheckingUpdates.

Import JsNum JsString Model DAO VersionChecker Queries Routes Spec Predicates.

Lemma existsb_filter_unique {A : Type} (id_of : A -> ObjectId)
      (p q : A -> bool) (l : list A) (d : A) :
  NoDup (map id_of l) -> In d l ->
  existsb (fun s => Nat.eqb (id_of d) (id_of s) && q s) (filter p l)
  = p d && q d.
Proof.
  intros Hnd Hd.
  destruct (existsb _ (filter p l)) eqn:E.
  - apply existsb_exists in E. destruct E as (s & Hin & Hs).
    apply filter_In in Hin. destruct Hin as [Hin Hp].
    apply andb_true_iff in Hs. destruct Hs as [Hid Hq].
    apply Nat.eqb_eq in Hid.
    assert (d = s) by (eapply NoDup_map_eq; eauto). subst s.
    rewrite Hp, Hq. reflexivity.
  - destruct (p d && q d) eqn:E2; [|reflexivity].
    apply andb_true_iff in E2. destruct E2 as [Hp Hq].
    assert (Hex : existsb (fun s => Nat.eqb (id_of d) (id_of s) && q s)
                          (filter p l) = true).
    { apply existsb_exists. exists d. split.
      - apply filter_In. auto.
      - rewrite Nat.eqb_refl, Hq. reflexivity. }
    congruence.
Qed.

Lemma notify_service_ids (component : Component) (latest : string)
      (now : Time) (st : Store) (s : Service) :
  map s_id (services (notified component latest now st s))
  = map s_id (services st).
Proof.
  unfold notified. destruct (Status_eqb (s_status s) secure); cbn;
    [apply map_update; reflexivity | reflexivity].
Qed.

Lemma notify_service_statuses (component : Component) (latest : string)
      (now : Time) (st : Store) (s : Service) :
  NoDup (map s_id (services st)) ->
  services (notified component latest now st s)
  = map (fun d => if Nat.eqb (s_id d) (s_id s)
                     && Status_eqb (s_status s) secure
                  then outdate d else d)
        (services st).
Proof.
  intros Hnd. unfold notified.
  destruct (Status_eqb (s_status s) secure); cbn.
  - rewrite (update_map s_id) by exact Hnd.
    apply map_ext. intros d. rewrite andb_true_r. reflexivity.
  - rewrite <- (map_id (services st)) at 1.
    apply map_ext. intros d. rewrite andb_false_r. reflexivity.
Qed.

(** The statuses after the loop over the services to notify: a stored
    service becomes outdated when the loop meets a secure document of its
    [_id]. *)
Lemma notify_services_statuses (component : Component) (latest : string)
      (now : Time) (ss : list Service) :
  forall st : Store,
    NoDup (map s_id (services st)) ->
    services (fold_left (notified component latest now) ss st)
    = map (fun d =>
             if existsb (fun s => Nat.eqb (s_id d) (s_id s)
                                  && Status_eqb (s_status s) secure) ss
             then outdate d else d)
          (services st).
Proof.
  induction ss as [|s ss IH]; intros st Hnd; cbn [fold_left existsb].
  - symmetry. apply map_id.
  - rewrite IH by (rewrite notify_service_ids; exact Hnd).
    rewrite (notify_service_statuses component latest now st s Hnd).
    rewrite map_map. apply map_ext. intros d.
    destruct (Nat.eqb (s_id d) (s_id s) && Status_eqb (s_status s) secure);
      cbn [orb]; [|reflexivity].
    change (s_id (outdate d)) with (s_id d).
    destruct (existsb _ ss); reflexivity.
Qed.

Lemma notify_services_findByUser (component : Component) (latest : string)
      (now : Time) (u : ObjectId) (ss : list Service) :
  forall st : Store,
    findByUser u (fold_left (notified component latest now) ss st)
    = findByUser u st.
Proof.
  induction ss as [|s ss IH]; intros st; cbn [fold_left]; [reflexivity|].
  rewrite IH. unfold notified, findByUser.
  destruct (Status_eqb (s_status s) secure); cbn;
    rewrite filter_app; cbn; apply app_nil_r.
Qed.

(** X5: one version check of a stored component, in closed form. When an
    update is found, exactly the secure services that reference the
    component become outdated and every other service is left as it was
    (the services having distinct [_id]s); otherwise no service changes.
    The notifications it creates have no recipient, so no user's list of
    notifications changes; and the component carries the version found,
    the outcome of the comparison and the time of the check. *)
Theorem check_updates_outdates_secure_users :
  forall (cid : ObjectId) (now : Time) (st : Store)
         (component : Component) (latest : string),
    ComponentDAO.findById cid st = Some component ->
    simulateVersionCheck (c_name component) (c_type component) = Str latest ->
    NoDup (map s_id (services st)) ->
    let st' := fst (check_updates (Some cid) now st) in
    services st'
    = (if isNewerVersion (c_version component) latest
       then map (fun s => if affected cid s then outdate s else s)
                (services st)
       else services st)
    /\ (forall u : ObjectId, findByUser u st' = findByUser u st)
    /\ ComponentDAO.findById cid st' = Some (checked now component).
Proof.
  intros cid now st component latest Hfind Hsim Hnd.
  rewrite (check_updates_found cid now st component latest Hfind Hsim).
  cbn [fst].
  set (upd := isNewerVersion (c_version component) latest).
  set (st1 := ComponentDAO.update cid latest upd now st).
  assert (Hfound : ComponentDAO.findById cid st1 = Some (checked now component)).
  { subst st1. unfold ComponentDAO.findById, ComponentDAO.update in *.
    cbn [components with_components].
    rewrite findById_update by reflexivity.
    rewrite Nat.eqb_refl, Hfind. cbn [option_map].
    unfold checked. rewrite Hsim. reflexivity. }
  destruct upd eqn:Hupd.
  - split; [| split].
    + rewrite notify_services_statuses by exact Hnd.
      change (services st1) with (services st).
      apply map_ext_in. intros d Hd.
      unfold ServiceDAO.findAllByComponent.
      change (services st1) with (services st).
      rewrite (existsb_filter_unique s_id
                 (fun s => existsb (Nat.eqb cid) (s_components s))
                 (fun s => Status_eqb (s_status s) secure)
                 (services st) d Hnd Hd).
      reflexivity.
    + intros u. rewrite notify_services_findByUser. reflexivity.
    + destruct (notify_services_effect component latest now
                  (ServiceDAO.findAllByComponent cid st1) st1) as (Hc & _).
      cbn zeta in Hc. unfold ComponentDAO.findById in *. rewrite Hc.
      exact Hfound.
  - split; [| split]; [reflexivity | reflexivity | exact Hfound].
Qed.

Lemma check_updates_outdates_secure_users_witness :
  let st := fst (StackScanner.scan (Some 1) 10 Events.orders_api) in
  map s_status (services (fst (check_updates (Some 2) 20 st))) = [outdated].
Proof.
  cbn zeta.
  rewrite (proj1 (check_updates_outdates_secure_users
                    2 20 (fst (StackScanner.scan (Some 1) 10 Events.orders_api))
                    (mkComponent 2 "Node.js" "16.14.0" "language" None false 10)
                    "18.15.0" eq_refl eq_refl
                    ltac:(vm_compute; repeat constructor; intros [])));
    vm_compute; reflexivity.
Defined.

End CheckingUpdates.

Section UnknownComponents.

Import JsNum JsString Model DAO VersionChecker Spec Predicates.










End UnknownComponents.

Section CheckingAllUpdates.

Import JsNum JsString Model DAO VersionChecker Queries Routes Spec Predicates.

Lemma update_app_fresh {A : Type} (id_of : A -> ObjectId) (id : ObjectId)
      (f : A -> A) (l1 l2 : list A) (d : A) :
  ~ In id (map id_of l1) -> id_of d = id ->
  findByIdAndUpdate id_of id f (l1 ++ d :: l2) = l1 ++ f d :: l2.
Proof.
  intros Hfresh Hd. induction l1 as [|x l1 IH]; cbn.
  - rewrite Hd, Nat.eqb_refl. reflexivity.
  - destruct (Nat.eqb_spec (id_of x) id) as [E | E].
    + exfalso. apply Hfresh. left. exact E.
    + f_equal. apply IH. intros Hin. apply Hfresh. right. exact Hin.
Qed.

Lemma checked_id (now : Time) (c : Component) : c_id (checked now c) = c_id c.
Proof.
  unfold checked.
  destruct (simulateVersionCheck (c_name c) (c_type c)); reflexivity.
Qed.

Lemma checked_updateAvailable (now : Time) (c : Component) :
  checkable c = true -> c_updateAvailable (checked now c) = newer_available c.
Proof.
  unfold checkable, checked, newer_available.
  destruct (simulateVersionCheck (c_name c) (c_type c));
    [reflexivity | discriminate].
Qed.

Lemma checked_prefix_all (now : Time) (cs : list Component) :
  forallb checkable cs = true -> checked_prefix now cs = map (checked now) cs.
Proof.
  induction cs as [|c cs IH]; [reflexivity|]. cbn [forallb checked_prefix map].
  intros H. apply andb_true_iff in H. destruct H as [Hc Hcs].
  rewrite Hc, (IH Hcs). reflexivity.
Qed.

(** The components during the loop: those already met are checked, the
    others are as they were read. *)
Lemma check_each_components (now : Time) (cs : list Component) :
  forall (done : list Component) (st : Store) (results : Results),
    components st = done ++ cs ->
    NoDup (map c_id (done ++ cs)) ->
    components (fst (check_each cs now st results))
    = done ++ checked_prefix now cs.
Proof.
  induction cs as [|c cs IH]; intros done st results Hc Hnd;
    cbn [check_each checked_prefix].
  - exact Hc.
  - unfold checkable.
    destruct (simulateVersionCheck (c_name c) (c_type c)) as [latest|] eqn:Es;
      [| exact Hc].
    assert (Hchk : checked now c
                   = mkComponent (c_id c) (c_name c) (c_version c) (c_type c)
                                 (Some (JsString.trim latest))
                                 (isNewerVersion (c_version c) latest) now).
    { unfold checked. rewrite Es. reflexivity. }
    rewrite (IH (done ++ [checked now c])).
    + rewrite <- app_assoc. reflexivity.
    + unfold ComponentDAO.update. cbn [components with_components].
      rewrite Hc, update_app_fresh; [| | reflexivity].
      * rewrite <- app_assoc, Hchk. reflexivity.
      * rewrite map_app in Hnd. cbn [map] in Hnd.
        apply NoDup_remove_2 in Hnd. intros Hin. apply Hnd.
        apply in_or_app. left. exact Hin.
    + rewrite <- app_assoc. cbn [app].
      rewrite map_app in *. cbn [map] in *. rewrite checked_id. exact Hnd.
Qed.

Lemma check_each_results (now : Time) (cs : list Component) :
  forall (st : Store) (results : Results),
    forallb checkable cs = true ->
    snd (check_each cs now st results)
    = Some (mkResults (total results)
                      (List.length cs + updated results)
                      (List.length (filter newer_available cs)
                       + withUpdates results)).
Proof.
  induction cs as [|c cs IH]; intros st results H; cbn [check_each].
  - destruct results; reflexivity.
  - cbn [forallb] in H. apply andb_true_iff in H. destruct H as [Hc Hcs].
    cbn [filter]. unfold checkable in Hc. unfold newer_available at 1.
    destruct (simulateVersionCheck (c_name c) (c_type c)) as [latest|];
      [| discriminate].
    rewrite (IH _ _ Hcs). cbn [total updated withUpdates].
    destruct (isNewerVersion (c_version c) latest); cbn [List.length];
      f_equal; f_equal; lia.
Qed.

Lemma check_each_aborts (now : Time) (cs : list Component) :
  forall (st : Store) (results : Results),
    forallb checkable cs = false ->
    snd (check_each cs now st results) = None.
Proof.
  induction cs as [|c cs IH]; intros st results H; [discriminate|].
  cbn [check_each]. cbn [forallb] in H. unfold checkable in H.
  destruct (simulateVersionCheck (c_name c) (c_type c)) as [latest|];
    [| reflexivity].
  apply IH. exact H.
Qed.

Lemma filter_map_swap {A B : Type} (f : A -> B) (p : B -> bool) (l : list A) :
  filter p (map f l) = map f (filter (fun x => p (f x)) l).
Proof.
  induction l as [|x l IH]; [reflexivity|]. cbn.
  destruct (p (f x)); cbn; rewrite IH; reflexivity.
Qed.

(** X7: when the version source answers for every stored component, the
    batch check answers 200 and rewrites each component as the single
    check would (the components having distinct [_id]s); its counters are
    the number of components, twice, and the number of components for
    which an update is found, which is the count that
    GET /api/updates-available reports afterwards. *)
Theorem check_all_updates_checks_every_component :
  forall (now : Time) (st : Store),
    forallb checkable (components st) = true ->
    NoDup (map c_id (components st)) ->
    let n := List.length (components st) in
    let st' := fst (fst (check_all_updates now st)) in
    snd (fst (check_all_updates now st)) = 200
    /\ snd (check_all_updates now st)
       = Some (mkResults n n (fst (get_updates_available st')))
    /\ components st' = map (checked now) (components st)
    /\ snd (get_updates_available st')
       = map (checked now) (filter newer_available (components st)).
Proof.
  intros now st Hall Hnd.
  pose proof (check_each_components now (components st) [] st
                (mkResults (List.length (components st)) 0 0)
                eq_refl Hnd) as Hcs.
  pose proof (check_each_results now (components st) st
                (mkResults (List.length (components st)) 0 0) Hall) as Hres.
  rewrite (checked_prefix_all now _ Hall) in Hcs.
  cbn [app total updated withUpdates] in *.
  unfold check_all_updates.
  destruct (check_each (components st) now st _) as [st1 r].
  cbn [fst snd] in *. subst r. cbn [fst snd].
  assert (Hupd : findWithUpdates st1
                 = map (checked now) (filter newer_available (components st))).
  { unfold findWithUpdates. rewrite Hcs, filter_map_swap. f_equal.
    apply filter_ext_in. intros c Hc.
    apply checked_updateAvailable.
    rewrite forallb_forall in Hall. apply Hall, Hc. }
  unfold get_updates_available. cbn [fst snd].
  rewrite Hupd, length_map, !Nat.add_0_r.
  repeat split; assumption.
Qed.

Lemma check_all_updates_checks_every_component_witness :
  let st := fst (StackScanner.scan (Some 1) 10 Events.orders_api) in
  snd (check_all_updates 20 st) = Some (mkResults 3 3 3).
Proof.
  cbn zeta.
  rewrite (proj1 (proj2 (check_all_updates_checks_every_component
                           20
                           (fst (StackScanner.scan (Some 1) 10
                                                   Events.orders_api))
                           eq_refl
                           ltac:(vm_compute; repeat constructor; cbn;
                                 intuition discriminate)))).
  vm_compute. reflexivity.
Defined.

(** X8: the batch check answers 500 exactly when the version source
    yields something that is no string for some stored component, and 200
    otherwise. It does not undo what it did before: the components in
    front of the first such component stay checked, that one and those
    after it are untouched (the components having distinct [_id]s). *)
Theorem check_all_updates_stops_at_failure :
  forall (now : Time) (st : Store),
    let st' := fst (fst (check_all_updates now st)) in
    snd (fst (check_all_updates now st))
    = (if forallb checkable (components st) then 200 else 500)
    /\ (forallb checkable (components st) = false ->
        snd (check_all_updates now st) = None)
    /\ (NoDup (map c_id (components st)) ->
        components st' = checked_prefix now (components st)).
Proof.
  intros now st. cbn zeta.
  pose proof (check_each_components now (components st) [] st
                (mkResults (List.length (components st)) 0 0) eq_refl) as Hcs.
  pose proof (check_each_results now (components st) st
                (mkResults (List.length (components st)) 0 0)) as Hres.
  pose proof (check_each_aborts now (components st) st
                (mkResults (List.length (components st)) 0 0)) as Hab.
  unfold check_all_updates.
  destruct (check_each (components st) now st _) as [st1 r].
  cbn [fst snd app] in *.
  destruct (forallb checkable (components st)).
  - rewrite (Hres eq_refl). cbn [fst snd].
    split; [reflexivity | split; [discriminate | exact Hcs]].
  - rewrite (Hab eq_refl). cbn [fst snd].
    split; [reflexivity | split; [reflexivity | exact Hcs]].
Qed.

Lemma check_all_updates_stops_at_failure_witness :
  let st := mkStore [mkComponent 1 "Node.js" "16.14.0" "language" None false 0;
                     mkComponent 2 "constructor" "1.0.0" "library" None false 0;
                     mkComponent 3 "Express" "4.17.3" "framework" None false 0]
                    [] [] [] [] 4 in
  snd (fst (check_all_updates 9 st)) = 500
  /\ components (fst (fst (check_all_updates 9 st)))
     = [mkComponent 1 "Node.js" "16.14.0" "language" (Some "18.15.0") true 9;
        mkComponent 2 "constructor" "1.0.0" "library" None false 0;
        mkComponent 3 "Express" "4.17.3" "framework" None false 0].
Proof.
  cbn zeta. split.
  - vm_compute. reflexivity.
  - rewrite (proj2 (proj2 (check_all_updates_stops_at_failure
                             9
                             (mkStore
                                [mkComponent 1 "Node.js" "16.14.0" "language"
                                             None false 0;
                                 mkComponent 2 "constructor" "1.0.0" "library"
                                             None false 0;
                                 mkComponent 3 "Express" "4.17.3" "framework"
                                             None false 0]
                                [] [] [] [] 4)))).
    + vm_compute. reflexivity.
    + vm_compute. repeat constructor; cbn; intuition discriminate.
Defined.

End CheckingAllUpdates.

(** ** Stack scanner: further properties *)

Section ScanFrame.

Import Model DAO StackScanner Spec Predicates.

Lemma grown_refl (serviceId : option ObjectId) (s : Service) :
  grown serviceId s s.
Proof.
  unfold grown. repeat split; auto. exists []. symmetry. apply app_nil_r.
Qed.

Lemma grown_trans (serviceId : option ObjectId) (a b c : Service) :
  grown serviceId a b -> grown serviceId b c -> grown serviceId a c.
Proof.
  intros (Hk & Hi & Hn & Hv & m & Hm) (Hk' & Hi' & Hn' & Hv' & m' & Hm').
  unfold grown. repeat split; try congruence.
  - intros H. rewrite <- (Hk H). apply Hk'. rewrite Hi. exact H.
  - exists (m ++ m'). rewrite Hm', Hm. symmetry. apply app_assoc.
Qed.

Lemma Forall2_update_at {A : Type} (id_of : A -> ObjectId) (R : A -> A -> Prop)
      (id : ObjectId) (f : A -> A) (l : list A) :
  (forall d, R d d) -> (forall d, id_of d = id -> R d (f d)) ->
  Forall2 R l (findByIdAndUpdate id_of id f l).
Proof.
  intros Hrefl Hf. induction l as [|x l IH]; cbn; [constructor|].
  destruct (Nat.eqb_spec (id_of x) id) as [E | E].
  - constructor; [apply Hf, E | apply Forall2_same, Hrefl].
  - constructor; [apply Hrefl | exact IH].
Qed.

Lemma addComponent_grown (sid cid : ObjectId) (st : Store) :
  Forall2 (grown (Some sid)) (services st)
          (services (ServiceDAO.addComponent sid cid st)).
Proof.
  unfold ServiceDAO.addComponent. cbn [services with_services].
  apply Forall2_update_at; [apply grown_refl|].
  intros d Hd. unfold grown. cbn. repeat split; try reflexivity.
  - intros H. congruence.
  - unfold ServiceDAO.addToSet.
    destruct (existsb (Nat.eqb cid) (s_components d)).
    + exists []. symmetry. apply app_nil_r.
    + exists [cid]. reflexivity.
Qed.

Lemma updateScan_grown (sid : ObjectId) (now : Time) (status : Status)
      (st : Store) :
  Forall2 (grown (Some sid)) (services st)
          (services (ServiceDAO.updateScan sid now status st)).
Proof.
  unfold ServiceDAO.updateScan. cbn [services with_services].
  apply Forall2_update_at; [apply grown_refl|].
  intros d Hd. unfold grown. cbn. repeat split; try reflexivity.
  - intros H. congruence.
  - exists []. symmetry. apply app_nil_r.
Qed.

Lemma scan_framed_refl (detected : list Detected) (sid : ObjectId)
      (now : Time) (st : Store) :
  scan_framed detected sid now st st.
Proof.
  unfold scan_framed. repeat split; auto.
  - exists []. split; [symmetry; apply app_nil_r | constructor].
  - apply Forall2_same, grown_refl.
Qed.

Lemma scan_framed_trans (detected : list Detected) (sid : ObjectId)
      (now : Time) (a b c : Store) :
  scan_framed detected sid now a b -> scan_framed detected sid now b c ->
  scan_framed detected sid now a c.
Proof.
  intros ((n & Hn & Hf) & Hs & Hv & Hno & Hr)
         ((n' & Hn' & Hf') & Hs' & Hv' & Hno' & Hr').
  unfold scan_framed. repeat split; try congruence.
  - exists (n ++ n'). split.
    + rewrite Hn', Hn. symmetry. apply app_assoc.
    + apply Forall_app. auto.
  - eapply Forall2_compose; [apply grown_trans | exact Hs | exact Hs'].
Qed.

Lemma save_component_framed (detected : list Detected) (sid : ObjectId)
      (now : Time) (st : Store) (comp : Detected) :
  In comp detected ->
  scan_framed detected sid now st (save_component sid now st comp).
Proof.
  destruct comp as [[name version] type]. intros Hin.
  destruct (save_component_cases sid now st name version type)
    as [(c & _ & ->) | (_ & ->)]; unfold scan_framed.
  - repeat split; try reflexivity.
    + exists []. split; [symmetry; apply app_nil_r | constructor].
    + apply addComponent_grown.
  - repeat split; try reflexivity.
    + eexists. split; [reflexivity|].
      constructor; [| constructor]. unfold created_by. cbn. auto.
    + apply (addComponent_grown sid (next_id st)
               (fst (ComponentDAO.create name version type now st))).
Qed.

Lemma save_components_framed (detected : list Detected) (sid : ObjectId)
      (now : Time) (l : list Detected) :
  forall st : Store,
    incl l detected ->
    scan_framed detected sid now st (fold_left (save_component sid now) l st).
Proof.
  induction l as [|d l IH]; intros st Hincl; cbn [fold_left].
  - apply scan_framed_refl.
  - eapply scan_framed_trans.
    + apply save_component_framed, Hincl. left. reflexivity.
    + apply IH. intros x Hx. apply Hincl. right. exact Hx.
Qed.

(** X9: what a scan request leaves alone. The stored components are kept
    as they are, in their order; those it adds are detected ones, created
    without a latest version and without an available update. A service
    other than the one of the request is unchanged; that one keeps its
    name and its vulnerability associations, and its component references
    are only added to. Vulnerabilities, notifications and reports are
    untouched, and a request that is not answered with 200 changes
    nothing. *)
Theorem scan_frame :
  forall (detected : list Detected) (serviceId : option ObjectId)
         (now : Time) (st : Store),
    let st' := fst (scan_with detected serviceId now st) in
    (exists new, components st' = components st ++ new
                 /\ Forall (created_by detected now) new)
    /\ Forall2 (grown serviceId) (services st) (services st')
    /\ Model.vulnerabilities st' = Model.vulnerabilities st
    /\ notifications st' = notifications st
    /\ reports st' = reports st
    /\ (snd (scan_with detected serviceId now st) = 200 \/ st' = st).
Proof.
  intros detected [sid|] now st; cbn zeta.
  2: { cbn. repeat split; auto.
       - exists []. split; [symmetry; apply app_nil_r | constructor].
       - apply Forall2_same, grown_refl. }
  unfold scan_with.
  destruct (ServiceDAO.findById sid st) as [s|] eqn:Hs; cbn [fst snd].
  - destruct (save_components_framed detected sid now detected st
                (incl_refl detected))
      as ((n & Hn & Hf) & Hsv & Hv & Hno & Hr).
    repeat split; auto.
    + exists n. split; [exact Hn | exact Hf].
    + eapply Forall2_compose;
        [apply grown_trans | exact Hsv | apply updateScan_grown].
  - repeat split; auto.
    + exists []. split; [symmetry; apply app_nil_r | constructor].
    + apply Forall2_same, grown_refl.
Qed.

(** X10: a scan request for a stored service is answered with 200 and
    leaves every detected component recorded: a component of its name and
    version is stored and the service references it. The service is then
    secure with the time of the request as its last scan, also when it
    holds vulnerability associations, which the scan keeps. *)
Theorem scan_records_detected :
  forall (detected : list Detected) (sid : ObjectId) (now : Time)
         (st : Store) (s : Service),
    ServiceDAO.findById sid st = Some s ->
    let st' := fst (scan_with detected (Some sid) now st) in
    snd (scan_with detected (Some sid) now st) = 200
    /\ (forall comp, In comp detected -> recorded sid st' comp)
    /\ exists s',
         ServiceDAO.findById sid st' = Some s'
         /\ s_status s' = secure
         /\ s_lastScan s' = Some now
         /\ s_vulnerabilities s' = s_vulnerabilities s.
Proof.
  intros detected sid now st s Hs. cbn zeta.
  split; [| split].
  - unfold scan_with. rewrite Hs. reflexivity.
  - intros comp Hin. eapply scan_with_records; eauto.
  - rewrite (scan_with_found _ _ _ _ _ Hs).
    set (st1 := fold_left (save_component sid now) detected st).
    destruct (save_components_framed detected sid now detected st
                (incl_refl detected)) as (_ & Hsv & _).
    fold st1 in Hsv.
    assert (Hfound : exists s1, ServiceDAO.findById sid st1 = Some s1
                                /\ s_vulnerabilities s1 = s_vulnerabilities s).
    { unfold ServiceDAO.findById, findById in *.
      induction Hsv as [|a b l l' Hab _ IH]; [discriminate|].
      cbn in *. destruct Hab as (_ & Hid & _ & Hv & _). rewrite Hid.
      destruct (Nat.eqb (s_id a) sid).
      - exists b. split; [reflexivity|]. congruence.
      - apply IH, Hs. }
    destruct Hfound as (s1 & Hs1 & Hv1).
    unfold ServiceDAO.findById, ServiceDAO.updateScan in *.
    cbn [services with_services].
    rewrite findById_update by reflexivity.
    rewrite Nat.eqb_refl, Hs1. cbn [option_map].
    eexists. split; [reflexivity|]. cbn. auto.
Qed.

Lemma scan_records_detected_witness :
  let st := mkStore [] [mkService 1 "orders-api" []
                                  [mkVulnerabilityRef (Some 7) (Some 8)]
                                  None vulnerable]
                    [] [] [] 2 in
  map s_status (services (fst (scan (Some 1) 10 st))) = [secure]
  /\ snd (scan (Some 1) 10 st) = 200.
Proof.
  cbn zeta. split; [vm_compute; reflexivity|].
  apply (proj1 (scan_records_detected
                  detectedComponents 1 10
                  (mkStore [] [mkService 1 "orders-api" []
                                         [mkVulnerabilityRef (Some 7) (Some 8)]
                                         None vulnerable]
                           [] [] [] 2)
                  (mkService 1 "orders-api" []
                             [mkVulnerabilityRef (Some 7) (Some 8)]
                             None vulnerable)
                  eq_refl)).
Defined.

End ScanFrame.

(** ** Report generator: further properties *)

Section GeneratingReports.

Import JsString Model DAO ReportGenerator Queries Routes Spec Predicates.

Lemma non_null_resolved (st : Store) (ids : list ObjectId) :
  List.length (non_null (map (findPopulated st) ids))
  = List.length (filter (resolves st) ids).
Proof.
  induction ids as [|id ids IH]; [reflexivity|]. cbn [map filter].
  unfold findPopulated at 1, resolves at 1.
  destruct (ServiceDAO.findById id st); cbn; rewrite IH; reflexivity.
Qed.

Lemma count_status_partition (l : list PopulatedService) :
  count_status secure l + count_status vulnerable l
  + count_status outdated l + count_status unknown l
  = List.length l.
Proof.
  unfold count_status. induction l as [|s l IH]; [reflexivity|].
  cbn [filter List.length]. destruct (status s); cbn; lia.
Qed.

Lemma delete_app_fresh {A : Type} (id_of : A -> ObjectId) (id : ObjectId)
      (l : list A) (d : A) :
  ~ In id (map id_of l) -> id_of d = id ->
  findByIdAndDelete id_of id (l ++ [d]) = l
  /\ findById id_of id (l ++ [d]) = Some d.
Proof.
  intros Hfresh Hd. unfold findById. induction l as [|x l IH]; cbn.
  - rewrite Hd, Nat.eqb_refl. auto.
  - destruct (Nat.eqb_spec (id_of x) id) as [E | E].
    + exfalso. apply Hfresh. left. exact E.
    + destruct IH as [IH1 IH2].
      { intros Hin. apply Hfresh. right. exact Hin. }
      rewrite IH1, IH2. auto.
Qed.

(** X11: a request with a title that is not blank and a list of ids of
    which at least one resolves is answered with 201 and appends exactly
    one report, under a fresh [_id]; nothing else in the store changes.
    The report holds the title trimmed; it keeps the list of ids as it
    was sent, with those that do not resolve, while [totalServices] counts
    the ids that resolve; the three status counters together fall short
    of it by the number of services of status unknown. The format is html
    when none is given. A title of white space only passes the test of
    the handler and is refused by the schema: the request is answered
    with 500, and nothing is stored. *)
Theorem generate_stores_one_report :
  forall (title : string) (ids : list ObjectId) (format : option Format)
         (user : ObjectId) (now : Time) (st : Store),
    title <> EmptyString ->
    existsb (resolves st) ids = true ->
    let valid := non_null (map (findPopulated st) ids) in
    (trim title = EmptyString ->
     generate (Some title) (Ids ids) format user now st = (st, 500))
    /\ (trim title <> EmptyString ->
        exists r : Report,
          generate (Some title) (Ids ids) format user now st
          = (mkStore (components st) (services st) (Model.vulnerabilities st)
                     (notifications st) (reports st ++ [r]) (S (next_id st)),
             201)
          /\ r_id r = next_id st
          /\ r_title r = trim title
          /\ r_services r = ids
          /\ r_generatedBy r = user
          /\ r_format r = match format with Some f => f | None => html end
          /\ r_recommendations r = generateRecommendations (r_summary r) valid
          /\ totalServices (r_summary r)
             = List.length (filter (resolves st) ids)
          /\ secureServices (r_summary r) + vulnerableServices (r_summary r)
             + outdatedServices (r_summary r) + count_status unknown valid
             = totalServices (r_summary r)).
Proof.
  intros title ids format user now st Ht Hex valid.
  assert (Hlen : List.length valid = List.length (filter (resolves st) ids))
    by apply non_null_resolved.
  assert (Hne : valid <> []).
  { intros E. rewrite E in Hlen. cbn in Hlen.
    apply existsb_exists in Hex. destruct Hex as (id & Hin & Hid).
    assert (Hf : In id (filter (resolves st) ids))
      by (apply filter_In; auto).
    destruct (filter (resolves st) ids); [contradiction | discriminate]. }
  pose proof (count_services_shift valid
                (mkSummary (List.length valid) 0 0 0 0 0 0 0)) as Hsh.
  unfold shifted in Hsh. cbn [totalServices secureServices vulnerableServices
    outdatedServices criticalVulnerabilities highVulnerabilities
    mediumVulnerabilities lowVulnerabilities] in Hsh.
  destruct Hsh as (Htot & Hsec & Hvul & Hout & _).
  pose proof (count_status_partition valid) as Hpart.
  unfold generate.
  destruct title as [|c t]; [congruence|].
  destruct ids as [|id ids]; [discriminate|].
  fold valid.
  destruct valid as [|v valid'] eqn:Ev; [congruence|].
  rewrite <- Ev in *.
  unfold ReportDAO.create. cbn zeta.
  split; intros Hblank.
  - rewrite Hblank. reflexivity.
  - apply required_true in Hblank. rewrite Hblank.
    eexists. split; [reflexivity|].
    cbn [r_id r_title r_services r_generatedBy r_format r_recommendations
         r_summary].
    fold (summarize valid) in *.
    repeat split; try reflexivity.
    + rewrite Htot. exact Hlen.
    + rewrite Htot, Hsec, Hvul, Hout. cbn [Nat.add]. exact Hpart.
Qed.

Lemma generate_stores_one_report_witness :
  snd (generate (Some "Audit") (Ids [1; 9]) None 5 30 Events.orders_api) = 201.
Proof.
  destruct (proj2 (generate_stores_one_report
                     "Audit" [1; 9] None 5 30 Events.orders_api
                     ltac:(discriminate) eq_refl)
                  ltac:(vm_compute; discriminate)) as (r & Hr & _).
  rewrite Hr. reflexivity.
Defined.

(** X12: a report that was just generated can be deleted again, and the
    reports are then those of before: DELETE /api/reports/:reportId with
    the [_id] of the new report answers 200 and leaves the collection as
    it was before the generation (the stored reports having [_id]s drawn
    from the counter). *)
Theorem generate_then_delete_report :
  forall (title : option string) (serviceIds : ServiceIds)
         (format : option Format) (user : ObjectId) (now : Time)
         (st : Store),
    reports_drawn st ->
    snd (generate title serviceIds format user now st) = 201 ->
    let st1 := fst (generate title serviceIds format user now st) in
    snd (delete_report (next_id st) st1) = 200
    /\ reports (fst (delete_report (next_id st) st1)) = reports st.
Proof.
  intros title serviceIds format user now st Hdrawn H201. cbn zeta.
  assert (Hfresh : ~ In (next_id st) (map r_id (reports st))).
  { intros Hin. apply in_map_iff in Hin. destruct Hin as (r & Hr & Hin).
    unfold reports_drawn in Hdrawn. rewrite Forall_forall in Hdrawn.
    specialize (Hdrawn r Hin). lia. }
  unfold generate in *.
  destruct title as [[|c t]|]; try discriminate.
  destruct serviceIds as [| |[|id ids]]; try discriminate.
  destruct (non_null (map (findPopulated st) (id :: ids))) as [|v valid];
    [discriminate|].
  unfold ReportDAO.create in *. cbn zeta in *.
  destruct (required (trim (String c t))); [|discriminate].
  cbn [fst ReportDAO.insert].
  unfold delete_report, deleteReport. cbn [reports components services
    Model.vulnerabilities notifications next_id].
  match goal with
  | |- context [findById r_id (next_id st) (reports st ++ [?r])] =>
      destruct (delete_app_fresh r_id (next_id st) (reports st) r
                  Hfresh eq_refl) as [Hdel Hfind]
  end.
  rewrite Hdel, Hfind. cbn. auto.
Qed.

Lemma generate_then_delete_report_witness :
  let st1 := fst (generate (Some "Audit") (Ids [1]) None 5 30
                           Events.orders_api) in
  reports (fst (delete_report 2 st1)) = [].
Proof.
  cbn zeta.
  apply (proj2 (generate_then_delete_report
                  (Some "Audit") (Ids [1]) None 5 30 Events.orders_api
                  ltac:(constructor) eq_refl)).
Defined.

(** X13: the list of recommendations is never empty: continuous
    monitoring is always recommended. It is the only recommendation
    exactly when the summary counts no critical and no high vulnerability,
    no vulnerable and no outdated service; the other counters do not
    matter, and the list never has more than six entries. *)
Theorem generateRecommendations_always_monitor :
  forall (summary : Summary) (services : list PopulatedService),
    In monitor (generateRecommendations summary services)
    /\ List.length (generateRecommendations summary services) <= 6
    /\ (generateRecommendations summary services = [monitor]
        <-> criticalVulnerabilities summary = 0
            /\ highVulnerabilities summary = 0
            /\ vulnerableServices summary = 0
            /\ outdatedServices summary = 0).
Proof.
  intros summary services. unfold generateRecommendations.
  destruct (Nat.ltb_spec 0 (criticalVulnerabilities summary)) as [Hc | Hc];
    destruct (Nat.ltb_spec 0 (highVulnerabilities summary)) as [Hh | Hh];
    destruct (Nat.ltb_spec 0 (vulnerableServices summary)) as [Hv | Hv];
    destruct (Nat.ltb_spec 0 (outdatedServices summary)) as [Ho | Ho];
    cbn [push_if app orb];
    (split; [cbn [In]; tauto |]);
    (split; [cbn [List.length]; lia |]);
    (split;
     [ intros H; apply (f_equal (@List.length string)) in H;
       cbn [List.length] in H; try discriminate H; lia
     | intros (H1 & H2 & H3 & H4); try reflexivity; lia ]).
Qed.

Lemma generateRecommendations_always_monitor_witness :
  generateRecommendations (mkSummary 3 2 0 0 0 0 4 1) [] = [monitor].
Proof.
  apply (proj2 (proj2 (generateRecommendations_always_monitor
                         (mkSummary 3 2 0 0 0 0 4 1) []))).
  cbn. auto.
Defined.

End GeneratingReports.

(** ** Authentication middleware *)

Section AuthenticationMiddleware.

Import JsNum JsString Model DAO StackScanner Auth.

Variable verify : string -> Verified.

(** A string without a space is one piece. *)
Lemma split_spaces_one (s : string) :
  forallb (fun c => negb (is_char c " ")) (list_ascii_of_string s) = true ->
  split_spaces s = [s].
Proof.
  induction s as [|c s IH]; [reflexivity|]. cbn [list_ascii_of_string forallb].
  intros H. apply andb_true_iff in H. destruct H as [Hc Hs].
  cbn [split_spaces]. apply negb_true_iff in Hc. rewrite Hc, (IH Hs).
  reflexivity.
Qed.

Lemma bearer_header (token : string) :
  forallb (fun c => negb (is_char c " ")) (list_ascii_of_string token) = true ->
  bearer (Some ("Bearer " ++ token)%string) = Some token.
Proof.
  intros H. unfold bearer.
  change (String.prefix "Bearer" ("Bearer " ++ token)%string) with true.
  cbn [split_spaces append is_char Ascii.eqb Bool.eqb].
  cbn. rewrite (split_spaces_one token H). reflexivity.
Qed.

Lemma verifyToken_next (users : list User) (authorization : option string)
      (u : ReqUser) :
  verifyToken verify (Some users) authorization = Next u ->
  exists (token role : string) (user : User),
    bearer authorization = Some token
    /\ token <> EmptyString
    /\ verify token = Decoded (u_id user) role
    /\ In user users
    /\ u_isActive user = true
    /\ u = mkReqUser (u_id user) (u_role user) (Some (u_email user)).
Proof.
  unfold verifyToken.
  destruct (bearer authorization) as [[|c t]|] eqn:Hb; try discriminate.
  destruct (verify (String c t)) as [id role|name] eqn:Hv; try discriminate.
  destruct (findById u_id id users) as [user|] eqn:Hf; try discriminate.
  destruct (u_isActive user) eqn:Ha; try discriminate.
  intros [= <-].
  apply findById_In in Hf. destruct Hf as [Hin Hid]. subst id.
  exists (String c t), role, user. repeat split; auto. discriminate.
Qed.


Lemma role_allowed (role : string) :
  existsb (String.eqb role) ["admin"; "developer"] = true ->
  role = "admin" \/ role = "developer".
Proof.
  cbn [existsb]. rewrite orb_false_r. intros H.
  apply orb_true_iff in H. destruct H as [H | H];
    apply String.eqb_eq in H; auto.
Qed.

(** X15: the scan route behind its middleware. A request whose token
    [jwt.verify] accepts for a stored, active user is handed to the scan
    when the stored role is admin or developer, and is answered 403
    without any change otherwise, whatever role the token claims. And the
    store changes only for a request whose token is accepted for a
    stored, active user of role admin or developer. *)
Theorem post_scan_requires_role :
  forall (users : list User) (authorization : option string)
         (serviceId : option ObjectId) (now : Time) (st : Store),
    (forall (token role : string) (user : User),
        bearer authorization = Some token ->
        token <> EmptyString ->
        verify token = Decoded (u_id user) role ->
        findById u_id (u_id user) users = Some user ->
        u_isActive user = true ->
        post_scan verify (Some users) authorization serviceId now st
        = if existsb (String.eqb (u_role user)) ["admin"; "developer"]
          then scan serviceId now st
          else (st, 403))
    /\ (fst (post_scan verify (Some users) authorization serviceId now st)
        <> st ->
        exists (token role : string) (user : User),
          bearer authorization = Some token
          /\ verify token = Decoded (u_id user) role
          /\ In user users
          /\ u_isActive user = true
          /\ (u_role user = "admin" \/ u_role user = "developer")).
Proof.
  intros users authorization serviceId now st. split.
  - intros token role user Hb Ht Hd Hf Ha.
    unfold post_scan, verifyToken. rewrite Hb.
    destruct token as [|c t]; [congruence|].
    rewrite Hd, Hf, Ha. unfold checkRole. cbn [ru_role].
    destruct (existsb (String.eqb (u_role user)) ["admin"; "developer"]);
      reflexivity.
  - unfold post_scan.
    destruct (verifyToken verify (Some users) authorization) as [u|status]
      eqn:Hv; [| cbn; congruence].
    destruct (verifyToken_next users authorization u Hv)
      as (token & role & user & Hb & _ & Hd & Hin & Ha & ->).
    unfold checkRole. cbn [ru_role].
    destruct (existsb (String.eqb (u_role user)) ["admin"; "developer"])
      eqn:Hr; [| cbn; congruence].
    intros _. exists token, role, user. repeat split; auto.
    apply role_allowed, Hr.
Qed.

End AuthenticationMiddleware.


Lemma post_scan_requires_role_witness :
  let verify := fun token : string =>
                  if String.eqb token "t0k3n" then Auth.Decoded 7 "admin"
                  else Auth.Throws "JsonWebTokenError" in
  let users := [Auth.mkUser 7 "ana" "ana@example.org" "$2b$10$h" "viewer"
                            true None] in
  Auth.post_scan verify (Some users) (Some "Bearer t0k3n") (Some 1) 10
                 Events.orders_api
  = (Events.orders_api, 403).
Proof.
  cbn zeta.
  apply (proj1 (post_scan_requires_role
                  (fun token : string =>
                     if String.eqb token "t0k3n" then Auth.Decoded 7 "admin"
                     else Auth.Throws "JsonWebTokenError")
                  [Auth.mkUser 7 "ana" "ana@example.org" "$2b$10$h" "viewer"
                               true None]
                  (Some "Bearer t0k3n") (Some 1) 10 Events.orders_api)
               "t0k3n" "admin"
               (Auth.mkUser 7 "ana" "ana@example.org" "$2b$10$h" "viewer"
                            true None));
    try reflexivity.
  discriminate.
Defined.

(** ** Error handling *)

Section ErrorHandling.

Import JsString Errors.

Local Open Scope string_scope.

Lemma append_nonempty (a b : string) : b <> "" -> a ++ b <> "".
Proof. destruct a; cbn; [auto | discriminate]. Qed.

(** X16: an error that went through the [catch] of a data-access method
    is answered with 500 and the code INTERNAL_SERVER_ERROR, whatever it
    was: the answers 400 for a validation error, a duplicate key or a
    malformed id are not reached by errors of the data-access layer. An
    error that reaches the handler as thrown is answered 400 in these
    three cases. *)
Theorem errorHandler_of_dao_error :
  (forall (context : string) (error : Err),
      errorHandler (rethrow context error)
      = Some (mkResponse 500 (context ++ ": " ++ e_message error)
                         (Text "INTERNAL_SERVER_ERROR") [] None None))
  /\ (forall (error : Err) (response : Response),
         e_name error = "ValidationError"
         \/ e_code error = Some (Num 11000%N)
         \/ e_name error = "CastError" ->
         errorHandler error = Some response ->
         status response = 400).
Proof.
  split.
  - intros context error. unfold rethrow, Error, errorHandler.
    cbn [e_name e_message e_code e_statusCode].
    change (String.eqb "Error" "ValidationError") with false.
    change (String.eqb "Error" "CastError") with false.
    change (String.eqb "Error" "JsonWebTokenError") with false.
    change (String.eqb "Error" "TokenExpiredError") with false.
    cbn [is_duplicate_key].
    destruct (context ++ ": " ++ e_message error) eqn:E; [|reflexivity].
    exfalso. revert E. apply append_nonempty. discriminate.
  - intros error response H. unfold errorHandler.
    destruct (String.eqb_spec (e_name error) "ValidationError") as [En | En].
    + destruct (e_errors error); [|discriminate].
      intros [= <-]. reflexivity.
    + destruct (is_duplicate_key (e_code error)) eqn:Ed.
      * destruct (e_keyValue error); [|discriminate].
        intros [= <-]. reflexivity.
      * destruct (String.eqb_spec (e_name error) "CastError") as [Ec | Ec].
        -- intros [= <-]. reflexivity.
        -- exfalso. destruct H as [H | [H | H]]; try contradiction.
           rewrite H in Ed. discriminate.
Qed.

Lemma errorHandler_of_dao_error_witness :
  let error := mkErr "ValidationError" "Report validation failed"
                     None None (Some ["Le titre du rapport est requis"])
                     None None None in
  let response := mkResponse 400 "Erreur de validation"
                             (Text "VALIDATION_ERROR")
                             ["Le titre du rapport est requis"] None None in
  errorHandler error = Some response /\ status response = 400.
Proof.
  cbn zeta. split; [reflexivity|].
  apply (proj2 errorHandler_of_dao_error
               (mkErr "ValidationError" "Report validation failed"
                      None None (Some ["Le titre du rapport est requis"])
                      None None None)
               (mkResponse 400 "Erreur de validation"
                           (Text "VALIDATION_ERROR")
                           ["Le titre du rapport est requis"] None None)
               (or_introl eq_refl) eq_refl).
Defined.

(** X17: an error made by [createHttpError] with a status code from 100
    to 999 is answered with that status code, with its message, or
    "Erreur serveur" for an empty one, and with its code, or [HTTP_]
    followed by the status code when no code was given. With another
    status code than these and 0 the handler throws, since the response
    refuses the status code; with the status code 0 the error is answered
    as an unknown one, with 500 and the code INTERNAL_SERVER_ERROR;
    without a status code that is 500 with the code HTTP_500. An unknown
    route is answered with 404 and the code NOT_FOUND. *)
Theorem errorHandler_of_createHttpError :
  (forall (message : string) (n : nat) (code : option string),
      100 <= n <= 999 ->
      errorHandler (createHttpError message (Some n) code)
      = Some (mkResponse n
                (match message with "" => "Erreur serveur" | m => m end)
                (match code with
                 | None | Some "" => Text ("HTTP_" ++ of_nat n)
                 | Some c => Text c
                 end)
                [] None None))
  /\ (forall (message : string) (n : nat) (code : option string),
         0 < n < 100 \/ 999 < n ->
         errorHandler (createHttpError message (Some n) code) = None)
  /\ (forall (message : string) (code : option string),
         option_map (fun r => (status r, Errors.code r))
                    (errorHandler (createHttpError message (Some 0) code))
         = Some (500, Text "INTERNAL_SERVER_ERROR"))
  /\ (forall message : string,
         option_map (fun r => (status r, code r))
                    (errorHandler (createHttpError message None None))
         = Some (500, Text "HTTP_500"))
  /\ (forall originalUrl : string,
         errorHandler (notFoundHandler originalUrl)
         = Some (mkResponse 404 ("Route non trouvée: " ++ originalUrl)
                            (Text "NOT_FOUND") [] None None)).
Proof.
  assert (Hname : forall (message : string) (n : nat) (code : option string),
             errorHandler (createHttpError message (Some (S n)) code)
             = if (100 <=? S n)%nat && (S n <=? 999)%nat
               then Some (mkResponse (S n)
                            (match message with
                             | "" => "Erreur serveur"
                             | m => m
                             end)
                            (match code with
                             | None | Some "" => Text ("HTTP_" ++ of_nat (S n))
                             | Some c => Text c
                             end)
                            [] None None)
               else None).
  { intros message n code.
    unfold createHttpError, errorHandler.
    cbn [e_name e_message e_code e_statusCode].
    change (String.eqb "Error" "ValidationError") with false.
    change (String.eqb "Error" "CastError") with false.
    change (String.eqb "Error" "JsonWebTokenError") with false.
    change (String.eqb "Error" "TokenExpiredError") with false.
    destruct ((100 <=? S n)%nat && (S n <=? 999)%nat);
      destruct code as [[|c t]|], message; reflexivity. }
  split; [| split; [| split; [| split]]].
  - intros message n code Hn. destruct n as [|n]; [lia|].
    rewrite Hname.
    replace ((100 <=? S n)%nat && (S n <=? 999)%nat) with true;
      [reflexivity|].
    symmetry. apply andb_true_iff. split; apply Nat.leb_le; lia.
  - intros message n code Hn. destruct n as [|n]; [lia|].
    rewrite Hname.
    replace ((100 <=? S n)%nat && (S n <=? 999)%nat) with false;
      [reflexivity|].
    symmetry. apply andb_false_iff.
    destruct Hn as [Hn | Hn]; [left | right]; apply Nat.leb_gt; lia.
  - intros message code. destruct code as [[|c t]|]; reflexivity.
  - intros message. reflexivity.
  - intros originalUrl. reflexivity.
Qed.

Lemma errorHandler_of_createHttpError_witness :
  errorHandler (createHttpError "Accès refusé" (Some 403) None)
  = Some (mkResponse 403 "Accès refusé" (Text "HTTP_403") [] None None).
Proof.
  apply (proj1 errorHandler_of_createHttpError "Accès refusé" 403 None).
  lia.
Defined.

End ErrorHandling.

(** ** Configuration entries *)

Section Configurations.

Import JsString Model ConfigDAO.

Lemma findOneAndUpdate_keys (key : string) (f : Config -> Config)
      (l : list Config) :
  (forall d, cfg_key (f d) = key) ->
  map cfg_key (findOneAndUpdate key f l) = map cfg_key l.
Proof.
  intros Hf. induction l as [|x l IH]; [reflexivity|]. cbn.
  destruct (String.eqb_spec (cfg_key x) key) as [E | E]; cbn.
  - rewrite Hf, E. reflexivity.
  - rewrite IH. reflexivity.
Qed.

Lemma find_findOneAndUpdate (key k : string) (f : Config -> Config)
      (l : list Config) :
  (forall d, cfg_key (f d) = key) ->
  find (fun c => String.eqb (cfg_key c) k) (findOneAndUpdate key f l)
  = if String.eqb key k
    then option_map f (find (fun c => String.eqb (cfg_key c) k) l)
    else find (fun c => String.eqb (cfg_key c) k) l.
Proof.
  intros Hf. induction l as [|x l IH].
  - cbn. destruct (String.eqb key k); reflexivity.
  - cbn. destruct (String.eqb_spec (cfg_key x) key) as [E | E]; cbn.
    + rewrite Hf, E. destruct (String.eqb key k); reflexivity.
    + destruct (String.eqb_spec (cfg_key x) k) as [E' | E'].
      * destruct (String.eqb_spec key k); [congruence | reflexivity].
      * exact IH.
Qed.

Lemma NoDup_snoc {A : Type} (l : list A) (x : A) :
  NoDup l -> ~ In x l -> NoDup (l ++ [x]).
Proof.
  induction l as [|y l IH]; intros Hnd Hx; cbn.
  - constructor; [intros [] | constructor].
  - inversion Hnd as [|? ? Hy Hl]; subst. constructor.
    + intros Hin. apply in_app_or in Hin. destruct Hin as [Hin | [-> | []]].
      * contradiction.
      * apply Hx. left. reflexivity.
    + apply IH; [exact Hl|]. intros Hin. apply Hx. right. exact Hin.
Qed.

(** X18: [upsert] and [findByKey]. Keys are trimmed, in a query as in
    an update, so two keys that differ in the white space around them name
    the same entry. After [upsert(key, value)] the entry found under the
    key, and under every key that is the same once trimmed, is the one
    returned, with the trimmed key, that value and the trimmed
    description; the entries under other keys are found as before; a
    document is added exactly when the key had none, so keys that were
    distinct stay distinct; and a call without description stores the
    empty description, also over an existing one. *)
Theorem upsert_then_findByKey :
  forall (key value : string) (description : option string) (now : Time)
         (cs : Configs),
    let cs' := fst (upsert key value description now cs) in
    let doc := snd (upsert key value description now cs) in
    (forall k, trim k = trim key -> findByKey k cs' = Some doc)
    /\ cfg_key doc = trim key
    /\ cfg_value doc = value
    /\ cfg_description doc
       = match description with Some d => trim d | None => EmptyString end
    /\ (forall k, trim k <> trim key -> findByKey k cs' = findByKey k cs)
    /\ List.length (configs cs')
       = match findByKey key cs with
         | Some _ => List.length (configs cs)
         | None => S (List.length (configs cs))
         end
    /\ (NoDup (map cfg_key (configs cs)) ->
        NoDup (map cfg_key (configs cs'))).
Proof.
  intros key value description now cs. cbn zeta.
  assert (Hd : trim (match description with Some d => d | None => "" end)
               = match description with Some d => trim d | None => "" end)
    by (destruct description; reflexivity).
  unfold upsert, findByKey, findOne. rewrite Hd.
  destruct (find (fun c => String.eqb (cfg_key c) (trim key)) (configs cs))
    as [c|] eqn:Hf; cbn [fst snd configs cfg_key cfg_value cfg_description].
  - repeat split.
    + intros k Hk. rewrite Hk, find_findOneAndUpdate by reflexivity.
      rewrite String.eqb_refl, Hf. reflexivity.
    + intros k Hk. rewrite find_findOneAndUpdate by reflexivity.
      destruct (String.eqb_spec (trim key) (trim k));
        [congruence | reflexivity].
    + rewrite <- (length_map cfg_key), findOneAndUpdate_keys by reflexivity.
      apply length_map.
    + rewrite findOneAndUpdate_keys by reflexivity. auto.
  - repeat split.
    + intros k Hk. rewrite Hk, (find_app_none _ _ _ Hf). cbn.
      rewrite String.eqb_refl. reflexivity.
    + intros k Hk.
      destruct (find (fun c => String.eqb (cfg_key c) (trim k)) (configs cs))
        as [d|] eqn:Hk'.
      * apply find_app_some, Hk'.
      * rewrite (find_app_none _ _ _ Hk'). cbn.
        destruct (String.eqb_spec (trim key) (trim k));
          [congruence | reflexivity].
    + rewrite length_app. cbn. lia.
    + intros Hnd. rewrite map_app. cbn [map].
      apply NoDup_snoc; [exact Hnd|].
      intros Hin. apply in_map_iff in Hin. destruct Hin as (d & Hd' & Hin).
      pose proof (find_none _ _ Hf d Hin) as Hno. cbn in Hno.
      cbn [cfg_key] in Hd'. rewrite Hd', String.eqb_refl in Hno. discriminate.
Qed.

Lemma upsert_then_findByKey_witness :
  let cs := mkConfigs [mkConfig 1 "scan.interval" "24h" "Scan period" 0] 2 in
  map cfg_key (configs (fst (upsert "scan.interval" "12h" None 5 cs)))
  = ["scan.interval"]
  /\ NoDup (map cfg_key
              (configs (fst (upsert "scan.interval" "12h" None 5 cs)))).
Proof.
  cbn zeta. split; [vm_compute; reflexivity|].
  apply (proj2 (proj2 (proj2 (proj2 (proj2 (proj2
           (upsert_then_findByKey
              "scan.interval" "12h" None 5
              (mkConfigs [mkConfig 1 "scan.interval" "24h" "Scan period" 0]
                         2)))))))).
  cbn. repeat constructor. intros [].
Defined.

End Configurations.

(** ** The notifications of the web client *)

Section ClientNotifications.

Import Model DAO NotificationsContext.

Lemma unread_mark_read (n : Notification) :
  unread (NotificationDAO.mark_read n) = false.
Proof. reflexivity. Qed.

Lemma filter_unread_all_read (l : list Notification) :
  filter unread (map NotificationDAO.mark_read l) = [].
Proof. induction l as [|x l IH]; [reflexivity | exact IH]. Qed.

Lemma map_other_ids (id : ObjectId) (f : Notification -> Notification)
      (l : list Notification) :
  ~ In id (map n_id l) ->
  map (fun n => if Nat.eqb (n_id n) id then f n else n) l = l.
Proof.
  induction l as [|x l IH]; intros H; [reflexivity|]. cbn.
  destruct (Nat.eqb_spec (n_id x) id) as [E | E].
  - exfalso. apply H. left. exact E.
  - f_equal. apply IH. intros Hin. apply H. right. exact Hin.
Qed.

Lemma filter_other_ids (id : ObjectId) (l : list Notification) :
  ~ In id (map n_id l) ->
  filter (fun n => negb (Nat.eqb (n_id n) id)) l = l.
Proof.
  induction l as [|x l IH]; intros H; [reflexivity|]. cbn.
  destruct (Nat.eqb_spec (n_id x) id) as [E | E]; cbn.
  - exfalso. apply H. left. exact E.
  - f_equal. apply IH. intros Hin. apply H. right. exact Hin.
Qed.

(** Marking the notification [n] of a list without duplicate [_id]s takes
    it out of the unread ones, if it was one. *)
Lemma unread_after_marking (l : list Notification) (n : Notification) :
  NoDup (map n_id l) -> In n l ->
  List.length
    (filter unread
       (map (fun x => if Nat.eqb (n_id x) (n_id n)
                      then NotificationDAO.mark_read x else x) l))
  + (if unread n then 1 else 0)
  = List.length (filter unread l).
Proof.
  induction l as [|x l IH]; intros Hnd Hin; [contradiction|].
  cbn [map] in Hnd. inversion Hnd as [|? ? Hx Hl]; subst.
  cbn [map filter].
  destruct Hin as [-> | Hin].
  - rewrite Nat.eqb_refl, unread_mark_read.
    rewrite (map_other_ids (n_id n) _ l Hx).
    destruct (unread n); cbn; lia.
  - destruct (Nat.eqb_spec (n_id x) (n_id n)) as [E | E].
    + exfalso. apply Hx. rewrite E. apply in_map, Hin.
    + specialize (IH Hl Hin).
      destruct (unread x); cbn [List.length]; lia.
Qed.

Lemma unread_after_deleting (l : list Notification) (n : Notification) :
  NoDup (map n_id l) -> In n l ->
  List.length
    (filter unread (filter (fun x => negb (Nat.eqb (n_id x) (n_id n))) l))
  + (if unread n then 1 else 0)
  = List.length (filter unread l).
Proof.
  induction l as [|x l IH]; intros Hnd Hin; [contradiction|].
  cbn [map] in Hnd. inversion Hnd as [|? ? Hx Hl]; subst.
  cbn [filter].
  destruct Hin as [-> | Hin].
  - rewrite Nat.eqb_refl. cbn [negb].
    rewrite (filter_other_ids (n_id n) l Hx).
    destruct (unread n); cbn; lia.
  - destruct (Nat.eqb_spec (n_id x) (n_id n)) as [E | E].
    + exfalso. apply Hx. rewrite E. apply in_map, Hin.
    + specialize (IH Hl Hin). cbn [negb filter].
      destruct (unread x); cbn [List.length]; lia.
Qed.

Lemma find_id_In (id : ObjectId) (l : list Notification) (n : Notification) :
  find (fun x => Nat.eqb (n_id x) id) l = Some n -> In n l /\ n_id n = id.
Proof.
  intros H. apply find_some in H. destruct H as [Hin Hid].
  apply Nat.eqb_eq in Hid. auto.
Qed.

Lemma find_id_none (id : ObjectId) (l : list Notification) :
  find (fun x => Nat.eqb (n_id x) id) l = None -> ~ In id (map n_id l).
Proof.
  intros H Hin. apply in_map_iff in Hin. destruct Hin as (x & Hx & Hin).
  pose proof (find_none _ _ H x Hin) as Hno. cbn in Hno.
  rewrite Hx, Nat.eqb_refl in Hno. discriminate.
Qed.

(** X19: the unread counter of the web client. After a fetch, after
    marking all as read, and after a deletion the counter is the number of
    unread notifications of the list, provided it was before (for the
    deletion, in a list without duplicate [_id]s). Marking one
    notification as read keeps the counter right when the list holds that
    notification unread; when it holds it as read already and the counter
    is not zero, the counter is decremented all the same and is then one
    short of the number of unread notifications. *)
Theorem unreadCount_tracks_unread :
  (forall (answer : list Notification) (s : State),
      counted (fetchNotifications answer s))
  /\ (forall s : State, counted (markAllAsRead s))
  /\ (forall (id : ObjectId) (s : State),
         counted s -> NoDup (map n_id (notifications s)) ->
         counted (deleteNotification id s))
  /\ (forall (n : Notification) (s : State),
         counted s -> NoDup (map n_id (notifications s)) ->
         In n (notifications s) -> n_read n = false ->
         counted (markAsRead (n_id n) s))
  /\ (forall (n : Notification) (s : State),
         counted s -> NoDup (map n_id (notifications s)) ->
         In n (notifications s) -> n_read n = true ->
         0 < unreadCount s ->
         S (unreadCount (markAsRead (n_id n) s))
         = List.length (filter unread (notifications (markAsRead (n_id n) s)))).
Proof.
  unfold counted. repeat split.
  - intros s. cbn. rewrite filter_unread_all_read. reflexivity.
  - intros id s Hc Hnd. unfold deleteNotification. cbn [notifications unreadCount].
    destruct (find (fun n => Nat.eqb (n_id n) id) (notifications s))
      as [n|] eqn:Hf.
    + apply find_id_In in Hf. destruct Hf as [Hin <-].
      pose proof (unread_after_deleting _ n Hnd Hin) as H.
      unfold unread in H at 2. destruct (negb (n_read n)); lia.
    + rewrite (filter_other_ids id _ (find_id_none _ _ Hf)). exact Hc.
  - intros n s Hc Hnd Hin Hr. unfold markAsRead. cbn [notifications unreadCount].
    pose proof (unread_after_marking _ n Hnd Hin) as H.
    unfold unread in H at 2. rewrite Hr in H. cbn in H. lia.
  - intros n s Hc Hnd Hin Hr Hpos. unfold markAsRead.
    cbn [notifications unreadCount].
    pose proof (unread_after_marking _ n Hnd Hin) as H.
    unfold unread in H at 2. rewrite Hr in H. cbn in H. lia.
Qed.

Lemma unreadCount_tracks_unread_witness :
  let n1 := mkNotification 1 0 0 "Mise à jour disponible" "m" nt_update info
                           None true [7] in
  let n2 := mkNotification 2 0 0 "Mise à jour disponible" "m" nt_update info
                           None false [7] in
  let s := fetchNotifications [n1; n2] (mkState [] 0) in
  unreadCount s = 1
  /\ unreadCount (markAsRead 1 s) = 0
  /\ List.length (filter unread (notifications (markAsRead 1 s))) = 1.
Proof.
  cbn zeta. split; [reflexivity | split; [reflexivity|]].
  symmetry.
  apply (proj2 (proj2 (proj2 (proj2 unreadCount_tracks_unread)))
               (mkNotification 1 0 0 "Mise à jour disponible" "m" nt_update
                               info None true [7])
               (fetchNotifications
                  [mkNotification 1 0 0 "Mise à jour disponible" "m"
                                  nt_update info None true [7];
                   mkNotification 2 0 0 "Mise à jour disponible" "m"
                                  nt_update info None false [7]]
                  (mkState [] 0))).
  - reflexivity.
  - cbn. repeat constructor; cbn; intuition discriminate.
  - left. reflexivity.
  - reflexivity.
  - cbn. lia.
Defined.

End ClientNotifications.

(** ** Regular expressions: the derivatives decide the language *)

Section RegularExpressions.

Import JsNum JsRegExp.

Lemma ranges_eqb_eq (a b : list (N * N)) : ranges_eqb a b = true -> a = b.
Proof.
  revert b. induction a as [|[x1 x2] a IH]; intros [|[y1 y2] b] H;
    try discriminate; [reflexivity|].
  cbn in H. apply andb_true_iff in H. destruct H as [H Hr].
  apply andb_true_iff in H. destruct H as [H1 H2].
  apply N.eqb_eq in H1. apply N.eqb_eq in H2.
  rewrite (IH b Hr). congruence.
Qed.

Lemma regex_eqb_eq (r s : regex) : regex_eqb r s = true -> r = s.
Proof.
  revert s. induction r as [| | a | r1 IH1 r2 IH2 | r1 IH1 r2 IH2 | r IH];
    intros [| | b | s1 s2 | s1 s2 | s] H; try discriminate; cbn in H.
  - reflexivity.
  - reflexivity.
  - f_equal. apply ranges_eqb_eq, H.
  - apply andb_true_iff in H. destruct H as [H1 H2].
    rewrite (IH1 _ H1), (IH2 _ H2). reflexivity.
  - apply andb_true_iff in H. destruct H as [H1 H2].
    rewrite (IH1 _ H1), (IH2 _ H2). reflexivity.
  - rewrite (IH _ H). reflexivity.
Qed.

Lemma nullable_matches (r : regex) : nullable r = true <-> matches r [].
Proof.
  induction r as [| | a | r1 IH1 r2 IH2 | r1 IH1 r2 IH2 | r IH]; cbn.
  - split; [discriminate | intros H; inversion H].
  - split; [intros _; constructor | reflexivity].
  - split; [discriminate | intros H; inversion H].
  - rewrite andb_true_iff, IH1, IH2. split.
    + intros [H1 H2]. apply (matches_seq r1 r2 [] [] H1 H2).
    + intros H. inversion H as [| |? ? u v Hu Hv Er E| | | |]; subst.
      apply app_eq_nil in E. destruct E; subst. auto.
  - rewrite orb_true_iff, IH1, IH2. split.
    + intros [H | H]; [apply matches_left | apply matches_right]; exact H.
    + intros H. inversion H; subst; auto.
  - split; [intros _; constructor | reflexivity].
Qed.

Lemma seq_matches (r s : regex) (w : list ascii) :
  matches (seq r s) w <-> matches (Seq r s) w.
Proof.
  assert (Hnever : forall u, ~ matches Never u)
    by (intros u H; inversion H).
  split.
  - destruct r, s; cbn; intros H;
      try exact H; try (exfalso; exact (Hnever _ H));
      try (apply (matches_seq Empty _ [] w); [constructor | exact H]).
  - intros H. inversion H as [| |? ? u v Hu Hv Er E| | | |]; subst.
    destruct r, s; cbn;
      try (exfalso; exact (Hnever _ Hu));
      try (exfalso; exact (Hnever _ Hv));
      try (inversion Hu; subst; exact Hv);
      try (apply matches_seq; assumption).
Qed.

Lemma among_matches (r s : regex) :
  among r s = true -> forall w, matches r w -> matches s w.
Proof.
  induction s as [| | a | s1 IH1 s2 IH2 | s1 IH1 s2 IH2 | s IH];
    cbn [among]; intros H w Hw;
    apply orb_true_iff in H; destruct H as [H | H];
    try (apply regex_eqb_eq in H; subst; exact Hw);
    try discriminate.
  apply orb_true_iff in H. destruct H as [H | H].
  - apply matches_left, IH1; assumption.
  - apply matches_right, IH2; assumption.
Qed.

Lemma alt_base_matches (r s : regex) (w : list ascii) :
  matches (match s with
           | Never => r
           | _ => if among r s then s else Alt r s
           end) w
  <-> matches (Alt r s) w.
Proof.
  assert (Hs : forall u, matches r u \/ matches s u ->
             matches (if among r s then s else Alt r s) u).
  { intros u [Hu | Hu]; destruct (among r s) eqn:E.
    - apply (among_matches r s E), Hu.
    - apply matches_left, Hu.
    - exact Hu.
    - apply matches_right, Hu. }
  assert (Hr : forall u, matches (if among r s then s else Alt r s) u ->
                         matches (Alt r s) u).
  { intros u Hu. destruct (among r s); [apply matches_right|]; exact Hu. }
  split.
  - destruct s; try apply Hr. intros H. apply matches_left, H.
  - intros H. inversion H; subst.
    + destruct s; try (apply Hs; left; assumption). assumption.
    + destruct s; try (apply Hs; right; assumption).
      match goal with H' : matches Never _ |- _ => inversion H' end.
Qed.

Lemma alt_matches (r s : regex) (w : list ascii) :
  matches (alt r s) w <-> matches (Alt r s) w.
Proof.
  revert s w.
  induction r as [| | a | r1 IH1 r2 IH2 | r1 IH1 r2 IH2 | r IH];
    intros s w; cbn [alt]; try apply alt_base_matches.
  - split; [intros H; apply matches_right, H |].
    intros H. inversion H; subst; [|assumption].
    match goal with H' : matches Never _ |- _ => inversion H' end.
  - rewrite IH1. split.
    + intros H. inversion H; subst.
      * apply matches_left, matches_left. assumption.
      * match goal with H' : matches (alt r2 s) _ |- _ =>
          apply IH2 in H'; inversion H'; subst end.
        -- apply matches_left, matches_right. assumption.
        -- apply matches_right. assumption.
    + intros H. inversion H; subst.
      * match goal with H' : matches (Alt r1 r2) _ |- _ =>
          inversion H'; subst end.
        -- apply matches_left. assumption.
        -- apply matches_right, IH2, matches_left. assumption.
      * apply matches_right, IH2, matches_right. assumption.
Qed.

Lemma star_cons (r : regex) (c : ascii) (w : list ascii) :
  matches (Star r) (c :: w) ->
  exists u v, w = u ++ v /\ matches r (c :: u) /\ matches (Star r) v.
Proof.
  intros H. remember (Star r) as s eqn:Es. remember (c :: w) as l eqn:El.
  revert w El.
  induction H as [| | | | | r0 | r0 u v Hu _ Hv IHv]; intros w El;
    try discriminate.
  injection Es as ->.
  destruct u as [|d u].
  - cbn in El. apply IHv; [reflexivity | exact El].
  - cbn in El. injection El as -> <-.
    exists u, v. auto.
Qed.

Lemma derive_matches (c : ascii) (r : regex) :
  forall w, matches (derive c r) w <-> matches r (c :: w).
Proof.
  induction r as [| | a | r1 IH1 r2 IH2 | r1 IH1 r2 IH2 | r IH];
    intros w; cbn [derive].
  - split; intros H; inversion H.
  - split; intros H; inversion H.
  - destruct (in_class c a) eqn:E; split; intros H.
    + inversion H; subst. constructor. exact E.
    + inversion H; subst. constructor.
    + inversion H.
    + inversion H; subst. congruence.
  - rewrite alt_matches. split.
    + intros H. inversion H; subst.
      * match goal with H' : matches (seq _ _) _ |- _ =>
          apply seq_matches in H'; inversion H'; subst end.
        match goal with H' : matches (derive c r1) _ |- _ =>
          apply IH1 in H' end.
        change (c :: ?u ++ ?v) with ((c :: u) ++ v).
        apply matches_seq; assumption.
      * destruct (nullable r1) eqn:En.
        -- apply nullable_matches in En.
           match goal with H' : matches (derive c r2) _ |- _ =>
             apply IH2 in H' end.
           apply (matches_seq r1 r2 [] (c :: w)); assumption.
        -- match goal with H' : matches Never _ |- _ => inversion H' end.
    + intros H. inversion H as [| |? ? u v Hu Hv Er E| | | |]; subst.
      destruct u as [|d u].
      * cbn in E. subst v. apply matches_right.
        apply nullable_matches in Hu. rewrite Hu. apply IH2, Hv.
      * cbn in E. injection E as -> <-.
        apply matches_left, seq_matches, matches_seq; [apply IH1, Hu | exact Hv].
  - rewrite alt_matches. split.
    + intros H. inversion H; subst.
      * apply matches_left, IH1. assumption.
      * apply matches_right, IH2. assumption.
    + intros H. inversion H; subst.
      * apply matches_left, IH1. assumption.
      * apply matches_right, IH2. assumption.
  - rewrite seq_matches. split.
    + intros H. inversion H as [| |? ? u v Hu Hv Er E| | | |]; subst.
      apply IH in Hu.
      change (c :: u ++ v) with ((c :: u) ++ v).
      apply matches_more; assumption.
    + intros H. apply star_cons in H. destruct H as (u & v & -> & Hu & Hv).
      apply matches_seq; [apply IH, Hu | exact Hv].
Qed.

(** [test] decides the language of the expression. *)
Lemma test_matches (r : regex) (s : string) :
  test r s = true <-> matches r (chars s).
Proof.
  unfold test. generalize (chars s). intros l. revert r.
  induction l as [|c l IH]; intros r; cbn [fold_left].
  - apply nullable_matches.
  - rewrite IH. apply derive_matches.
Qed.

End RegularExpressions.

(** ** The authentication service *)

Section Registration.

Import JsString Model DAO StackScanner Auth AuthService.

Variable toLowerCase : string -> string.
Variable hash : string -> string -> string.
Variable sign : ObjectId -> string -> Time -> string.

Lemma find_none_forall {A : Type} (p : A -> bool) (l : list A) :
  find p l = None <-> forall x, In x l -> p x = false.
Proof.
  split.
  - intros H x Hin. exact (find_none p l H x Hin).
  - induction l as [|y l IH]; intros H; [reflexivity|]. cbn.
    rewrite (H y (or_introl eq_refl)). apply IH.
    intros x Hx. apply H. right. exact Hx.
Qed.

(** The three outcomes of a registration. *)
Lemma register_cases (username email password : string)
      (role : option string) (salt : string) (now : Time) (a : Accounts) :
  let name := set_username username in
  let mail := set_email toLowerCase email in
  let role' := match role with Some r => r | None => "viewer" end in
  let user := mkUser (next_user_id a) name mail (hash password salt) role'
                     true None in
  register toLowerCase hash sign username email password role salt now a
  = match findOne toLowerCase username email a with
    | Some _ => (a, 400, None)
    | None =>
        if valid name mail (hash password salt) role'
        then (mkAccounts (users a ++ [user]) (S (next_user_id a)), 201,
              Some (sign (next_user_id a) role' now, user))
        else (a, 500, None)
    end.
Proof.
  cbn zeta. unfold register, create.
  destruct (findOne toLowerCase username email a); [reflexivity|].
  destruct (valid _ _ _ _); reflexivity.
Qed.

(** X20: registration keeps the accounts well kept: distinct [_id]s below
    the counter, distinct user names, distinct emails. The name is looked
    up and stored trimmed, the email trimmed and in lower case. The
    request is answered with 400 exactly when a stored user has that
    name or that email, and else with 201 exactly when the validators of
    the schema pass: a name of 3 to 50 code units, an email of the
    pattern, a hashed password of at least 8 code units, and a role that
    is admin, developer or viewer. It then adds one active user with the
    hashed password and with the role of the request body, viewer when
    there is none. A document that the schema refuses is answered with
    500; nothing is stored unless the answer is 201. *)
Theorem register_keeps_accounts :
  forall (username email password : string) (role : option string)
         (salt : string) (now : Time) (a : Accounts),
    well_kept a ->
    let name := set_username username in
    let mail := set_email toLowerCase email in
    let role' := match role with Some r => r | None => "viewer" end in
    let a' := fst (fst (register toLowerCase hash sign username email
                                 password role salt now a)) in
    let status := snd (fst (register toLowerCase hash sign username email
                                     password role salt now a)) in
    well_kept a'
    /\ (status = 400
        <-> exists u, In u (users a)
                      /\ (u_username u = name \/ u_email u = mail))
    /\ (status = 201
        <-> (forall u, In u (users a) ->
                       u_username u <> name /\ u_email u <> mail)
            /\ valid name mail (hash password salt) role' = true)
    /\ (status = 201 ->
        exists user,
          users a' = users a ++ [user]
          /\ u_username user = name
          /\ u_email user = mail
          /\ u_password user = hash password salt
          /\ u_role user = role'
          /\ In role' roles
          /\ u_isActive user = true)
    /\ (status <> 201 -> (status = 400 \/ status = 500) /\ a' = a).
Proof.
  intros username email password role salt now a (Hid & Hname & Hmail & Hlt).
  cbn zeta. rewrite register_cases. cbn zeta.
  set (name := set_username username).
  set (mail := set_email toLowerCase email).
  set (role' := match role with Some r => r | None => "viewer" end).
  unfold findOne. fold name mail.
  destruct (find (fun u => String.eqb (u_username u) name
                           || String.eqb (u_email u) mail) (users a))
    as [u0|] eqn:Hf.
  - cbn [fst snd].
    apply find_some in Hf. destruct Hf as [Hin Hp].
    apply orb_true_iff in Hp.
    assert (Hu0 : u_username u0 = name \/ u_email u0 = mail)
      by (destruct Hp as [Hp | Hp]; apply String.eqb_eq in Hp; auto).
    split; [repeat split; assumption|].
    split; [split; [intros _; exists u0; auto | reflexivity]|].
    split; [| split; [discriminate | auto]].
    split; [discriminate|].
    intros [H _]. exfalso. destruct (H u0 Hin) as [H1 H2].
    destruct Hu0; contradiction.
  - pose proof (proj1 (find_none_forall _ _) Hf) as Hnone.
    assert (Hfree : forall u, In u (users a) ->
                      u_username u <> name /\ u_email u <> mail).
    { intros u Hin. specialize (Hnone u Hin). cbn in Hnone.
      apply orb_false_iff in Hnone. destruct Hnone as [H1 H2].
      apply String.eqb_neq in H1. apply String.eqb_neq in H2. auto. }
    assert (Huntaken : ~ exists u, In u (users a)
                          /\ (u_username u = name \/ u_email u = mail)).
    { intros (u & Hin & Hu). destruct (Hfree u Hin). destruct Hu; contradiction. }
    destruct (valid name mail (hash password salt) role') eqn:Hvalid;
      cbn [fst snd users].
    + split; [| split; [| split; [| split]]].
      * unfold well_kept. cbn [users next_user_id].
        rewrite !map_app. cbn [map u_id u_username u_email].
        repeat split.
        -- apply NoDup_snoc; [exact Hid|]. intros Hin.
           apply in_map_iff in Hin. destruct Hin as (u & Hu & Hin).
           rewrite Forall_forall in Hlt. specialize (Hlt u Hin). lia.
        -- apply NoDup_snoc; [exact Hname|]. intros Hin.
           apply in_map_iff in Hin. destruct Hin as (u & Hu & Hin).
           destruct (Hfree u Hin). contradiction.
        -- apply NoDup_snoc; [exact Hmail|]. intros Hin.
           apply in_map_iff in Hin. destruct Hin as (u & Hu & Hin).
           destruct (Hfree u Hin). contradiction.
        -- apply Forall_app. split.
           ++ eapply Forall_impl; [| exact Hlt]. cbn. intros u Hu. lia.
           ++ constructor; [cbn; lia | constructor].
      * split; [discriminate | intros H; contradiction].
      * tauto.
      * intros _. eexists. split; [reflexivity|]. cbn.
        repeat split.
        unfold valid in Hvalid. apply andb_true_iff in Hvalid.
        destruct Hvalid as [_ Hrole]. apply existsb_exists in Hrole.
        destruct Hrole as (r & Hr & Heq). apply String.eqb_eq in Heq.
        subst r. exact Hr.
      * congruence.
    + split; [repeat split; assumption|].
      split; [split; [discriminate | intros H; contradiction]|].
      split; [split; [discriminate | intros [_ H]; discriminate]|].
      split; [discriminate | auto].
Qed.

End Registration.

Section RegistrationToScan.

Import JsString Model DAO StackScanner Auth AuthService.

Variable toLowerCase : string -> string.
Variable hash : string -> string -> string.
Variable sign : ObjectId -> string -> Time -> string.
Variable verify : string -> Verified.

(** X21: from registration to the scan. A user who registers with the
    role admin, on accounts that are well kept, is stored with that role,
    and the token of the registration opens the scan route: with it the
    request passes [verifyToken] and [checkRole('admin', 'developer')]
    and is handed to the scan handler. The properties used of the
    library are that [jwt.verify] decodes the token to the payload that
    was signed, and that the token is not empty and has no space. *)
Theorem register_as_admin_then_scan :
  forall (username email password salt : string) (now now' : Time)
         (a a1 : Accounts) (token : string) (user : User)
         (serviceId : option ObjectId) (st : Store),
    well_kept a ->
    register toLowerCase hash sign username email password (Some "admin")
             salt now a
    = (a1, 201, Some (token, user)) ->
    verify token = Decoded (u_id user) "admin" ->
    token <> EmptyString ->
    forallb (fun c => negb (JsNum.is_char c " ")) (list_ascii_of_string token)
    = true ->
    findById u_id (u_id user) (users a1) = Some user
    /\ u_role user = "admin"
    /\ post_scan verify (Some (users a1))
                 (Some ("Bearer " ++ token)%string) serviceId now' st
       = scan serviceId now' st.
Proof.
  intros username email password salt now now' a a1 token user serviceId st
         (Hid & Hname & Hmail & Hlt) Hreg Hver Hne Hsp.
  rewrite register_cases in Hreg. cbn zeta in Hreg.
  destruct (findOne toLowerCase username email a); [discriminate|].
  destruct (valid _ _ _ _); [|discriminate].
  injection Hreg as Ha1 Htok Huser. subst a1 user.
  set (name := set_username username) in *.
  set (mail := set_email toLowerCase email) in *.
  assert (Hfind : findById u_id (next_user_id a)
                           (users a
                            ++ [mkUser (next_user_id a) name mail
                                       (hash password salt) "admin" true
                                       None])
                  = Some (mkUser (next_user_id a) name mail
                                 (hash password salt) "admin" true None)).
  { unfold findById. rewrite find_app_none.
    - cbn. rewrite Nat.eqb_refl. reflexivity.
    - apply find_none_forall. intros u Hin. cbn.
      rewrite Forall_forall in Hlt. specialize (Hlt u Hin).
      apply Nat.eqb_neq. lia. }
  cbn [users u_id u_role].
  split; [exact Hfind | split; [reflexivity|]].
  unfold post_scan, verifyToken.
  rewrite (bearer_header token Hsp).
  destruct token as [|c t]; [congruence|].
  rewrite Hver. cbn [users u_id]. rewrite Hfind. reflexivity.
Qed.

End RegistrationToScan.

Lemma register_keeps_accounts_witness :
  let toLowerCase :=
    fun s : string =>
      string_of_list_ascii (map Gateway.lower (list_ascii_of_string s)) in
  let hash := fun password salt : string => (salt ++ password)%string in
  let sign := fun (id : nat) (role : string) (now : nat) => "t0k3n" in
  let a := AuthService.mkAccounts [] 1 in
  AuthService.well_kept
    (fst (fst (AuthService.register toLowerCase hash sign "ana"
                                    " Ana@Example.org" "s3cr3t-pw" None
                                    "salt" 0 a))).
Proof.
  cbn zeta.
  apply (proj1 (register_keeps_accounts
                  (fun s : string =>
                     string_of_list_ascii
                       (map Gateway.lower (list_ascii_of_string s)))
                  (fun password salt : string => (salt ++ password)%string)
                  (fun (id : nat) (role : string) (now : nat) => "t0k3n")
                  "ana" " Ana@Example.org" "s3cr3t-pw" None "salt" 0
                  (AuthService.mkAccounts [] 1)
                  ltac:(repeat split; constructor))).
Defined.

Lemma register_as_admin_then_scan_witness :
  let verify := fun token : string => Auth.Decoded 1 "admin" in
  let user := Auth.mkUser 1 "ana" "ana@example.org" "salts3cr3t-pw" "admin"
                          true None in
  Auth.post_scan verify (Some [user]) (Some "Bearer t0k3n") (Some 1) 10
                 Events.orders_api
  = StackScanner.scan (Some 1) 10 Events.orders_api.
Proof.
  cbn zeta.
  apply (proj2 (proj2
           (register_as_admin_then_scan
              (fun s : string =>
                 string_of_list_ascii
                   (map Gateway.lower (list_ascii_of_string s)))
              (fun password salt : string => (salt ++ password)%string)
              (fun (id : nat) (role : string) (now : nat) => "t0k3n")
              (fun token : string => Auth.Decoded 1 "admin")
              "ana" "ana@example.org" "s3cr3t-pw" "salt" 0 10
              (AuthService.mkAccounts [] 1)
              (AuthService.mkAccounts
                 [Auth.mkUser 1 "ana" "ana@example.org" "salts3cr3t-pw"
                              "admin" true None] 2)
              "t0k3n"
              (Auth.mkUser 1 "ana" "ana@example.org" "salts3cr3t-pw"
                           "admin" true None)
              (Some 1) Events.orders_api
              ltac:(repeat split; constructor)
              ltac:(vm_compute; reflexivity) eq_refl
              ltac:(discriminate) eq_refl))).
Defined.

(** ** The web client: protected routes *)

Section ProtectedRoutes.

Import Auth Client.

(** X22: the route guard of the client and the role check of the server
    agree: a route that requires the role developer is shown to the
    roles that [checkRole('admin', 'developer')] lets pass, which are
    those with [isDeveloper], a route that requires admin to those that
    [checkRole('admin')] lets pass. A user
    who is not signed in is sent to the login page; and a required role
    other than these two is not checked at all. *)
Theorem ProtectedRoute_agrees_with_checkRole :
  forall (role : string) (id : nat) (email : option string),
    (ProtectedRoute (Some "developer") false (Some role) = Children
     <-> checkRole ["admin"; "developer"] (Some (mkReqUser id role email))
         = Next tt)
    /\ (ProtectedRoute (Some "admin") false (Some role) = Children
        <-> checkRole ["admin"] (Some (mkReqUser id role email)) = Next tt)
    /\ (isDeveloper (Some role) = true
        <-> checkRole ["admin"; "developer"] (Some (mkReqUser id role email))
            = Next tt)
    /\ (forall required : option string,
           ProtectedRoute required false None = ToLogin)
    /\ (forall required : string,
           required <> "admin" -> required <> "developer" ->
           ProtectedRoute (Some required) false (Some role) = Children).
Proof.
  intros role id email.
  unfold ProtectedRoute, checkRole, isAdmin, isDeveloper.
  cbn [ru_role existsb].
  change (String.eqb "developer" "admin") with false.
  change (String.eqb "developer" "developer") with true.
  change (String.eqb "admin" "admin") with true.
  change (String.eqb "admin" "developer") with false.
  cbn [andb negb orb].
  repeat split.
  - destruct (String.eqb role "admin"), (String.eqb role "developer");
      cbn; congruence.
  - destruct (String.eqb role "admin"), (String.eqb role "developer");
      cbn; congruence.
  - destruct (String.eqb role "admin"); cbn; congruence.
  - destruct (String.eqb role "admin"); cbn; congruence.
  - destruct (String.eqb role "admin"), (String.eqb role "developer");
      cbn; congruence.
  - destruct (String.eqb role "admin"), (String.eqb role "developer");
      cbn; congruence.
  - intros required H1 H2. destruct required as [|c t]; [reflexivity|].
    apply String.eqb_neq in H1. apply String.eqb_neq in H2.
    rewrite H1, H2. reflexivity.
Qed.

Lemma ProtectedRoute_agrees_with_checkRole_witness :
  ProtectedRoute (Some "viewer") false (Some "viewer") = Children.
Proof.
  apply (proj2 (proj2 (proj2 (proj2 (ProtectedRoute_agrees_with_checkRole
                                       "viewer" 0 None))))
               "viewer");
    discriminate.
Defined.

End ProtectedRoutes.

(** ** Notifier: from creation to the lists *)

Section PostingNotifications.

Import Model DAO DAO.NotificationDAO Queries Routes Notifier Spec.

Lemma filter_mark_read (u : ObjectId) (l : list Notification) :
  List.length
    (filter (addressed_to u)
            (map (fun n => if unread_for u n then mark_read n else n) l))
  = List.length (filter (addressed_to u) l).
Proof.
  rewrite filter_map_swap, length_map. f_equal.
  apply filter_ext. intros n. destruct (unread_for u n); reflexivity.
Qed.

Lemma unread_are_addressed (u : ObjectId) (l : list Notification) :
  filter (fun n => negb (addressed_to u n)) (filter (unread_for u) l) = [].
Proof.
  induction l as [|x l IH]; [reflexivity|].
  cbn [filter]. destruct (unread_for u x) eqn:E; [|exact IH].
  cbn [filter]. unfold unread_for in E. unfold addressed_to.
  apply andb_true_iff in E. destruct E as [E _]. rewrite E. exact IH.
Qed.

(** X23: a notification that is posted with a title, a message and a
    type, the title and the message not blank, is stored unread under a
    fresh [_id], with its title and its message trimmed, severity info
    and no recipient being the defaults. It is then appended to the list
    and to the unread list of exactly its recipients, the lists of every
    other user staying as they were. After PUT /api/notifications/read-all
    a user has no unread notification and as many notifications as
    before. A title or a message of white space only passes the test of
    the handler and is refused by the schema: the request is answered
    with 500, and nothing is stored. *)
Theorem post_notification_reaches_recipients :
  forall (title message : string) (type : NotificationType)
         (severity : option Severity) (service : option ObjectId)
         (recipients : option (list ObjectId)) (now : Time) (st : Store),
    title <> EmptyString ->
    message <> EmptyString ->
    let n := mkNotification (next_id st) now now (JsString.trim title)
                            (JsString.trim message) type
                            (match severity with Some s => s | None => info end)
                            service false
                            (match recipients with Some r => r | None => [] end)
    in
    let st' := fst (post_notification (Some title) (Some message) (Some type)
                                      severity service recipients now st) in
    (JsString.trim title = EmptyString \/ JsString.trim message = EmptyString ->
     post_notification (Some title) (Some message) (Some type)
                       severity service recipients now st = (st, 500))
    /\ (JsString.trim title <> EmptyString ->
        JsString.trim message <> EmptyString ->
        snd (post_notification (Some title) (Some message) (Some type)
                               severity service recipients now st) = 201
        /\ notifications st' = notifications st ++ [n]
        /\ (forall u : ObjectId,
               snd (get_notifications u st')
               = snd (get_notifications u st)
                 ++ (if addressed_to u n then [n] else [])
               /\ snd (get_unread u st')
                  = snd (get_unread u st)
                    ++ (if addressed_to u n then [n] else []))
        /\ (forall u : ObjectId,
               fst (get_unread u (fst (read_all u st'))) = 0
               /\ fst (get_notifications u (fst (read_all u st')))
                  = fst (get_notifications u st'))).
Proof.
  intros title message type severity service recipients now st Ht Hm.
  cbn zeta. rewrite (post_notification_created _ _ _ _ _ _ _ _ Ht Hm).
  split.
  - intros [H | H]; rewrite H; [|rewrite orb_true_r]; reflexivity.
  - intros Ht' Hm'. apply String.eqb_neq in Ht', Hm'. rewrite Ht', Hm'.
    cbn [fst snd NotificationDAO.insert notifications orb].
    split; [reflexivity | split; [reflexivity | split]].
    + intros u. unfold get_notifications, get_unread, findByUser,
        findUnreadByUser. cbn [snd notifications].
      rewrite !filter_app. cbn [filter].
      unfold unread_for at 2, addressed_to. cbn [n_recipients n_read negb].
      rewrite andb_true_r.
      destruct (existsb (Nat.eqb u)
                  (match recipients with Some r => r | None => [] end));
        split; reflexivity.
    + intros u. unfold get_notifications, get_unread, read_all, markAllAsRead,
        findByUser, findUnreadByUser.
      cbn [fst snd notifications with_notifications].
      split.
      * rewrite (unread_after_mark_all u u), unread_are_addressed.
        reflexivity.
      * apply (filter_mark_read u).
Qed.

Lemma post_notification_reaches_recipients_witness :
  let st' := fst (post_notification (Some "Rapport") (Some " Rapport prêt ")
                                    (Some nt_report) None None (Some [7])
                                    3 Events.orders_api) in
  fst (get_unread 7 st') = 1 /\ fst (get_unread 8 st') = 0
  /\ fst (get_unread 7 (fst (read_all 7 st'))) = 0.
Proof.
  cbn zeta. split; [reflexivity | split; [reflexivity|]].
  apply (proj1 (proj2 (proj2 (proj2
           (proj2 (post_notification_reaches_recipients
                     "Rapport" " Rapport prêt " nt_report None None
                     (Some [7]) 3 Events.orders_api
                     ltac:(discriminate) ltac:(discriminate))
                  ltac:(vm_compute; discriminate)
                  ltac:(vm_compute; discriminate)))) 7)).
Defined.

End PostingNotifications.

(** ** The gateway *)

Section GatewayAuthentication.

Import JsNum JsString Auth Gateway.

Local Open Scope string_scope.

Variable verify : string -> Verified.

Lemma after_app (a b s : string) :
  after (a ++ b) s
  = match after a s with
    | Some r => after b r
    | None => None
    end.
Proof.
  revert s. induction a as [|c a IH]; intros s; [reflexivity|].
  destruct s as [|d s]; cbn; [reflexivity|].
  destruct (Ascii.eqb (lower c) (lower d)); [apply IH | reflexivity].
Qed.

Lemma prefix_split (p s : string) :
  String.prefix p s = true -> exists t, s = p ++ t.
Proof.
  revert s. induction p as [|c p IH]; intros s H.
  - exists s. reflexivity.
  - destruct s as [|d s]; [discriminate|]. cbn in H.
    destruct (ascii_dec c d) as [<- | Hne]; [|discriminate].
    destruct (IH s H) as (t & ->). exists t. reflexivity.
Qed.

(** The paths for which the middleware does not ask for a token: those
    whose part behind the mount path [/api] starts with [/api/auth]. *)
Lemma unguarded_paths (originalPath : string) (rest : string) :
  after "/api" originalPath = Some rest ->
  (exists path, mounted "/api" originalPath = Some path
                /\ String.prefix "/api/auth" path = true) ->
  exists tail, rest = "/api/auth" ++ tail \/ rest = "//api/auth" ++ tail.
Proof.
  intros Ha (path & Hm & Hp). unfold mounted in Hm. rewrite Ha in Hm.
  apply prefix_split in Hp. destruct Hp as (tail & ->). exists tail.
  destruct rest as [|c rest]; [discriminate|].
  destruct (is_char c "/") eqn:Ec; [|discriminate].
  assert (c = "/"%char).
  { unfold is_char in Ec. apply Ascii.eqb_eq in Ec. exact Ec. }
  subst c.
  destruct rest as [|d rest]; [discriminate|].
  destruct (is_char d "/") eqn:Ed.
  - right. inversion Hm. reflexivity.
  - left. inversion Hm. reflexivity.
Qed.

Lemma lower_slash (c : ascii) : lower c = "/"%char -> c = "/"%char.
Proof.
  destruct c as [[] [] [] [] [] [] [] []]; vm_compute; intros H;
    congruence.
Qed.

Lemma proxy_mounts (mount : string) :
  In mount proxies ->
  exists m, mount = "/api" ++ String "/" m
            /\ forall tail,
                 after (String "/" m) ("/api/auth" ++ tail) = None
                 /\ after (String "/" m) ("//api/auth" ++ tail) = None.
Proof.
  unfold proxies. cbn [In].
  intros [<- | [<- | [<- | [<- | [<- | [<- | []]]]]]];
    eexists; (split; [reflexivity|]); intros tail; split; reflexivity.
Qed.

(** X24: the gateway asks for a token on the authentication routes too.
    The middleware is mounted on [/api] and so sees the path without
    [/api]; its test for [/api/auth] therefore fails on the path
    [/api/auth/...], and a request for it is answered as [verifyToken]
    decides, that is with 401 when it carries no token. The test
    succeeds only on paths that no proxy takes, so that every request
    that a proxy takes has passed [verifyToken]. *)
Theorem gateway_guards_every_proxy :
  (forall (rest : string) (authorization : option string),
      guard verify ("/api/auth" ++ rest) authorization
      = match verifyToken verify None authorization with
        | Next user => Next (Some user)
        | Reply status => Reply status
        end)
  /\ (forall rest : string,
         guard verify ("/api/auth" ++ rest) None = Reply 401)
  /\ (forall (originalPath mount : string) (authorization : option string)
             (user : option ReqUser),
         proxy originalPath = Some mount ->
         guard verify originalPath authorization = Next user ->
         exists u, user = Some u
                   /\ verifyToken verify None authorization = Next u).
Proof.
  split; [| split].
  - intros rest authorization. reflexivity.
  - intros rest. reflexivity.
  - intros originalPath mount authorization user Hproxy Hguard.
    unfold proxy in Hproxy. apply find_some in Hproxy.
    destruct Hproxy as [Hin Htakes].
    destruct (proxy_mounts mount Hin) as (m & -> & Hm).
    unfold mounted in Htakes. rewrite after_app in Htakes.
    destruct (after "/api" originalPath) as [rest|] eqn:Ha;
      [| discriminate].
    destruct (after (String "/" m) rest) as [r|] eqn:Hmr; [| discriminate].
    clear Htakes.
    unfold guard in Hguard.
    destruct (mounted "/api" originalPath) as [path|] eqn:Hmount.
    + unfold authMiddleware in Hguard.
      destruct (String.prefix "/api/auth" path) eqn:Hp.
      * exfalso.
        destruct (unguarded_paths originalPath rest Ha
                    (ex_intro _ path (conj Hmount Hp)))
          as (tail & [-> | ->]).
        -- rewrite (proj1 (Hm tail)) in Hmr. discriminate.
        -- rewrite (proj2 (Hm tail)) in Hmr. discriminate.
      * destruct (verifyToken verify None authorization) as [u|status];
          [| discriminate].
        exists u. split; [congruence | reflexivity].
    + exfalso. unfold mounted in Hmount. rewrite Ha in Hmount.
      destruct rest as [|c rest]; [discriminate|].
      cbn [after] in Hmr.
      destruct (Ascii.eqb (lower "/") (lower c)) eqn:Ec; [| discriminate].
      apply Ascii.eqb_eq in Ec. symmetry in Ec.
      change (lower "/") with "/"%char in Ec.
      apply lower_slash in Ec. subst c.
      change (is_char "/" "/") with true in Hmount.
      destruct rest as [|d rest]; [discriminate|].
      destruct (is_char d "/"); discriminate.
Qed.

End GatewayAuthentication.

Lemma gateway_guards_every_proxy_witness :
  let verify := fun token : string => Auth.Throws "JsonWebTokenError" in
  Gateway.guard verify "/api/auth/login" None = Auth.Reply 401
  /\ Gateway.proxy "/api/auth/login" = Some "/api/auth"
  /\ forall user, Gateway.guard verify "/api/auth/login" None
                  <> Auth.Next user.
Proof.
  cbn zeta. split; [reflexivity | split; [reflexivity|]].
  intros user H.
  destruct (proj2 (proj2 (gateway_guards_every_proxy
                            (fun token : string =>
                               Auth.Throws "JsonWebTokenError")))
                  "/api/auth/login" "/api/auth" None user eq_refl H)
    as (u & _ & Hu).
  discriminate Hu.
Defined.

(** ** Version checker: the simulated increment *)

Section DecimalDigits.

Import JsNum JsString Spec Predicates.

(** The value of big-endian digits behind an accumulator. *)
Lemma of_uint_acc_value (l : Decimal.uint) :
  forall acc : positive,
    N.pos (Pos.of_uint_acc l acc)
    = (N.pos acc * 10 ^ N.of_nat (Decimal.nb_digits l) + Pos.of_uint l)%N.
Proof.
  assert (Hpow : forall n : nat,
             (10 ^ N.of_nat (S n) = 10 * 10 ^ N.of_nat n)%N).
  { intros n. replace (N.of_nat (S n)) with (N.succ (N.of_nat n)) by lia.
    apply N.pow_succ_r'. }
  induction l as [|l IH|l IH|l IH|l IH|l IH|l IH|l IH|l IH|l IH|l IH];
    intros acc;
    cbn [Pos.of_uint_acc Pos.of_uint Decimal.nb_digits];
    rewrite ?Hpow, ?IH.
  all: lia.
Qed.

(** Reading the digits that were printed gives the number back. *)
Lemma digits_value_printed (u : Decimal.uint) :
  forall acc : N,
    fold_left
      (fun acc c => (acc * 10 + match digit_of 10 c with
                                | Some d => d
                                | None => 0
                                end)%N)
      (chars (NilEmpty.string_of_uint u)) acc
    = (acc * 10 ^ N.of_nat (Decimal.nb_digits u) + Pos.of_uint u)%N.
Proof.
  assert (Hpow : forall n : nat,
             (10 ^ N.of_nat (S n) = 10 * 10 ^ N.of_nat n)%N).
  { intros n. replace (N.of_nat (S n)) with (N.succ (N.of_nat n)) by lia.
    apply N.pow_succ_r'. }
  induction u as [|l IH|l IH|l IH|l IH|l IH|l IH|l IH|l IH|l IH|l IH];
    intros acc;
    cbn [NilEmpty.string_of_uint chars list_ascii_of_string fold_left
         Pos.of_uint Decimal.nb_digits];
    rewrite ?IH, ?Hpow, ?of_uint_acc_value.
  all: try (cbn; lia).
  all: match goal with
       | |- context [digit_of 10 ?c] =>
           let v := eval vm_compute in (digit_of 10 c) in
           change (digit_of 10 c) with v
       end; cbv beta iota; lia.
Qed.

Lemma printed_digits (u : Decimal.uint) :
  forallb is_digit (chars (NilEmpty.string_of_uint u)) = true.
Proof.
  induction u as [|l IH|l IH|l IH|l IH|l IH|l IH|l IH|l IH|l IH|l IH];
    [reflexivity | exact IH ..].
Qed.

Lemma printed_length (u : Decimal.uint) :
  String.length (NilEmpty.string_of_uint u) = Decimal.nb_digits u.
Proof.
  induction u as [|l IH|l IH|l IH|l IH|l IH|l IH|l IH|l IH|l IH|l IH];
    cbn; congruence.
Qed.

Lemma to_uint_nonnil (n : N) : N.to_uint n <> Decimal.Nil.
Proof.
  destruct n as [|p]; [discriminate|]. apply DecimalPos.Unsigned.to_uint_nonnil.
Qed.

Lemma decimal_printed (n : N) :
  decimal n = NilEmpty.string_of_uint (N.to_uint n).
Proof.
  unfold decimal, NilZero.string_of_uint.
  pose proof (to_uint_nonnil n) as H.
  destruct (N.to_uint n); [congruence | reflexivity ..].
Qed.

(** The decimal digits of a number are a segment of that value. *)
Lemma decimal_segment (n : N) :
  is_decimal (decimal n) = true /\ segment_value (decimal n) = n.
Proof.
  rewrite decimal_printed. split.
  - unfold is_decimal, nonempty_all.
    pose proof (printed_digits (N.to_uint n)) as H.
    pose proof (to_uint_nonnil n) as Hn.
    destruct (N.to_uint n); [congruence | exact H ..].
  - unfold segment_value, digits_value.
    rewrite digits_value_printed. cbn [N.mul N.add].
    apply DecimalN.Unsigned.of_to.
Qed.



(** A number below [10^k] has at most [k] digits. *)
Lemma nb_digits_bound (p : positive) (k : nat) :
  (N.pos p < 10 ^ N.of_nat k)%N -> Decimal.nb_digits (Pos.to_uint p) <= k.
Proof.
  intros Hlt.
  pose proof (DecimalPos.Unsigned.of_to p) as Hof.
  pose proof (DecimalPos.Unsigned.to_of (Pos.to_uint p)) as Hto.
  rewrite Hof in Hto. cbn [N.to_uint] in Hto.
  pose proof (DecimalPos.Unsigned.to_uint_nonzero p) as Hnz.
  pose proof (DecimalPos.Unsigned.to_uint_nonnil p) as Hnn.
  set (u := Pos.to_uint p) in *.
  assert (Hhead : Decimal.nzhead u = u).
  { unfold Decimal.unorm in Hto.
    destruct (Decimal.nzhead u) eqn:E; congruence. }
  assert (Hval : (10 ^ N.of_nat (Decimal.nb_digits u - 1) <= N.pos p)%N).
  { rewrite <- Hof.
    destruct u as [|l|l|l|l|l|l|l|l|l|l];
      [congruence
      | exfalso; exact (DecimalFacts.nzhead_nonzero _ _ Hhead)
      | cbn [Pos.of_uint Decimal.nb_digits];
        rewrite of_uint_acc_value, Nat.sub_succ, Nat.sub_0_r; lia ..]. }
  destruct (Nat.le_gt_cases (Decimal.nb_digits u) k) as [H | H]; [exact H|].
  exfalso.
  assert ((10 ^ N.of_nat k <= 10 ^ N.of_nat (Decimal.nb_digits u - 1))%N).
  { apply N.pow_le_mono_r; lia. }
  lia.
Qed.

Lemma same_exact (v x : Z) :
  (0 <= v <= 2 ^ 53)%Z -> (0 < x)%Z ->
  same (round_pos v 1) (Fin (inject_Z x)) = (v =? x)%Z.
Proof.
  intros Hv Hx. destruct v as [|p|p]; [| | lia].
  - change (round_pos 0 1) with (Fin 0%Q).
    unfold same, Qeq_bool. cbn [Qnum Qden inject_Z].
    destruct x; [lia | reflexivity | lia].
  - rewrite round_pos_exact by lia.
    unfold same, Qeq_bool. cbn [Qnum Qden inject_Z].
    rewrite !Z.mul_1_r. reflexivity.
Qed.

(** An integer of at most sixteen digits that is at most [10^15] is
    printed with all its digits. *)
Lemma shortest_exact (x : Z) (d : nat) :
  (0 < x <= 10 ^ 15)%Z ->
  forall fuel k, d - k <= 15 -> shortest fuel k d x = x.
Proof.
  intros Hx. induction fuel as [|fuel IH]; intros k Hk; [reflexivity|].
  cbn [shortest]. destruct (d <=? k)%nat; [reflexivity|].
  set (p := (10 ^ Z.of_nat (d - k))%Z).
  assert (Hp : (0 < p <= 10 ^ 15)%Z).
  { subst p. split; [apply Z.pow_pos_nonneg; lia|].
    apply Z.pow_le_mono_r; lia. }
  pose proof (Z.mul_div_le x p ltac:(lia)) as Hlo.
  pose proof (Z.mod_pos_bound x p ltac:(lia)) as Hmod.
  pose proof (Z.div_mod x p ltac:(lia)) as Hdiv.
  pose proof (Z.div_pos x p ltac:(lia) ltac:(lia)) as Hq.
  assert (H53 : (2 * 10 ^ 15 <= 2 ^ 53)%Z) by (vm_compute; discriminate).
  rewrite (Z.mul_comm p (x / p)) in Hlo, Hdiv.
  rewrite same_exact by nia.
  rewrite same_exact by lia.
  destruct (Z.eqb_spec (x / p * p) x) as [E | E];
    destruct (Z.eqb_spec (x / p * p + p) x) as [E' | E']; try lia.
  apply IH. lia.
Qed.

Lemma positive_to_string_small (x : Z) :
  (0 < x <= 10 ^ 15)%Z -> positive_to_string x = decimal (Z.to_N x).
Proof.
  intros Hx. unfold positive_to_string.
  assert (Hd : String.length (decimal (Z.to_N x)) <= 16).
  { rewrite decimal_printed, printed_length.
    destruct x as [|p|p]; try lia. cbn [Z.to_N N.to_uint].
    apply nb_digits_bound.
    change (10 ^ N.of_nat 16)%N with (Z.to_N (10 ^ 16)).
    assert ((10 ^ 15 < 10 ^ 16)%Z) by (vm_compute; reflexivity). lia. }
  rewrite (shortest_exact x _ Hx) by lia.
  destruct (Nat.leb_spec (String.length (decimal (Z.to_N x))) 21);
    [reflexivity | lia].
Qed.

Lemma is_radix_digit_10 (c : ascii) :
  is_digit c = true -> is_radix_digit 10 c = true.
Proof.
  unfold is_digit, is_radix_digit, digit_of. intros H. rewrite H.
  apply andb_true_iff in H. destruct H as [H1 H2].
  apply N.leb_le in H1. apply N.leb_le in H2.
  destruct (N.ltb_spec (code c - 48) 10); [reflexivity | lia].
Qed.

Lemma span_all (p : ascii -> bool) (l : list ascii) :
  forallb p l = true -> span p l = (l, []).
Proof.
  induction l as [|c l IH]; [reflexivity|]. cbn. intros H.
  apply andb_true_iff in H. destruct H as [Hc Hl].
  rewrite Hc, (IH Hl). reflexivity.
Qed.

(** [parseInt] of decimal digits. *)
Lemma parseInt_decimal (s : string) :
  is_decimal s = true -> parseInt s = of_decimal (segment_value s) 0.
Proof.
  unfold is_decimal, parseInt, segment_value, nonempty_all.
  destruct (chars s) as [|c l] eqn:E; [discriminate|].
  intros H. rewrite (drop_ws_digits _ H).
  assert (Hc : is_digit c = true).
  { cbn in H. apply andb_true_iff in H. tauto. }
  unfold signed. rewrite !(digit_is_not c _ Hc) by reflexivity.
  assert (Hall : forallb (is_radix_digit 10) (c :: l) = true).
  { rewrite forallb_forall in *. intros x Hx.
    apply is_radix_digit_10, H, Hx. }
  assert (Hradix :
            match c :: l with
            | c0 :: x :: r =>
                if is_char c0 "0" && one_of x "x" "X" then (16%N, r)
                else (10%N, c :: l)
            | _ => (10%N, c :: l)
            end = (10%N, c :: l)).
  { destruct l as [|x r]; [reflexivity|].
    assert (Hx : is_digit x = true).
    { cbn in H. apply andb_true_iff in H. destruct H as [_ H].
      apply andb_true_iff in H. tauto. }
    unfold one_of. rewrite !(digit_is_not x _ Hx) by reflexivity.
    rewrite andb_false_r. reflexivity. }
  rewrite Hradix. rewrite (span_all _ _ Hall). reflexivity.
Qed.

Lemma succ_exact (n : N) :
  (n + 1 <= max_exact)%N ->
  succ (Fin (inject_Z (Z.of_N n))) = Fin (inject_Z (Z.of_N (n + 1))).
Proof.
  intros H. unfold succ, round, Qplus. cbn [Qnum Qden inject_Z].
  rewrite !Z.mul_1_r.
  change (Z.pos (1 * 1)) with 1%Z.
  replace (Z.of_N n + 1)%Z with (Z.of_N (n + 1)) by lia.
  destruct (n + 1)%N as [|p] eqn:E; [lia|].
  cbn [Z.of_N]. apply round_pos_exact.
  unfold max_exact in H. change (2 ^ 53)%Z with (Z.of_N (2 ^ 53)). lia.
Qed.

(** The patch number that [incrementVersion] writes. *)
Lemma incremented_patch (patch : string) :
  is_decimal patch = true ->
  (segment_value patch + 1 <= 10 ^ 15)%N ->
  to_string (succ (parseInt patch)) = decimal (segment_value patch + 1).
Proof.
  intros Hd Hn.
  assert (H53 : (10 ^ 15 <= max_exact)%N) by (vm_compute; discriminate).
  rewrite (parseInt_decimal patch Hd), of_decimal_exact by lia.
  rewrite succ_exact by lia.
  unfold to_string. cbn [Qnum inject_Z].
  destruct (segment_value patch + 1)%N as [|p] eqn:E; [lia|].
  cbn [Z.of_N]. rewrite positive_to_string_small.
  - reflexivity.
  - change (10 ^ 15)%Z with (Z.of_N (10 ^ 15)). lia.
Qed.

End DecimalDigits.

Section IncrementingVersions.

Import JsNum JsString VersionChecker Spec Predicates.

Lemma split_no_dot (s : string) : no_dot s = true -> split s = [s].
Proof.
  unfold no_dot, chars.
  induction s as [|c s IH]; [reflexivity|].
  cbn [list_ascii_of_string forallb]. intros H.
  apply andb_true_iff in H. destruct H as [Hc Hs].
  apply negb_true_iff in Hc. cbn [split]. rewrite Hc, (IH Hs). reflexivity.
Qed.

Lemma split_app_dot (p s : string) :
  no_dot p = true -> split (p ++ String "." s) = p :: split s.
Proof.
  unfold no_dot, chars.
  induction p as [|c p IH]; [reflexivity|].
  cbn [list_ascii_of_string forallb]. intros H.
  apply andb_true_iff in H. destruct H as [Hc Hp].
  apply negb_true_iff in Hc.
  cbn [append split]. rewrite Hc, (IH Hp). reflexivity.
Qed.

Lemma split_join (segments : list string) :
  segments <> [] -> forallb no_dot segments = true ->
  split (join segments) = segments.
Proof.
  induction segments as [|p rest IH]; [congruence|]. intros _ H.
  cbn [forallb] in H. apply andb_true_iff in H. destruct H as [Hp Hrest].
  destruct rest as [|q rest].
  - cbn [join]. apply split_no_dot, Hp.
  - change (join (p :: q :: rest))
      with (p ++ String "." (join (q :: rest)))%string.
    rewrite (split_app_dot _ _ Hp), IH; [reflexivity | discriminate | exact Hrest].
Qed.

Lemma decimal_no_dot (s : string) : is_decimal s = true -> no_dot s = true.
Proof.
  unfold is_decimal, nonempty_all, no_dot. intros H.
  assert (Hall : forallb is_digit (chars s) = true)
    by (destruct (chars s); [discriminate | exact H]).
  rewrite forallb_forall in *. intros c Hc.
  apply negb_true_iff, digit_is_not; [apply Hall, Hc | reflexivity].
Qed.

(** X25: [incrementVersion] on a version of at least three segments
    whose third segment is a decimal integer below [10^15]: the third
    segment is replaced by the decimal digits of its successor and the
    other segments are kept; and when the version is made of decimal
    integers of at most [2^53], the result is a newer version in the
    sense of [isNewerVersion]. *)
Theorem incrementVersion_bumps_patch :
  forall (major minor patch : string) (rest : list string),
    no_dot major = true ->
    no_dot minor = true ->
    forallb no_dot rest = true ->
    is_decimal patch = true ->
    (segment_value patch + 1 <= 10 ^ 15)%N ->
    let version := join (major :: minor :: patch :: rest) in
    incrementVersion version
    = join (major :: minor :: decimal (segment_value patch + 1) :: rest)
    /\ (well_formed version = true ->
        exact version = true ->
        isNewerVersion version (incrementVersion version) = true).
Proof.
  intros major minor patch rest Hmaj Hmin Hrest Hd Hn version.
  assert (Hsplit : split version = major :: minor :: patch :: rest).
  { subst version. apply split_join; [discriminate|].
    cbn [forallb]. rewrite Hmaj, Hmin, (decimal_no_dot _ Hd), Hrest.
    reflexivity. }
  assert (Hinc : incrementVersion version
                 = join (major :: minor
                           :: decimal (segment_value patch + 1) :: rest)).
  { unfold incrementVersion. rewrite Hsplit.
    rewrite (incremented_patch patch Hd Hn). reflexivity. }
  split; [exact Hinc|].
  intros Hw He. rewrite Hinc.
  destruct (decimal_segment (segment_value patch + 1)) as [Hd' Hv'].
  assert (Hsplit' : split (join (major :: minor
                                   :: decimal (segment_value patch + 1)
                                   :: rest))
                    = major :: minor
                        :: decimal (segment_value patch + 1) :: rest).
  { apply split_join; [discriminate|].
    cbn [forallb]. rewrite Hmaj, Hmin, (decimal_no_dot _ Hd'), Hrest.
    reflexivity. }
  unfold well_formed, exact in Hw, He. rewrite Hsplit in Hw, He.
  cbn [forallb] in Hw, He.
  apply andb_true_iff in Hw. destruct Hw as [Hw1 Hw].
  apply andb_true_iff in Hw. destruct Hw as [Hw2 Hw].
  apply andb_true_iff in Hw. destruct Hw as [_ Hw].
  apply andb_true_iff in He. destruct He as [He1 He].
  apply andb_true_iff in He. destruct He as [He2 He].
  apply andb_true_iff in He. destruct He as [He3 He].
  assert (H53 : (10 ^ 15 <= max_exact)%N) by (vm_compute; discriminate).
  unfold isNewerVersion. rewrite Hsplit, Hsplit'.
  rewrite (map_Number_exact (major :: minor :: patch :: rest)).
  2: { cbn [forallb]. rewrite Hw1, Hw2, Hd, Hw. reflexivity. }
  2: { cbn [forallb]. rewrite He1, He2, He3, He. reflexivity. }
  rewrite (map_Number_exact
             (major :: minor :: decimal (segment_value patch + 1) :: rest)).
  2: { cbn [forallb]. rewrite Hw1, Hw2, Hd', Hw. reflexivity. }
  2: { cbn [forallb]. rewrite He1, He2, He, Hv'.
       destruct (N.leb_spec (segment_value patch + 1) max_exact);
         [reflexivity | lia]. }
  rewrite !length_map. cbn [List.length]. rewrite Nat.max_id.
  change (map segment_value (major :: minor :: patch :: rest))
    with (segment_value major :: segment_value minor
            :: segment_value patch :: map segment_value rest).
  change (map segment_value
            (major :: minor :: decimal (segment_value patch + 1) :: rest))
    with (segment_value major :: segment_value minor
            :: segment_value (decimal (segment_value patch + 1))
            :: map segment_value rest).
  rewrite Hv'.
  set (n := S (S (S (List.length rest)))).
  rewrite (compare_from_lex
             (segment_value major :: segment_value minor
                :: segment_value patch :: map segment_value rest)
             (segment_value major :: segment_value minor
                :: (segment_value patch + 1)%N :: map segment_value rest)
             n
             ltac:(cbn [List.length]; rewrite length_map; subst n; lia)
             ltac:(cbn [List.length]; rewrite length_map; subst n; lia)
             n 0 eq_refl).
  cbn [skipn]. unfold pad. cbn [List.length]. rewrite length_map.
  subst n. rewrite Nat.sub_diag. cbn [repeat]. rewrite !app_nil_r.
  cbn [lex_lt]. rewrite !N.ltb_irrefl.
  destruct (N.ltb_spec (segment_value patch) (segment_value patch + 1));
    [reflexivity | lia].
Qed.

End IncrementingVersions.

Lemma incrementVersion_bumps_patch_witness :
  VersionChecker.incrementVersion "16.14.9" = "16.14.10"
  /\ VersionChecker.isNewerVersion
       "16.14.9" (VersionChecker.incrementVersion "16.14.9") = true.
Proof.
  destruct (incrementVersion_bumps_patch
              "16" "14" "9" [] eq_refl eq_refl eq_refl eq_refl
              ltac:(vm_compute; discriminate)) as [H1 H2].
  split; [exact H1 | apply H2; reflexivity].
Defined.

(** ** What the requests never do: a vulnerable service *)

Section NeverVulnerable.

Import Model DAO Queries ReportGenerator Events Spec.

Lemma filter_none {A : Type} (p : A -> bool) (l : list A) :
  (forall x, In x l -> p x = false) -> filter p l = [].
Proof.
  induction l as [|x l IH]; intros H; [reflexivity|]. cbn.
  rewrite (H x (or_introl eq_refl)). apply IH.
  intros y Hy. apply H. right. exact Hy.
Qed.

Lemma non_null_In {A : Type} (x : A) (l : list (option A)) :
  In x (non_null l) -> In (Some x) l.
Proof.
  induction l as [|[y|] l IH]; cbn; [tauto | | auto].
  intros [-> | H]; [left; reflexivity | right; auto].
Qed.

(** X26: no sequence of scan and version-check requests makes a service
    vulnerable. On a store with distinct ids in which no service was
    scanned yet, after any such sequence [ServiceDAO.findVulnerable]
    finds nothing, the services of status unknown are exactly those
    without a scan date, and every report summary counts no vulnerable
    service. *)
Theorem findVulnerable_stays_empty :
  forall (events : list Event) (st : Store),
    distinct_ids st ->
    unscanned st ->
    let st' := run events st in
    findVulnerable st' = []
    /\ findByStatus unknown st'
       = filter (fun s => match s_lastScan s with
                          | None => true
                          | Some _ => false
                          end)
                (services st')
    /\ forall ids : list ObjectId,
         vulnerableServices
           (summarize (non_null (map (findPopulated st') ids))) = 0.
Proof.
  intros events st Hd Hu st'.
  destruct (run_consistent events st (unscanned_consistent st Hd Hu))
    as (_ & Hj).
  fold st' in Hj.
  split; [| split].
  - unfold findVulnerable, findByStatus. apply filter_none.
    intros s Hin. destruct (Hj s Hin) as (_ & Hv & _).
    destruct (s_status s); try reflexivity. congruence.
  - unfold findByStatus. apply filter_ext_in.
    intros s Hin. destruct (Hj s Hin) as (Hunk & _).
    destruct (s_lastScan s) as [t|].
    + destruct (s_status s); try reflexivity.
      discriminate (proj1 Hunk eq_refl).
    + rewrite (proj2 Hunk eq_refl). reflexivity.
  - intros ids.
    set (valid := non_null (map (findPopulated st') ids)).
    pose proof (count_services_shift valid
                  (mkSummary (List.length valid) 0 0 0 0 0 0 0)) as Hsh.
    unfold shifted in Hsh. destruct Hsh as (_ & _ & Hvul & _).
    unfold summarize. rewrite Hvul. cbn [vulnerableServices Nat.add].
    unfold count_status. rewrite filter_none; [reflexivity|].
    intros v Hv. subst valid. apply non_null_In in Hv.
    apply in_map_iff in Hv. destruct Hv as (id & Hid & _).
    unfold findPopulated in Hid.
    destruct (ServiceDAO.findById id st') as [s|] eqn:Hs; [|discriminate].
    cbn in Hid. injection Hid as <-. cbn [status populate].
    apply findById_In in Hs. destruct Hs as [Hin _].
    destruct (Hj s Hin) as (_ & Hnv & _).
    destruct (s_status s); try reflexivity. congruence.
Qed.

Lemma findVulnerable_stays_empty_witness :
  findVulnerable
    (run [Scan (Some 1) 10; CheckUpdates (Some 2) 20; CheckAllUpdates 30]
         orders_api)
  = [].
Proof.
  apply (proj1 (findVulnerable_stays_empty
                  [Scan (Some 1) 10; CheckUpdates (Some 2) 20;
                   CheckAllUpdates 30]
                  orders_api
                  ltac:(repeat split; cbn; repeat constructor; cbn;
                        intuition)
                  ltac:(intros x [<- | []]; split; reflexivity))).
Defined.

End NeverVulnerable.

(** ** Version checker: the order of versions *)

Section VersionOrderTransitive.

Import JsNum JsString VersionChecker Predicates.

Lemma part_not_NaN (a : list jsnum) (i : nat) : part a i <> NaN.
Proof.
  unfold part. destruct (nth_error a i) as [x|]; [|discriminate].
  destruct x as [| b | q]; cbn; try discriminate.
  destruct (Qeq_bool q 0); discriminate.
Qed.

Lemma part_beyond (a : list jsnum) (i : nat) :
  List.length a <= i -> part a i = zero.
Proof.
  intros H. unfold part.
  rewrite (proj2 (nth_error_None a i) H). reflexivity.
Qed.

(** [lt] is a strict weak order on the numbers that are not [NaN]. *)
Lemma lt_transitive (x y z : jsnum) :
  lt x y = true -> lt y z = true -> lt x z = true.
Proof.
  destruct x as [| [|] | p], y as [| [|] | q], z as [| [|] | r];
    cbn; try congruence.
  destruct (Qcompare_spec p q) as [_ | H1 | _]; try discriminate.
  destruct (Qcompare_spec q r) as [_ | H2 | _]; try discriminate.
  intros _ _.
  destruct (Qcompare_spec p r) as [H | _ | H]; try reflexivity; exfalso.
  - rewrite H in H1. apply (Qlt_irrefl r). eapply Qlt_trans; eauto.
  - apply (Qlt_irrefl p). eapply Qlt_trans; [exact H1|].
    eapply Qlt_trans; eauto.
Qed.

Lemma lt_cotransitive (x y z : jsnum) :
  y <> NaN ->
  lt x z = true -> lt x y = true \/ lt y z = true.
Proof.
  destruct x as [| [|] | p], y as [| [|] | q], z as [| [|] | r];
    cbn; try congruence; auto.
  intros _.
  destruct (Qcompare_spec p r) as [_ | H | _]; try discriminate. intros _.
  destruct (Qcompare_spec p q) as [H1 | H1 | H1]; auto.
  - right. destruct (Qcompare_spec q r) as [H2 | H2 | H2]; auto; exfalso.
    + rewrite H1, H2 in H. apply (Qlt_irrefl r H).
    + rewrite H1 in H. apply (Qlt_irrefl q). eapply Qlt_trans; eauto.
  - right. destruct (Qcompare_spec q r) as [H2 | H2 | H2]; auto; exfalso.
    + rewrite H2 in H1. apply (Qlt_irrefl r). eapply Qlt_trans; eauto.
    + apply (Qlt_irrefl q). eapply Qlt_trans; [exact H1|].
      eapply Qlt_trans; eauto.
Qed.

(** The loop finds a first index with a greater latest part. *)
Lemma compare_from_true (a b : list jsnum) :
  forall n i,
    compare_from n i a b = true
    <-> exists k, k < n
                  /\ lt (part a (i + k)) (part b (i + k)) = true
                  /\ forall j, j < k ->
                               lt (part a (i + j)) (part b (i + j)) = false
                               /\ lt (part b (i + j)) (part a (i + j)) = false.
Proof.
  induction n as [|n IH]; intros i.
  - cbn. split; [discriminate | intros (k & Hk & _); lia].
  - cbn [compare_from]. unfold gt.
    destruct (lt (part a i) (part b i)) eqn:E1.
    + split; [intros _ | reflexivity].
      exists 0. rewrite Nat.add_0_r. repeat split; [lia | exact E1 | lia | lia].
    + destruct (lt (part b i) (part a i)) eqn:E2.
      * split; [discriminate|]. intros (k & Hk & Hlt & Hbefore).
        destruct k as [|k].
        -- rewrite Nat.add_0_r in Hlt. congruence.
        -- destruct (Hbefore 0 ltac:(lia)) as [_ H].
           rewrite Nat.add_0_r in H. congruence.
      * rewrite IH. split.
        -- intros (k & Hk & Hlt & Hbefore). exists (S k).
           rewrite Nat.add_succ_r. repeat split; [lia | exact Hlt | |].
           ++ destruct j as [|j]; [rewrite Nat.add_0_r; exact E1|].
              rewrite Nat.add_succ_r. apply (Hbefore j). lia.
           ++ destruct j as [|j]; [rewrite Nat.add_0_r; exact E2|].
              rewrite Nat.add_succ_r. apply (Hbefore j). lia.
        -- intros (k & Hk & Hlt & Hbefore).
           destruct k as [|k].
           ++ rewrite Nat.add_0_r in Hlt. congruence.
           ++ exists k. rewrite Nat.add_succ_r in Hlt.
              repeat split; [lia | exact Hlt | |];
                specialize (Hbefore (S j) ltac:(lia));
                rewrite Nat.add_succ_r in Hbefore; tauto.
Qed.

Lemma isNewerVersion_first (current latest : string) :
  isNewerVersion current latest = true
  <-> first_greater (map Number (split current)) (map Number (split latest)).
Proof.
  unfold isNewerVersion, first_greater. rewrite compare_from_true. cbn [Nat.add].
  split.
  - intros (k & _ & H). exists k. exact H.
  - intros (k & Hlt & Hbefore). exists k. split; [| auto].
    destruct (Nat.lt_ge_cases k
                (Nat.max (List.length (map Number (split current)))
                         (List.length (map Number (split latest)))))
      as [H | H]; [exact H|].
    rewrite !part_beyond in Hlt by lia. discriminate.
Qed.

Lemma first_greater_trans (a b c : list jsnum) :
  first_greater a b -> first_greater b c -> first_greater a c.
Proof.
  intros (i & Hi & Hbi) (j & Hj & Hbj).
  assert (Heq : forall k, k < i -> k < j ->
                  lt (part a k) (part c k) = false
                  /\ lt (part c k) (part a k) = false).
  { intros k Hki Hkj.
    destruct (Hbi k Hki) as [H1 H2]. destruct (Hbj k Hkj) as [H3 H4].
    split.
    - destruct (lt (part a k) (part c k)) eqn:E; [|reflexivity].
      destruct (lt_cotransitive _ (part b k) _ (part_not_NaN b k) E); congruence.
    - destruct (lt (part c k) (part a k)) eqn:E; [|reflexivity].
      destruct (lt_cotransitive _ (part b k) _ (part_not_NaN b k) E); congruence. }
  destruct (Nat.lt_trichotomy i j) as [H | [H | H]].
  - exists i. split; [| intros k Hk; apply Heq; lia].
    destruct (Hbj i H) as [H1 H2].
    destruct (lt (part a i) (part c i)) eqn:E; [reflexivity|].
    destruct (lt_cotransitive _ (part c i) _ (part_not_NaN c i) Hi); congruence.
  - subst j. exists i. split; [| intros k Hk; apply Heq; lia].
    eapply lt_transitive; eauto.
  - exists j. split; [| intros k Hk; apply Heq; lia].
    destruct (Hbi j H) as [H1 H2].
    destruct (lt (part a j) (part c j)) eqn:E; [reflexivity|].
    destruct (lt_cotransitive _ (part a j) _ (part_not_NaN a j) Hj); congruence.
Qed.

Lemma first_difference (a b : list jsnum) :
  forall n,
    (forall j, j < n -> lt (part a j) (part b j) = false
                        /\ lt (part b j) (part a j) = false)
    \/ exists m, m < n
                 /\ (lt (part a m) (part b m) = true
                     \/ lt (part b m) (part a m) = true)
                 /\ forall j, j < m -> lt (part a j) (part b j) = false
                                       /\ lt (part b j) (part a j) = false.
Proof.
  induction n as [|n [IH | (m & Hm & Hd & Hb)]].
  - left. intros j Hj. lia.
  - destruct (lt (part a n) (part b n)) eqn:E1.
    + right. exists n. repeat split; [lia | auto | apply IH; lia ..].
    + destruct (lt (part b n) (part a n)) eqn:E2.
      * right. exists n. repeat split; [lia | auto | apply IH; lia ..].
      * left. intros j Hj.
        destruct (Nat.eq_dec j n) as [-> | Hne]; [auto | apply IH; lia].
  - right. exists m. repeat split; [lia | exact Hd | apply Hb; lia ..].
Qed.

Lemma first_greater_cotrans (a b c : list jsnum) :
  first_greater a c -> first_greater a b \/ first_greater b c.
Proof.
  intros (i & Hi & Hbi).
  assert (Hsame : forall k,
             lt (part a k) (part c k) = false ->
             lt (part c k) (part a k) = false ->
             lt (part a k) (part b k) = false ->
             lt (part b k) (part a k) = false ->
             lt (part b k) (part c k) = false
             /\ lt (part c k) (part b k) = false).
  { intros k H1 H2 H3 H4. split.
    - destruct (lt (part b k) (part c k)) eqn:E; [|reflexivity].
      destruct (lt_cotransitive _ (part a k) _ (part_not_NaN a k) E); congruence.
    - destruct (lt (part c k) (part b k)) eqn:E; [|reflexivity].
      destruct (lt_cotransitive _ (part a k) _ (part_not_NaN a k) E); congruence. }
  destruct (first_difference a b i) as [Hall | (m & Hm & Hd & Hb)].
  - destruct (lt_cotransitive _ (part b i) _ (part_not_NaN b i) Hi) as [H | H].
    + left. exists i. split; [exact H | exact Hall].
    + right. exists i. split; [exact H|]. intros j Hj.
      destruct (Hbi j Hj), (Hall j Hj). apply Hsame; assumption.
  - destruct Hd as [Hd | Hd].
    + left. exists m. split; [exact Hd | exact Hb].
    + right. exists m. split.
      * destruct (Hbi m Hm) as [H1 H2].
        destruct (lt_cotransitive _ (part c m) _ (part_not_NaN c m) Hd);
          [assumption | congruence].
      * intros j Hj.
        destruct (Hbi j ltac:(lia)), (Hb j Hj). apply Hsame; assumption.
Qed.

(** X27: [isNewerVersion] is a strict weak order on all strings: it is
    transitive, and when [c] is newer than [a], any [b] is newer than [a]
    or older than [c], so that being neither newer nor older is
    transitive as well. *)
Theorem isNewerVersion_transitive :
  forall a b c : string,
    (isNewerVersion a b = true -> isNewerVersion b c = true ->
     isNewerVersion a c = true)
    /\ (isNewerVersion a c = true ->
        isNewerVersion a b = true \/ isNewerVersion b c = true).
Proof.
  intros a b c. split.
  - intros Hab Hbc. apply isNewerVersion_first.
    apply isNewerVersion_first in Hab. apply isNewerVersion_first in Hbc.
    eapply first_greater_trans; eauto.
  - intros Hac. apply isNewerVersion_first in Hac.
    destruct (first_greater_cotrans _ (map Number (split b)) _ Hac) as [H | H];
      [left | right]; apply isNewerVersion_first; exact H.
Qed.

Lemma isNewerVersion_transitive_witness :
  isNewerVersion "4.17.3" "18.15.0" = true.
Proof.
  apply (proj1 (isNewerVersion_transitive "4.17.3" "4.18.2" "18.15.0"));
    vm_compute; reflexivity.
Defined.

End VersionOrderTransitive.
